(** * Animated mask compositing: the shine sweep and the year scroll

    A shallow embedding of [icone_shine/icon_shine_effect.py] and
    [year_scroll/year_scroll.py].

    Conventions of the embedding.
    - Python [int] values are [Z]; 8-bit channel values are [Z] in
      [0, 255]; array extents and indices are [nat].
    - Python and NumPy floating-point values are modelled by the real
      numbers [R]: every arithmetic expression keeps the shape it has in
      the source, and rounding error is outside the model.  The frame
      counts are the exception: [int(duration * fps)] drops the fraction
      of a rounded product, so the durations are binary64 values and the
      product is the binary64 product.
    - A NumPy array is a nested list, row major: an (H, W) array is a list
      of H rows of W values, an (H, W, C) array a list of H rows of W
      pixels of C channels.  Whole-array arithmetic is element-wise, as
      NumPy defines it for operands of one shape; the operands of the
      program always have one shape.
    - An operation that raises in Python returns [None].  A channel of a
      pixel is read with [nth]; its default is never reached on an array
      of the shape the program builds. *)

From Stdlib Require Import PrimFloat.
From Stdlib Require FloatOps SpecFloat.
From Stdlib Require Import ZArith List Reals Lra Lia Psatz.
From stdpp Require Import base option list.

Open Scope R_scope.

(** ** Python and NumPy numeric primitives *)

Module Py.

(** [int(x)] on a float: truncation toward zero. *)
Definition int (x : R) : Z :=
  if Rle_dec 0 x then Zfloor x else Zceil x.

(** [float(n)] on an integer: the nearest binary64 value, ties to even. *)
Definition float_of_int (n : Z) : float :=
  FloatOps.SF2Prim (SpecFloat.binary_normalize FloatOps.prec FloatOps.emax n 0 false).

(** The real number a finite binary64 value stands for: sign, mantissa and
    binary exponent. *)
Definition float_value (x : float) : R :=
  match FloatOps.Prim2SF x with
  | SpecFloat.S754_finite s m e =>
      (if s then -1 else 1) * (IZR (Z.pos m) * powerRZ 2 e)
  | _ => 0
  end.

(** [int(x)] on a binary64 value: the mantissa shifted by the exponent,
    the bits below the unit dropped, then the sign; it is the truncation
    toward zero of [float_value x].  Python raises [OverflowError] for an
    infinity and [ValueError] for a NaN, where this definition gives 0; the
    durations and frame rates of the program are finite, and what is proved
    of a frame count assumes the product finite. *)
Definition int_float (x : float) : Z :=
  match FloatOps.Prim2SF x with
  | SpecFloat.S754_finite s m e =>
      let magnitude :=
        if (0 <=? e)%Z then (Z.pos m * 2 ^ e)%Z else (Z.pos m `div` 2 ^ (- e))%Z in
      if s then (- magnitude)%Z else magnitude
  | _ => 0%Z
  end.

(** [round(x)] on a float, no digits: nearest integer, ties to even. *)
Definition round (x : R) : Z :=
  let f := Zfloor x in
  let d := x - IZR f in
  if Rlt_dec d 0.5 then f
  else if Rlt_dec 0.5 d then (f + 1)%Z
  else if Z.even f then f else (f + 1)%Z.

(** [math.radians(x)]. *)
Definition radians (x : R) : R := x * (PI / 180).

(** [range(n)]. *)
Definition range (n : Z) : list Z := Z.of_nat <$> seq 0 (Z.to_nat n).

(** [a // b] on integers is [Z.div] (floor division); [max] and [min] on
    integers are [Z.max] and [Z.min]. *)

(** [np.clip(x, lo, hi)] is [minimum(maximum(x, lo), hi)]. *)
Definition clip (x lo hi : R) : R := Rmin (Rmax x lo) hi.

(** Conversion of a float to [np.uint8]: the fractional part is dropped and
    the integer is kept modulo 256. *)
Definition astype_uint8 (x : R) : Z := (int x) mod 256.

(** Element-wise operations on 2-D and 3-D arrays. *)
Definition map_2d {A B} (f : A → B) (a : list (list A)) : list (list B) :=
  (λ row : list A, f <$> row) <$> a.
Definition zip_2d {A B C} (f : A → B → C)
    (a : list (list A)) (b : list (list B)) : list (list C) :=
  zip_with (zip_with f) a b.
Definition map_3d {A B} (f : A → B) (a : list (list (list A)))
    : list (list (list B)) :=
  (λ row : list (list A), (λ px : list A, f <$> px) <$> row) <$> a.
Definition zip_3d {A B C} (f : A → B → C)
    (a : list (list (list A))) (b : list (list (list B)))
    : list (list (list C)) :=
  zip_with (zip_with (zip_with f)) a b.

(** Indexing [a[y, x]] and [a[y, x, c]]; [None] is out of range. *)
Definition at2 {A} (a : list (list A)) (y x : nat) : option A :=
  a !! y ≫= λ row, row !! x.
Definition at3 {A} (a : list (list (list A))) (y x c : nat) : option A :=
  at2 a y x ≫= λ px, px !! c.

(** [np.stack([a] * 3, axis=-1)]. *)
Definition stack3 {A} (a : list (list A)) : list (list (list A)) :=
  map_2d (λ v, [v; v; v]) a.

(** [a.min()] and [a.max()] over all the elements of a 2-D array; NumPy
    raises [ValueError] on an array without elements. *)
Definition np_min (a : list (list R)) : option R :=
  match concat a with
  | [] => None
  | v :: vs => Some (foldl Rmin v vs)
  end.
Definition np_max (a : list (list R)) : option R :=
  match concat a with
  | [] => None
  | v :: vs => Some (foldl Rmax v vs)
  end.

(** [np.full((h, w), v)] and [np.full((h, w, c), v)]: constant arrays. *)
Definition full_2d {A} (h w : nat) (v : A) : list (list A) :=
  replicate h (replicate w v).
Definition full_3d {A} (h w c : nat) (v : A) : list (list (list A)) :=
  replicate h (replicate w (replicate c v)).

(** The values an [np.uint8] array holds. *)
Definition is_uint8 (v : Z) : Prop := (0 ≤ v < 256)%Z.
Definition all_uint8 (a : list (list (list Z))) : Prop :=
  Forall (Forall (Forall is_uint8)) a.

(** The shape predicates used to state that operands agree. *)
Definition has_shape2 {A} (h w : nat) (a : list (list A)) : Prop :=
  length a = h ∧ Forall (λ row, length row = w) a.
Definition has_shape3 {A} (h w c : nat) (a : list (list (list A))) : Prop :=
  length a = h ∧ Forall (λ row, length row = w ∧ Forall (λ px, length px = c) row) a.

End Py.

(** ** Easing functions *)

(** [icon_shine_effect.py], [ease_out_quad]. *)
Definition ease_out_quad (t : R) : R := 1 - (1 - t) * (1 - t).

(** [year_scroll.py], [ease_in_out_cubic]; the parameter is rebound twice
    in the source ([t *= 2], [t -= 2]). *)
Definition ease_in_out_cubic (t : R) : R :=
  let t := t * 2 in
  if Rlt_dec t 1 then 0.5 * t * t * t
  else
    let t := t - 2 in
    0.5 * (t * t * t + 2).

(** ** The shine sweep: [icon_shine_effect.py] *)

Module Shine.

(** The module-level configuration constants. *)
Record config := Config {
  TOTAL_DURATION : float;
  ANIM_START_TIME : float;
  ANIM_DURATION : float;
  FPS : Z;
  SHINE_ANGLE_DEG : R;
  SHINE_WIDTH_FACTOR : R
}.

(** The values written in the source. *)
Definition source_config : config :=
  {| TOTAL_DURATION := 2.5%float; ANIM_START_TIME := 0.5%float;
     ANIM_DURATION := 1.0%float;
     FPS := 30; SHINE_ANGLE_DEG := -60; SHINE_WIDTH_FACTOR := 0.25 |}.

(** What [cv2.imread(..., IMREAD_UNCHANGED)] hands over: a 2-D array for a
    grayscale file, otherwise an (H, W, channels) array, of [uint8] for an
    8-bit file and of [uint16] for a 16-bit one, whose depth the flag
    keeps. *)
Inductive imread_result :=
| Gray2D (a : list (list Z))
| Color3D (channels : nat) (a : list (list (list Z)))
| Color3D_uint16 (channels : nat) (a : list (list (list Z))).

(** [icon.shape[2]]; a 2-D array has no third extent ([IndexError]). *)
Definition shape_2 (img : imread_result) : option nat :=
  match img with
  | Gray2D _ => None
  | Color3D ch _ | Color3D_uint16 ch _ => Some ch
  end.

(** Whether the array is of [uint8]. *)
Definition is_uint8_image (img : imread_result) : bool :=
  match img with
  | Color3D_uint16 _ _ => false
  | _ => true
  end.

(** [cv2.cvtColor(icon, cv2.COLOR_BGR2BGRA)]: a fourth channel, at the
    maximum, is appended to every pixel. *)
Definition cvtColor_BGR2BGRA (a : list (list (list Z))) : list (list (list Z)) :=
  Py.map_2d (λ px, px ++ [255%Z]) a.

(** Lines 50-54: the default alpha channel. *)
Definition add_default_alpha (img : imread_result) : option (list (list (list Z))) :=
  ch ← shape_2 img;
  match img with
  | Gray2D _ => None
  | Color3D _ a | Color3D_uint16 _ a =>
      if decide (ch = 3%nat) then
        let icon := cvtColor_BGR2BGRA a in
        Some (Py.map_2d (λ px, <[3%nat := 255%Z]> px) icon)
      else Some a
  end.

(** [icon.shape[2]] after lines 50-54. *)
Definition icon_channels (img : imread_result) : option nat :=
  ch ← shape_2 img;
  Some (if decide (ch = 3%nat) then 4%nat else ch).

(** [H, W = icon.shape[:2]]. *)
Definition icon_H (icon : list (list (list Z))) : nat := length icon.
Definition icon_W (icon : list (list (list Z))) : nat :=
  match icon with
  | [] => 0
  | row :: _ => length row
  end.

Section Animation.

(** The colour round trip of lines 68-70 (BGR to HLS, lightness set to 255,
    HLS back to BGR) is OpenCV's; it acts on one BGR pixel at a time. *)
Variable max_lightness : list Z → list Z.

Variable cfg : config.

(** Step 2: the layers. *)
Definition icon_bgr_float (icon : list (list (list Z))) : list (list (list R)) :=
  Py.map_3d (λ v, IZR v / 255.0) (Py.map_2d (take 3) icon).
Definition icon_alpha_float (icon : list (list (list Z))) : list (list R) :=
  Py.map_2d (λ px, IZR (nth 3 px 0%Z) / 255.0) icon.
Definition icon_alpha_3c (icon : list (list (list Z))) : list (list (list R)) :=
  Py.stack3 (icon_alpha_float icon).
Definition base_image (icon : list (list (list Z))) : list (list (list R)) :=
  Py.zip_3d Rmult (icon_bgr_float icon) (icon_alpha_3c icon).

Definition shine_bgr_uint8 (icon : list (list (list Z))) : list (list (list Z)) :=
  Py.map_2d max_lightness (Py.map_2d (take 3) icon).
Definition shine_bgr_float (icon : list (list (list Z))) : list (list (list R)) :=
  Py.map_3d (λ v, IZR v / 255.0) (shine_bgr_uint8 icon).

(** Step 3: [np.meshgrid(np.arange(W), np.arange(H))] and the sweep map. *)
Definition meshgrid_xx (W H : nat) : list (list Z) :=
  replicate H (Z.of_nat <$> seq 0 W).
Definition meshgrid_yy (W H : nat) : list (list Z) :=
  (λ y, replicate W (Z.of_nat y)) <$> seq 0 H.

Definition sweep_angle_rad : R := Py.radians (SHINE_ANGLE_DEG cfg + 90).

Definition sweep_map (W H : nat) : list (list R) :=
  Py.zip_2d Rplus
    (Py.map_2d (λ x, IZR x * cos sweep_angle_rad) (meshgrid_xx W H))
    (Py.map_2d (λ y, IZR y * sin sweep_angle_rad) (meshgrid_yy W H)).

Definition shine_width_pixels (W : nat) : R := INR W * SHINE_WIDTH_FACTOR cfg.

(** Lines 86-89; [None] when the map has no element to take a minimum of. *)
Definition sweep_range (W H : nat) : option (R * R) :=
  map_min ← Py.np_min (sweep_map W H);
  map_max ← Py.np_max (sweep_map W H);
  let sweep_start_pos := map_min - shine_width_pixels W in
  let sweep_end_pos := map_max + shine_width_pixels W in
  Some (sweep_start_pos, sweep_end_pos).

(** Step 5: the frame numbers, from binary64 products. *)
Definition TOTAL_FRAMES : Z :=
  Py.int_float (TOTAL_DURATION cfg * Py.float_of_int (FPS cfg))%float.
Definition ANIM_START_FRAME : Z :=
  Py.int_float (ANIM_START_TIME cfg * Py.float_of_int (FPS cfg))%float.
Definition ANIM_END_FRAME : Z :=
  (ANIM_START_FRAME
   + Py.int_float (ANIM_DURATION cfg * Py.float_of_int (FPS cfg))%float)%Z.

(** [int()] raises [OverflowError] or [ValueError] for a product that is
    not finite; the frame numbers are defined when all three are. *)
Definition frame_numbers_defined : bool :=
  is_finite (TOTAL_DURATION cfg * Py.float_of_int (FPS cfg))%float
  && is_finite (ANIM_START_TIME cfg * Py.float_of_int (FPS cfg))%float
  && is_finite (ANIM_DURATION cfg * Py.float_of_int (FPS cfg))%float.

(** Line 123. *)
Definition animating (i : Z) : bool :=
  bool_decide (i >= ANIM_START_FRAME)%Z && bool_decide (i < ANIM_END_FRAME)%Z.

(** Line 125. *)
Definition progress (i : Z) : R :=
  IZR (i - ANIM_START_FRAME) / IZR (ANIM_END_FRAME - ANIM_START_FRAME).

(** Line 129, as a function of the eased progress. *)
Definition current_pos (sweep_start_pos sweep_end_pos eased_progress : R) : R :=
  let sweep_distance := sweep_end_pos - sweep_start_pos in
  sweep_start_pos + eased_progress * sweep_distance.

(** Lines 132-133.  For a shine width of 0 NumPy divides by zero and the
    mask holds [nan] where the distance is 0, which no real number stands
    for: what is proved of the mask and of an animated frame assumes
    [SHINE_WIDTH_FACTOR] different from 0. *)
Definition gauss_mask (W H : nat) (pos : R) : list (list R) :=
  let dist_from_center := Py.map_2d (λ m, m - pos) (sweep_map W H) in
  Py.map_2d (λ d, exp (- ((d / (shine_width_pixels W / 2.5)) ^ 2)))
    dist_from_center.

(** Line 140: [(shine * alpha) + (base * (1 - alpha))]. *)
Definition composite (shine alpha_3c base : list (list (list R)))
    : list (list (list R)) :=
  Py.zip_3d Rplus
    (Py.zip_3d Rmult shine alpha_3c)
    (Py.zip_3d Rmult base (Py.map_3d (λ a, 1 - a) alpha_3c)).

(** The body of the loop up to line 143. *)
Definition final_frame_float (icon : list (list (list Z)))
    (sweep_start_pos sweep_end_pos : R) (i : Z) : list (list (list R)) :=
  if animating i then
    let eased_progress := ease_out_quad (progress i) in
    let pos := current_pos sweep_start_pos sweep_end_pos eased_progress in
    let shine_alpha :=
      Py.zip_2d Rmult (gauss_mask (icon_W icon) (icon_H icon) pos)
        (icon_alpha_float icon) in
    let shine_alpha_3c := Py.stack3 shine_alpha in
    composite (shine_bgr_float icon) shine_alpha_3c (base_image icon)
  else base_image icon.

(** Line 146. *)
Definition to_uint8 (frame : list (list (list R))) : list (list (list Z)) :=
  Py.map_3d (λ v, Py.astype_uint8 (Py.clip (v * 255) 0 255)) frame.

Definition final_frame_uint8 (icon : list (list (list Z)))
    (sweep_start_pos sweep_end_pos : R) (i : Z) : list (list (list Z)) :=
  to_uint8 (final_frame_float icon sweep_start_pos sweep_end_pos i).

(** The static base composite: the frame shown when nothing is animated. *)
Definition static_base_frame (icon : list (list (list Z))) : list (list (list Z)) :=
  to_uint8 (base_image icon).

(** Line 62, [icon[:, :, 3]]: [IndexError] on fewer than four channels. *)
Definition alpha_channel_missing (img : imread_result) : bool :=
  match icon_channels img with
  | Some channels => bool_decide (channels < 4)%nat
  | None => true
  end.

(** Line 68, [cv2.cvtColor(icon[:, :, :3], cv2.COLOR_BGR2HLS)]: OpenCV
    raises [cv2.error] for an image without pixels and, for this
    conversion, for a depth of 16 bits. *)
Definition cvtColor_BGR2HLS_raises (img : imread_result)
    (icon : list (list (list Z))) : bool :=
  bool_decide (icon_H icon = 0%nat ∨ icon_W icon = 0%nat)
  || negb (is_uint8_image img).

(** The whole function, from the array that [cv2.imread] returned: the
    frames written to the pipe of the encoder, in order, or [None] when a
    line raises.  The file system and the encoder process are outside the
    model. *)
Definition create_shine_animation (img : imread_result)
    : option (list (list (list (list Z)))) :=
  icon ← add_default_alpha img;
  if alpha_channel_missing img then None
  else if cvtColor_BGR2HLS_raises img icon then None
  else
    '(sweep_start_pos, sweep_end_pos) ← sweep_range (icon_W icon) (icon_H icon);
    Some ((λ i, final_frame_uint8 icon sweep_start_pos sweep_end_pos i)
            <$> Py.range TOTAL_FRAMES).

End Animation.

End Shine.

(** ** The sweep pixel in the words of the specification *)

Module Spec.

(** [sweep_map[x,y] = x*cos(theta) + y*sin(theta)] with
    [theta = radians(shine_angle_degrees + 90)]. *)
Definition sweep_map_at (shine_angle_degrees : R) (x y : nat) : R :=
  let theta := Py.radians (shine_angle_degrees + 90) in
  INR x * cos theta + INR y * sin theta.



End Spec.

(** ** The year scroll: [year_scroll.py] *)

Module Scroll.

(** The module-level configuration constants. *)
Record config := Config {
  ANIMATION_DURATION_SECONDS : float;
  ASPECT_RATIO_W : Z;
  ASPECT_RATIO_H : Z;
  FRAME_WIDTH : Z;
  FPS : Z;
  BACKGROUND_COLOR_CV : list Z;
  MASK_VISIBLE_HEIGHT_FACTOR : R;
  FEATHER_AMOUNT_PIXELS : Z
}.

(** The values written in the source. *)
Definition source_config : config :=
  {| ANIMATION_DURATION_SECONDS := 2.0%float;
     ASPECT_RATIO_W := 16; ASPECT_RATIO_H := 9; FRAME_WIDTH := 1280;
     FPS := 30; BACKGROUND_COLOR_CV := [0; 0; 0]%Z;
     MASK_VISIBLE_HEIGHT_FACTOR := 0.20; FEATHER_AMOUNT_PIXELS := 50 |}.

Definition FRAME_HEIGHT (cfg : config) : Z :=
  Py.int (IZR (FRAME_WIDTH cfg) * (IZR (ASPECT_RATIO_H cfg) / IZR (ASPECT_RATIO_W cfg))).

(** *** NumPy and OpenCV array primitives *)

(** [np.zeros((h, w), np.uint8)], [np.zeros((h, w, 4), np.uint8)] and
    [np.full((h, w, 3), color, np.uint8)].  NumPy raises for a negative
    extent, which the model takes as 0: the extents of the frame are
    positive constants of the program, and what is proved of its frames
    assumes them non-negative. *)
Definition zeros_2d (h w : Z) : list (list Z) :=
  replicate (Z.to_nat h) (replicate (Z.to_nat w) 0%Z).
Definition zeros_bgra (h w : Z) : list (list (list Z)) :=
  replicate (Z.to_nat h) (replicate (Z.to_nat w) [0; 0; 0; 0]%Z).
Definition full_bgr (h w : Z) (color : list Z) : list (list (list Z)) :=
  replicate (Z.to_nat h) (replicate (Z.to_nat w) color).

(** [cv2.rectangle(img, pt1, pt2, color, -1)]: the filled rectangle with the
    opposite corners [pt1] and [pt2], both corners included, restricted to
    the image.  Points are (x, y). *)
Definition in_rectangle (pt1 pt2 : Z * Z) (r c : nat) : bool :=
  bool_decide (Z.min pt1.2 pt2.2 ≤ Z.of_nat r ≤ Z.max pt1.2 pt2.2)%Z
  && bool_decide (Z.min pt1.1 pt2.1 ≤ Z.of_nat c ≤ Z.max pt1.1 pt2.1)%Z.
Definition rectangle (img : list (list Z)) (pt1 pt2 : Z * Z) (color : Z)
    : list (list Z) :=
  imap (λ r row, imap (λ c v, if in_rectangle pt1 pt2 r c then color else v) row) img.

(** A bound [k] of a basic slice on an axis of extent [len]: a negative
    bound counts from the end, and every bound is clamped to the axis. *)
Definition slice_bound (len : nat) (k : Z) : nat :=
  Z.to_nat (if (k <? 0)%Z then Z.max 0 (k + Z.of_nat len) else Z.min k (Z.of_nat len)).

(** [l[i:j]]. *)
Definition np_slice {A} (l : list A) (i j : Z) : list A :=
  let lo := slice_bound (length l) i in
  let hi := slice_bound (length l) j in
  take (hi - lo) (drop lo l).

(** [a[y1:y2, x1:x2]]. *)
Definition slice_2d {A} (a : list (list A)) (y1 y2 x1 x2 : Z) : list (list A) :=
  (λ row, np_slice row x1 x2) <$> np_slice a y1 y2.

(** [a.size] of an (H, W, C) array. *)
Definition size_3d {A} (a : list (list (list A))) : nat :=
  length (concat (concat a)).

(** [row[x1:x2] = src] on one row, for a source of the extent of the
    slice. *)
Definition assign_row {A} (row : list A) (x1 : Z) (src : list A) : list A :=
  let lo := slice_bound (length row) x1 in
  take lo row ++ src ++ drop (lo + length src) row.

(** [a[y1:y2, x1:x2] = src].  The model accepts a source of exactly the
    shape of the addressed region, the only case the program produces, and
    answers [None] for every other source, as NumPy does with
    [ValueError] for a source it cannot broadcast to the region. *)
Definition assign_2d {A} (a : list (list A)) (y1 y2 x1 x2 : Z)
    (src : list (list A)) : option (list (list A)) :=
  let lo := slice_bound (length a) y1 in
  let region := np_slice a y1 y2 in
  if bool_decide (Forall2 (λ row srow, length (np_slice row x1 x2) = length srow)
                    region src)
  then Some (take lo a
             ++ zip_with (λ row srow, assign_row row x1 srow) region src
             ++ drop (lo + length region) a)
  else None.

(** [a[:, :, k]] and the assignment [a[:, :, k] = v], which converts the
    floats of [v] to the array's [uint8]. *)
Definition channel (k : nat) (a : list (list (list Z))) : list (list Z) :=
  Py.map_2d (λ px, nth k px 0%Z) a.
Definition set_channel (k : nat) (a : list (list (list Z))) (v : list (list R))
    : list (list (list Z)) :=
  Py.zip_2d (λ px x, <[k := Py.astype_uint8 x]> px) a v.

Section Main.

(** [cv2.GaussianBlur(src, ksize, sigmaX)] is OpenCV's; it returns an
    array of the shape of [src]. *)
Variable GaussianBlur : list (list Z) → Z * Z → R → list (list Z).

(** [create_feathered_mask]. *)
Definition create_feathered_mask (frame_w frame_h visible_strip_h feather_px : Z)
    : list (list Z) :=
  let mask := zeros_2d frame_h frame_w in
  let center_y := (frame_h `div` 2)%Z in
  let strip_top := (center_y - visible_strip_h `div` 2)%Z in
  let strip_bottom := (center_y + visible_strip_h `div` 2)%Z in
  let mask := rectangle mask (0%Z, strip_top) (frame_w, strip_bottom) 255 in
  let blur_ksize := (feather_px * 2 + 1)%Z in
  let feathered_mask := GaussianBlur mask (blur_ksize, blur_ksize) 0 in
  feathered_mask.

Variable cfg : config.

(** The rendered text block and its font metrics come from Pillow:
    [full_text_bgra_cv] is the (h, w, 4) array of the block,
    [_s_actual_h] the height of one line and [text_block_rendered_height]
    the height of the block. *)
Variable full_text_bgra_cv : list (list (list Z)).
Variable s_actual_h : Z.
Variable text_block_rendered_height : Z.

Definition padding : Z := 20.

Definition video_center_y : R := IZR (FRAME_HEIGHT cfg) / 2.
Definition start_scroll_y_offset_pil_top : R :=
  video_center_y - (IZR padding + IZR s_actual_h / 2).
Definition end_scroll_y_offset_pil_top : R :=
  video_center_y - (IZR padding + IZR text_block_rendered_height - IZR s_actual_h / 2).

(** Lines 186-190. *)
Definition mask_visible_actual_h : Z :=
  Py.int (IZR (FRAME_HEIGHT cfg) * MASK_VISIBLE_HEIGHT_FACTOR cfg).
Definition feathered_mask_cv : list (list Z) :=
  create_feathered_mask (FRAME_WIDTH cfg) (FRAME_HEIGHT cfg)
    mask_visible_actual_h (FEATHER_AMOUNT_PIXELS cfg).
Definition feathered_mask_normalized : list (list (list R)) :=
  Py.map_2d (λ v, [v]) (Py.map_2d (λ v, IZR v / 255.0) feathered_mask_cv).

(** Line 201, from the binary64 product. *)
Definition num_total_frames : Z :=
  Py.int_float (ANIMATION_DURATION_SECONDS cfg * Py.float_of_int (FPS cfg))%float.

(** [int()] raises for a product that is not finite. *)
Definition num_total_frames_defined : bool :=
  is_finite (ANIMATION_DURATION_SECONDS cfg * Py.float_of_int (FPS cfg))%float.

(** Line 205. *)
Definition progress (frame_idx : Z) : R :=
  if bool_decide (num_total_frames > 1)%Z
  then IZR frame_idx / IZR (num_total_frames - 1)
  else 0.

(** Lines 208-209. *)
Definition current_y_pil_top (eased_progress : R) : Z :=
  Py.round (start_scroll_y_offset_pil_top
            + (end_scroll_y_offset_pil_top - start_scroll_y_offset_pil_top)
              * eased_progress).

(** [text_img_h, text_img_w = full_text_bgra_cv.shape[:2]]. *)
Definition text_img_h : Z := Z.of_nat (length full_text_bgra_cv).
Definition text_img_w : Z :=
  match full_text_bgra_cv with
  | [] => 0
  | row :: _ => Z.of_nat (length row)
  end.

(** The clipped rectangles of lines 216-238. *)
Record placement := Placement {
  eff_dst_y1 : Z; eff_dst_y2 : Z; eff_dst_x1 : Z; eff_dst_x2 : Z;
  eff_src_y1_text_img : Z; eff_src_y2_text_img : Z;
  eff_src_x1_text_img : Z; eff_src_x2_text_img : Z
}.

Definition place (current_y_pil_top : Z) : placement :=
  let dst_x_offset_canvas := ((FRAME_WIDTH cfg - text_img_w) `div` 2)%Z in
  let src_y1_text_img := 0%Z in
  let src_y2_text_img := text_img_h in
  let dst_y1_canvas := current_y_pil_top in
  let dst_y2_canvas := (current_y_pil_top + text_img_h)%Z in
  let eff_dst_y1 := Z.max 0 dst_y1_canvas in
  let eff_dst_y2 := Z.min (FRAME_HEIGHT cfg) dst_y2_canvas in
  let eff_src_y1_text_img := (src_y1_text_img + (eff_dst_y1 - dst_y1_canvas))%Z in
  let eff_src_y2_text_img := (src_y2_text_img - (dst_y2_canvas - eff_dst_y2))%Z in
  let src_x1_text_img := 0%Z in
  let src_x2_text_img := text_img_w in
  let dst_x1_canvas := dst_x_offset_canvas in
  let dst_x2_canvas := (dst_x_offset_canvas + text_img_w)%Z in
  let eff_dst_x1 := Z.max 0 dst_x1_canvas in
  let eff_dst_x2 := Z.min (FRAME_WIDTH cfg) dst_x2_canvas in
  let eff_src_x1_text_img := (src_x1_text_img + (eff_dst_x1 - dst_x1_canvas))%Z in
  let eff_src_x2_text_img := (src_x2_text_img - (dst_x2_canvas - eff_dst_x2))%Z in
  {| eff_dst_y1 := eff_dst_y1; eff_dst_y2 := eff_dst_y2;
     eff_dst_x1 := eff_dst_x1; eff_dst_x2 := eff_dst_x2;
     eff_src_y1_text_img := eff_src_y1_text_img;
     eff_src_y2_text_img := eff_src_y2_text_img;
     eff_src_x1_text_img := eff_src_x1_text_img;
     eff_src_x2_text_img := eff_src_x2_text_img |}.

(** Lines 240-241. *)
Definition pastes (p : placement) : bool :=
  bool_decide (eff_dst_y2 p > eff_dst_y1 p)%Z
  && bool_decide (eff_dst_x2 p > eff_dst_x1 p)%Z
  && bool_decide (eff_src_y2_text_img p > eff_src_y1_text_img p)%Z
  && bool_decide (eff_src_x2_text_img p > eff_src_x1_text_img p)%Z.

(** Lines 212-245: the canvas with the text block pasted at vertical
    offset [current_y_pil_top]; [None] if the slice assignment raises. *)
Definition temp_scrolled_text_canvas_bgra (current_y_pil_top : Z)
    : option (list (list (list Z))) :=
  let canvas := zeros_bgra (FRAME_HEIGHT cfg) (FRAME_WIDTH cfg) in
  let p := place current_y_pil_top in
  if pastes p then
    let source_slice :=
      slice_2d full_text_bgra_cv
        (eff_src_y1_text_img p) (eff_src_y2_text_img p)
        (eff_src_x1_text_img p) (eff_src_x2_text_img p) in
    if bool_decide (0 < size_3d source_slice)%nat then
      assign_2d canvas (eff_dst_y1 p) (eff_dst_y2 p) (eff_dst_x1 p) (eff_dst_x2 p)
        source_slice
    else Some canvas
  else Some canvas.

(** Lines 254-256, one channel: [bg * (1 - alpha) + fg * alpha].  NumPy
    evaluates the blend in [float32] and the store drops the fraction; the
    blend here is exact, and so is the code's where the alpha is 0 or 1. *)
Definition blend_channel (k : nat) (final_frame_bgr : list (list (list Z)))
    (scrolled : list (list Z)) (combined_alpha : list (list R))
    : list (list (list Z)) :=
  set_channel k final_frame_bgr
    (Py.zip_2d Rplus
       (Py.zip_2d Rmult (Py.map_2d IZR (channel k final_frame_bgr))
          (Py.map_2d (λ a, 1 - a) combined_alpha))
       (Py.zip_2d Rmult (Py.map_2d IZR scrolled) combined_alpha)).

(** Lines 247-256: the blend of the canvas over the frame. *)
Definition composite (final_frame_bgr canvas : list (list (list Z))) 
    (combined_alpha : list (list R)) : list (list (list Z)) :=
  let scrolled_b := channel 0 canvas in
  let scrolled_g := channel 1 canvas in
  let scrolled_r := channel 2 canvas in
  let final_frame_bgr := blend_channel 0 final_frame_bgr scrolled_b combined_alpha in
  let final_frame_bgr := blend_channel 1 final_frame_bgr scrolled_g combined_alpha in
  let final_frame_bgr := blend_channel 2 final_frame_bgr scrolled_r combined_alpha in
  final_frame_bgr.

Definition combined_alpha (canvas : list (list (list Z)))
    (mask_normalized : list (list (list R))) : list (list R) :=
  let scrolled_alpha := Py.map_2d (λ v, IZR v / 255.0) (channel 3 canvas) in
  Py.zip_2d Rmult scrolled_alpha (Py.map_2d (λ px, nth 0 px 0) mask_normalized).

(** The body of the frame loop, for the mask it is given. *)
Definition render_frame (mask_normalized : list (list (list R))) (frame_idx : Z)
    : option (list (list (list Z))) :=
  let eased_progress := ease_in_out_cubic (progress frame_idx) in
  let y := current_y_pil_top eased_progress in
  let final_frame_bgr :=
    full_bgr (FRAME_HEIGHT cfg) (FRAME_WIDTH cfg) (BACKGROUND_COLOR_CV cfg) in
  canvas ← temp_scrolled_text_canvas_bgra y;
  Some (composite final_frame_bgr canvas (combined_alpha canvas mask_normalized)).

(** Line 260, [frame_idx % (FPS // 2) == 0]: whether the progress line is
    printed; [ZeroDivisionError] when [FPS // 2] is 0. *)
Definition report_due (frame_idx : Z) : option bool :=
  let half := (FPS cfg `div` 2)%Z in
  if bool_decide (half = 0)%Z then None
  else Some (bool_decide (frame_idx `mod` half = 0)%Z).

(** The frames handed to the video writer, in order; [None] when an
    iteration of the loop raises. *)
Definition main : option (list (list (list (list Z)))) :=
  let mask := feathered_mask_normalized in
  mapM (λ frame_idx,
          frame ← render_frame mask frame_idx;
          _ ← report_due frame_idx;
          Some frame)
    (Py.range num_total_frames).

End Main.

End Scroll.

(** ** Concrete inputs used in the examples *)

(** A one-pixel icon and a whitening colour transform. *)
Definition example_icon : list (list (list Z)) := [[[10; 20; 30; 255]]]%Z.
Definition example_max_lightness : list Z → list Z := λ _, [255; 255; 255]%Z.

(** A two-by-two text block. *)
Definition example_text : list (list (list Z)) :=
  [[[230; 230; 230; 255]; [0; 0; 0; 0]];
   [[0; 0; 0; 0]; [230; 230; 230; 128]]]%Z.

(** A three-channel image, as read from a file without alpha. *)
Definition example_bgr : list (list (list Z)) := [[[10; 20; 30]; [40; 50; 60]]]%Z.

(** A blur that leaves the mask as it is, to look at the band alone. *)
Definition no_blur : list (list Z) → Z * Z → R → list (list Z) := λ mask _ _, mask.

(** The sweep timeline of the source with a total duration of 2.625 s. *)
Definition longer_config : Shine.config :=
  {| Shine.TOTAL_DURATION := 2.625%float; Shine.ANIM_START_TIME := 0.5%float;
     Shine.ANIM_DURATION := 1.0%float; Shine.FPS := 30;
     Shine.SHINE_ANGLE_DEG := -60; Shine.SHINE_WIDTH_FACTOR := 0.25 |}.

(** A two-by-three icon with one transparent and two half-transparent
    pixels. *)
Definition example_icon_2x3 : list (list (list Z)) :=
  [[[10; 20; 30; 255]; [40; 50; 60; 255]; [70; 80; 90; 128]];
   [[0; 0; 0; 0]; [100; 110; 120; 255]; [130; 140; 150; 64]]]%Z.

(** The scroll timeline of the source at one frame per second. *)
Definition one_fps_config : Scroll.config :=
  {| Scroll.ANIMATION_DURATION_SECONDS := 2.0%float;
     Scroll.ASPECT_RATIO_W := 16; Scroll.ASPECT_RATIO_H := 9;
     Scroll.FRAME_WIDTH := 1280; Scroll.FPS := 1;
     Scroll.BACKGROUND_COLOR_CV := [0; 0; 0]%Z;
     Scroll.MASK_VISIBLE_HEIGHT_FACTOR := 0.20;
     Scroll.FEATHER_AMOUNT_PIXELS := 50 |}.

(** ** The year range and the text block: [year_scroll.py] *)

From Stdlib Require String.

(** [range(a, b)]. *)
Definition py_range (a b : Z) : list Z :=
  (λ i : nat, (a + Z.of_nat i)%Z) <$> seq 0 (Z.to_nat (b - a)).

Module Years.

Definition DEFAULT_START_YEAR : Z := 2000.
Definition DEFAULT_END_YEAR : Z := 2010.

Section Input.

(** [int(s)] on a string; [None] is [ValueError]. *)
Variable int_of_str : String.string → option Z.

(** One field of [get_user_years]: [int(s) if s else default], with the
    default also taken when [int] raises [ValueError]. *)
Definition read_year (default : Z) (year_str : String.string) : Z :=
  match year_str with
  | String.EmptyString => default
  | _ =>
      match int_of_str year_str with
      | Some year => year
      | None => default
      end
  end.

(** [get_user_years], on the lines that [input()] will return, in order.
    Each call reads two lines; with no line left [input()] raises
    [EOFError], which nothing catches.  The result carries the lines not
    read.  The interpreter's bound on the depth of the recursion is
    outside the model. *)
Fixpoint get_user_years (stdin : list String.string)
    : option (Z * Z * list String.string) :=
  match stdin with
  | start_year_str :: end_year_str :: rest =>
      let start_year := read_year DEFAULT_START_YEAR start_year_str in
      let end_year := read_year DEFAULT_END_YEAR end_year_str in
      if bool_decide (start_year >= end_year)%Z then get_user_years rest
      else Some (start_year, end_year, rest)
  | _ => None
  end.

End Input.

(** Line 136: [years = list(range(start_year, end_year + 1))]. *)
Definition years (start_year end_year : Z) : list Z :=
  py_range start_year (end_year + 1).

End Years.

Module TextBlock.

(** A bounding box as Pillow returns it: (left, top, right, bottom). *)
Definition bbox : Type := Z * Z * Z * Z.
Definition left (b : bbox) : Z := b.1.1.1.
Definition top (b : bbox) : Z := b.1.1.2.
Definition right (b : bbox) : Z := b.1.2.
Definition bottom (b : bbox) : Z := b.2.

(** [min(acc, v)] and [max(acc, v)] for an accumulator that starts at
    [float('inf')], respectively [float('-inf')]: [None] is that
    infinity. *)
Definition min_from_inf (acc : option Z) (v : Z) : option Z :=
  Some (match acc with None => v | Some a => Z.min a v end).
Definition max_from_neg_inf (acc : option Z) (v : Z) : option Z :=
  Some (match acc with None => v | Some a => Z.max a v end).

(** What the function hands back, with the extent of the image it draws
    and the point at which it draws the text. *)
Record text_image := TextImage {
  img_width : Z;
  img_height : Z;
  draw_x : Z;
  draw_y : Z;
  text_block_height : Z;
  single_line_render_height : Z
}.

Section Render.

(** [draw.textbbox((x, y), str(year), font=font, anchor="lt")] and, when
    Pillow has it, [draw.multiline_textbbox((0, 0), text_str, font=font,
    spacing=spacing)], given the years of the lines; both are Pillow's. *)
Variable textbbox : Z * Z → Z → bbox.
Variable multiline_textbbox : option (list Z → Z → bbox).

Variable line_spacing_factor : R.

(** The state of the loop of lines 84-93. *)
Record scan := Scan {
  min_bx : option Z; min_by : option Z;
  max_br : option Z; max_bb : option Z;
  temp_y : Z
}.

Definition scan_line (num_lines : nat)
    (single_line_render_height single_line_actual_height : Z)
    (st : scan) (line : nat * Z) : scan :=
  let '(i, year_str_val) := line in
  let line_bbox := textbbox (0%Z, temp_y st) year_str_val in
  {| min_bx := min_from_inf (min_bx st) (left line_bbox);
     min_by := min_from_inf (min_by st) (top line_bbox);
     max_br := max_from_neg_inf (max_br st) (right line_bbox);
     max_bb := max_from_neg_inf (max_bb st) (bottom line_bbox);
     temp_y :=
       if bool_decide (i < num_lines - 1)%nat
       then (temp_y st + single_line_render_height)%Z
       else (temp_y st + single_line_actual_height)%Z |}.

(** Lines 80-94: the box of the block without [multiline_textbbox]. *)
Definition manual_scan (years_list : list Z)
    (single_line_render_height single_line_actual_height : Z) : scan :=
  foldl (scan_line (length years_list) single_line_render_height
           single_line_actual_height)
    {| min_bx := None; min_by := None; max_br := None; max_bb := None;
       temp_y := 0 |}
    (imap (λ i year, (i, year)) years_list).

(** [create_multi_year_text_image]; [None] is the [IndexError] of
    [years_list[0]] on an empty list. *)
Definition create_multi_year_text_image (years_list : list Z)
    : option text_image :=
  let padding_internal := 20%Z in
  first_year ← head years_list;
  let single_year_bbox := textbbox (0%Z, 0%Z) first_year in
  let single_line_actual_height :=
    (bottom single_year_bbox - top single_year_bbox)%Z in
  let single_line_render_height :=
    Py.int (IZR single_line_actual_height * line_spacing_factor) in
  let spacing_for_multiline :=
    (single_line_render_height - single_line_actual_height)%Z in
  multi_bbox ←
    match multiline_textbbox with
    | Some measure => Some (measure years_list spacing_for_multiline)
    | None =>
        let st :=
          manual_scan years_list single_line_render_height
            single_line_actual_height in
        l ← min_bx st; t ← min_by st; r ← max_br st; b ← max_bb st;
        Some (l, t, r, b)
    end;
  let text_block_width := (right multi_bbox - left multi_bbox)%Z in
  let text_block_height := (bottom multi_bbox - top multi_bbox)%Z in
  Some {| img_width := text_block_width + padding_internal * 2;
          img_height := text_block_height + padding_internal * 2;
          draw_x := padding_internal - left multi_bbox;
          draw_y := padding_internal - top multi_bbox;
          text_block_height := text_block_height;
          single_line_render_height := single_line_render_height |}.

End Render.

End TextBlock.

(** An [int] that reads no line at all, and a box of fixed extent at the
    position asked for. *)
Definition example_int_of_str : String.string → option Z := λ _, None.
Definition example_textbbox : Z * Z → Z → TextBlock.bbox :=
  λ xy year, (xy.1, xy.2 + 3, xy.1 + 80, xy.2 + 33)%Z.

(** A line that is not a number: the letter x. *)
Definition example_unreadable : String.string :=
  String.String (Ascii.ascii_of_nat 120) String.EmptyString.
(** * Supporting lemmas *)

(** ** Facts about the primitives *)

Lemma at2_map_2d {A B} (f : A → B) (a : list (list A)) y x :
  Py.at2 (Py.map_2d f a) y x = f <$> Py.at2 a y x.
Proof.
  unfold Py.at2, Py.map_2d. rewrite list_lookup_fmap.
  destruct (a !! y) as [row|]; simpl; [|done].
  by rewrite list_lookup_fmap.
Qed.

Lemma at2_zip_2d {A B C} (f : A → B → C) a b y x :
  Py.at2 (Py.zip_2d f a b) y x =
  Py.at2 a y x ≫= λ u, Py.at2 b y x ≫= λ v, Some (f u v).
Proof.
  unfold Py.at2, Py.zip_2d. rewrite lookup_zip_with.
  destruct (a !! y) as [ra|]; simpl; [|done].
  destruct (b !! y) as [rb|]; simpl.
  - by rewrite lookup_zip_with.
  - by destruct (ra !! x).
Qed.

Lemma at3_map_3d {A B} (f : A → B) (a : list (list (list A))) y x c :
  Py.at3 (Py.map_3d f a) y x c = f <$> Py.at3 a y x c.
Proof.
  unfold Py.at3. change (Py.map_3d f a) with (Py.map_2d (fmap f) a).
  rewrite at2_map_2d. destruct (Py.at2 a y x) as [px|]; simpl; [|done].
  by rewrite list_lookup_fmap.
Qed.

Lemma at3_zip_3d {A B C} (f : A → B → C) a b y x c :
  Py.at3 (Py.zip_3d f a b) y x c =
  Py.at3 a y x c ≫= λ u, Py.at3 b y x c ≫= λ v, Some (f u v).
Proof.
  unfold Py.at3. change (Py.zip_3d f a b) with (Py.zip_2d (zip_with f) a b).
  rewrite at2_zip_2d. destruct (Py.at2 a y x) as [pa|]; simpl; [|done].
  destruct (Py.at2 b y x) as [pb|]; simpl.
  - by rewrite lookup_zip_with.
  - by destruct (pa !! c).
Qed.

Lemma at3_stack3 {A} (a : list (list A)) y x c :
  (c < 3)%nat → Py.at3 (Py.stack3 a) y x c = Py.at2 a y x.
Proof.
  intros Hc. unfold Py.at3, Py.stack3. rewrite at2_map_2d.
  destruct (Py.at2 a y x) as [v|]; simpl; [|done].
  destruct c as [|[|[|c]]]; simpl; try done. lia.
Qed.

Lemma at3_map_2d {A B} (f : A → list B) (a : list (list A)) y x c :
  Py.at3 (Py.map_2d f a) y x c = Py.at2 a y x ≫= λ v, f v !! c.
Proof.
  unfold Py.at3. rewrite at2_map_2d. by destruct (Py.at2 a y x).
Qed.

(** ** Pixels of the layers of the sweep *)

Lemma at3_composite (shine alpha base : list (list (list R))) y x c :
  Py.at3 (Shine.composite shine alpha base) y x c =
  Py.at3 shine y x c ≫= λ s, Py.at3 alpha y x c ≫= λ a,
  Py.at3 base y x c ≫= λ b, Some (s * a + b * (1 - a)).
Proof.
  unfold Shine.composite. rewrite !at3_zip_3d, at3_map_3d.
  destruct (Py.at3 shine y x c), (Py.at3 alpha y x c), (Py.at3 base y x c);
    done.
Qed.

Lemma at2_sweep_map cfg (W H y x : nat) :
  (y < H)%nat → (x < W)%nat →
  Py.at2 (Shine.sweep_map cfg W H) y x =
  Some (Spec.sweep_map_at (Shine.SHINE_ANGLE_DEG cfg) x y).
Proof.
  intros Hy Hx. unfold Shine.sweep_map. rewrite at2_zip_2d, !at2_map_2d.
  unfold Shine.meshgrid_xx, Shine.meshgrid_yy, Py.at2.
  rewrite lookup_replicate_2 by done. simpl.
  rewrite list_lookup_fmap, lookup_seq_lt by done. simpl.
  rewrite list_lookup_fmap, lookup_seq_lt by done. simpl.
  rewrite lookup_replicate_2 by done. simpl.
  unfold Spec.sweep_map_at, Shine.sweep_angle_rad. by rewrite !INR_IZR_INZ.
Qed.

Lemma animating_true cfg i :
  (Shine.ANIM_START_FRAME cfg ≤ i < Shine.ANIM_END_FRAME cfg)%Z →
  Shine.animating cfg i = true.
Proof.
  intros [??]. unfold Shine.animating.
  rewrite !bool_decide_eq_true_2; [done|lia..].
Qed.

Lemma animating_false cfg i :
  (i < Shine.ANIM_START_FRAME cfg ∨ i >= Shine.ANIM_END_FRAME cfg)%Z →
  Shine.animating cfg i = false.
Proof.
  intros [?|?]; unfold Shine.animating.
  - rewrite (bool_decide_eq_false_2 (i >= _)%Z); [done|lia].
  - rewrite (bool_decide_eq_false_2 (i < _)%Z); [|lia]. apply andb_false_r.
Qed.

Lemma at3_icon_bgr_float icon y x c px :
  Py.at2 icon y x = Some px → (c < 3)%nat → (c < length px)%nat →
  Py.at3 (Shine.icon_bgr_float icon) y x c = Some (IZR (nth c px 0%Z) / 255.0).
Proof.
  intros Hpx Hc Hlen. unfold Shine.icon_bgr_float.
  rewrite at3_map_3d, at3_map_2d, Hpx. simpl.
  rewrite lookup_take_lt by done.
  destruct (nth_lookup_or_length px c 0%Z) as [->|]; [done|lia].
Qed.

Lemma at2_icon_alpha_float icon y x px :
  Py.at2 icon y x = Some px →
  Py.at2 (Shine.icon_alpha_float icon) y x = Some (IZR (nth 3 px 0%Z) / 255.0).
Proof.
  intros Hpx. unfold Shine.icon_alpha_float. by rewrite at2_map_2d, Hpx.
Qed.

Lemma at3_base_image icon y x c px :
  Py.at2 icon y x = Some px → (c < 3)%nat → (c < length px)%nat →
  Py.at3 (Shine.base_image icon) y x c =
  Some (IZR (nth c px 0%Z) / 255.0 * (IZR (nth 3 px 0%Z) / 255.0)).
Proof.
  intros Hpx Hc Hlen. unfold Shine.base_image, Shine.icon_alpha_3c.
  rewrite at3_zip_3d, (at3_icon_bgr_float _ _ _ _ px) by done. simpl.
  by rewrite at3_stack3, (at2_icon_alpha_float _ _ _ px).
Qed.

Lemma at3_shine_bgr_float max_lightness icon y x c px sv :
  Py.at2 icon y x = Some px → max_lightness (take 3 px) !! c = Some sv →
  Py.at3 (Shine.shine_bgr_float max_lightness icon) y x c = Some (IZR sv / 255.0).
Proof.
  intros Hpx Hsv. unfold Shine.shine_bgr_float, Shine.shine_bgr_uint8.
  rewrite at3_map_3d, at3_map_2d, at2_map_2d, Hpx. simpl. by rewrite Hsv.
Qed.

(** ** Truncation, rounding and the frame numbers of the source *)

Lemma int_eq_floor (z : Z) (x : R) :
  0 <= x → IZR z <= x < IZR z + 1 → Py.int x = z.
Proof.
  intros Hx Hz. unfold Py.int. destruct (Rle_dec 0 x); [|lra].
  by apply Zfloor_eq.
Qed.

Lemma int_IZR (z : Z) : Py.int (IZR z) = z.
Proof.
  unfold Py.int. destruct (Rle_dec 0 (IZR z)).
  - apply ZfloorZ.
  - apply Zceil_eq. lra.
Qed.

Lemma round_eq_up (z : Z) (x : R) :
  IZR z + 0.5 < x < IZR z + 1 → Py.round x = (z + 1)%Z.
Proof.
  intros Hx. unfold Py.round.
  assert (Zfloor x = z) as -> by (apply Zfloor_eq; lra).
  destruct (Rlt_dec (x - IZR z) 0.5); [lra|].
  destruct (Rlt_dec 0.5 (x - IZR z)); [done|lra].
Qed.

Lemma powerRZ_2_nonneg (e : Z) : (0 ≤ e)%Z → powerRZ 2 e = IZR (2 ^ e).
Proof.
  intros He. rewrite <-(Z2Nat.id e) at 1 by done.
  rewrite <-pow_powerRZ, pow_IZR. by rewrite Z2Nat.id.
Qed.

Lemma float_magnitude_bound (m : positive) (e : Z) :
  let magnitude :=
    if (0 <=? e)%Z then (Z.pos m * 2 ^ e)%Z else (Z.pos m `div` 2 ^ (- e))%Z in
  0 <= IZR magnitude
  ∧ IZR magnitude <= IZR (Z.pos m) * powerRZ 2 e < IZR magnitude + 1.
Proof.
  simpl. destruct (Z.leb_spec 0 e) as [He|He].
  - rewrite powerRZ_2_nonneg, <-mult_IZR by done. split; [|lra].
    apply IZR_le. apply Z.mul_nonneg_nonneg; [lia|]. by apply Z.pow_nonneg.
  - assert (powerRZ 2 e = / IZR (2 ^ (- e))) as ->.
    { rewrite <-powerRZ_2_nonneg, <-powerRZ_neg' by lia. f_equal. lia. }
    set (D := (2 ^ (- e))%Z).
    assert (0 < D)%Z as HD by (apply Z.pow_pos_nonneg; lia).
    pose proof (Z.div_mod (Z.pos m) D ltac:(lia)) as Hdm.
    pose proof (Z.mod_pos_bound (Z.pos m) D HD) as Hmod.
    set (q := (Z.pos m `div` D)%Z) in *. set (r := (Z.pos m `mod` D)%Z) in *.
    assert (0 < IZR D) as HDR by (by apply IZR_lt).
    assert (IZR (Z.pos m) = IZR D * IZR q + IZR r) as HmR
      by (by rewrite <-mult_IZR, <-plus_IZR, <-Hdm).
    assert (0 <= IZR r < IZR D) as HrR
      by (split; [apply IZR_le|apply IZR_lt]; lia).
    assert (0 ≤ q)%Z as Hq by (apply Z.div_pos; lia).
    split; [by apply IZR_le|].
    assert (IZR (Z.pos m) * / IZR D * IZR D = IZR (Z.pos m)) as Hcancel
      by (field; lra).
    split.
    + apply (Rmult_le_reg_r (IZR D)); [done|]. rewrite Hcancel. nra.
    + apply (Rmult_lt_reg_r (IZR D)); [done|]. rewrite Hcancel. nra.
Qed.

(** [int()] on a binary64 value is the truncation toward zero of the
    number it stands for. *)
Lemma int_float_value (x : float) : Py.int_float x = Py.int (Py.float_value x).
Proof.
  unfold Py.int_float, Py.float_value.
  destruct (FloatOps.Prim2SF x) as [| | |s m e]; try (symmetry; apply (int_IZR 0)).
  destruct (float_magnitude_bound m e) as [Hpos Hb]. simpl in Hpos, Hb.
  set (magnitude := if (0 <=? e)%Z then _ else _) in *.
  set (v := IZR (Z.pos m) * powerRZ 2 e) in *.
  destruct s.
  - replace (-1 * v) with (- v) by lra. unfold Py.int.
    destruct (Rle_dec 0 (- v)) as [Hle|Hlt].
    + assert (v = 0) as Hv by lra.
      assert (magnitude = 0%Z) as ->.
      { apply eq_IZR. lra. }
      rewrite Hv, Ropp_0. symmetry. apply (ZfloorZ 0).
    + rewrite ZceilN. f_equal. symmetry. by apply Zfloor_eq.
  - rewrite Rmult_1_l. symmetry. apply int_eq_floor; [lra|done].
Qed.

Lemma shine_source_TOTAL_FRAMES : Shine.TOTAL_FRAMES Shine.source_config = 75%Z.
Proof. reflexivity. Qed.

Lemma shine_source_ANIM_START_FRAME :
  Shine.ANIM_START_FRAME Shine.source_config = 15%Z.
Proof. reflexivity. Qed.

Lemma shine_source_ANIM_END_FRAME :
  Shine.ANIM_END_FRAME Shine.source_config = 45%Z.
Proof. reflexivity. Qed.

Lemma scroll_source_num_total_frames :
  Scroll.num_total_frames Scroll.source_config = 60%Z.
Proof. reflexivity. Qed.

Lemma scroll_source_FRAME_HEIGHT : Scroll.FRAME_HEIGHT Scroll.source_config = 720%Z.
Proof.
  unfold Scroll.FRAME_HEIGHT. simpl. apply int_eq_floor; lra.
Qed.


Lemma lookup_range (n : Z) (k : nat) (i : Z) :
  Py.range n !! k = Some i → i = Z.of_nat k ∧ (Z.of_nat k < n)%Z.
Proof.
  unfold Py.range. rewrite list_lookup_fmap.
  destruct (seq 0 (Z.to_nat n) !! k) as [j|] eqn:E; simpl; [|done].
  apply lookup_seq in E as [-> ?]. intros [= <-]. split; [done|lia].
Qed.

Lemma length_range (n : Z) : length (Py.range n) = Z.to_nat n.
Proof. unfold Py.range. by rewrite length_fmap, length_seq. Qed.

(** ** Minimum and maximum of an array *)

Lemma foldl_Rmin_spec (l : list R) (acc : R) :
  foldl Rmin acc l <= acc
  ∧ Forall (λ v, foldl Rmin acc l <= v) l
  ∧ foldl Rmin acc l ∈ acc :: l.
Proof.
  revert acc. induction l as [|v l IH]; intros acc; simpl.
  - split; [lra|]. split; [constructor|]. apply list_elem_of_here.
  - destruct (IH (Rmin acc v)) as (Hle & Hall & Hin).
    pose proof (Rmin_l acc v). pose proof (Rmin_r acc v).
    split; [lra|]. split.
    + constructor; [lra|done].
    + apply elem_of_cons in Hin as [Heq|Hin].
      * rewrite Heq. unfold Rmin. destruct (Rle_dec acc v).
        -- apply list_elem_of_here.
        -- apply list_elem_of_further, list_elem_of_here.
      * by do 2 apply list_elem_of_further.
Qed.

Lemma foldl_Rmax_spec (l : list R) (acc : R) :
  acc <= foldl Rmax acc l
  ∧ Forall (λ v, v <= foldl Rmax acc l) l
  ∧ foldl Rmax acc l ∈ acc :: l.
Proof.
  revert acc. induction l as [|v l IH]; intros acc; simpl.
  - split; [lra|]. split; [constructor|]. apply list_elem_of_here.
  - destruct (IH (Rmax acc v)) as (Hle & Hall & Hin).
    pose proof (Rmax_l acc v). pose proof (Rmax_r acc v).
    split; [lra|]. split.
    + constructor; [lra|done].
    + apply elem_of_cons in Hin as [Heq|Hin].
      * rewrite Heq. unfold Rmax. destruct (Rle_dec acc v).
        -- apply list_elem_of_further, list_elem_of_here.
        -- apply list_elem_of_here.
      * by do 2 apply list_elem_of_further.
Qed.

Lemma elem_of_concat_at2 {A} (a : list (list A)) (v : A) :
  v ∈ concat a ↔ ∃ y x, Py.at2 a y x = Some v.
Proof.
  rewrite list_elem_of_In, in_concat. unfold Py.at2. split.
  - intros (row & Hrow & Hv).
    apply list_elem_of_In, list_elem_of_lookup in Hrow as [y Hy].
    apply list_elem_of_In, list_elem_of_lookup in Hv as [x Hx].
    exists y, x. by rewrite Hy.
  - intros (y & x & Hyx). destruct (a !! y) as [row|] eqn:Hy; [|done].
    exists row. split; apply list_elem_of_In.
    + by apply list_elem_of_lookup_2 in Hy.
    + by apply list_elem_of_lookup_2 in Hyx.
Qed.

Lemma np_min_spec (a : list (list R)) (m : R) :
  Py.np_min a = Some m →
  (∀ y x v, Py.at2 a y x = Some v → m <= v) ∧ ∃ y x, Py.at2 a y x = Some m.
Proof.
  unfold Py.np_min. destruct (concat a) as [|v vs] eqn:E; [done|].
  intros [= <-]. destruct (foldl_Rmin_spec vs v) as (Hle & Hall & Hin).
  split.
  - intros y x u Hu.
    assert (u ∈ concat a) as Hin' by (apply elem_of_concat_at2; eauto).
    rewrite E in Hin'. apply elem_of_cons in Hin' as [->|Hin']; [done|].
    rewrite Forall_forall in Hall. by apply Hall.
  - apply elem_of_concat_at2. by rewrite E.
Qed.

Lemma np_max_spec (a : list (list R)) (m : R) :
  Py.np_max a = Some m →
  (∀ y x v, Py.at2 a y x = Some v → v <= m) ∧ ∃ y x, Py.at2 a y x = Some m.
Proof.
  unfold Py.np_max. destruct (concat a) as [|v vs] eqn:E; [done|].
  intros [= <-]. destruct (foldl_Rmax_spec vs v) as (Hle & Hall & Hin).
  split.
  - intros y x u Hu.
    assert (u ∈ concat a) as Hin' by (apply elem_of_concat_at2; eauto).
    rewrite E in Hin'. apply elem_of_cons in Hin' as [->|Hin']; [done|].
    rewrite Forall_forall in Hall. by apply Hall.
  - apply elem_of_concat_at2. by rewrite E.
Qed.

Lemma np_min_max_is_Some (a : list (list R)) y x v :
  Py.at2 a y x = Some v → is_Some (Py.np_min a) ∧ is_Some (Py.np_max a).
Proof.
  intros Hv. assert (v ∈ concat a) as Hin by (apply elem_of_concat_at2; eauto).
  unfold Py.np_min, Py.np_max. destruct (concat a); [|by split].
  by apply elem_of_nil in Hin.
Qed.

(** ** Range and monotonicity of the easing functions *)

Lemma cube_monotone (a b : R) : a <= b → a * a * a <= b * b * b.
Proof.
  intros Hab.
  assert (0 <= a * a + a * b + b * b) by nra.
  assert (0 <= (b - a) * (a * a + a * b + b * b)) by (apply Rmult_le_pos; lra).
  lra.
Qed.

Lemma ease_out_quad_range (t : R) : 0 <= t <= 1 → 0 <= ease_out_quad t <= 1.
Proof. unfold ease_out_quad. intros [??]. nra. Qed.

Lemma ease_out_quad_monotone (t u : R) :
  t <= u → u <= 1 → ease_out_quad t <= ease_out_quad u.
Proof. unfold ease_out_quad. intros ??. nra. Qed.

Lemma ease_in_out_cubic_range (t : R) :
  0 <= t <= 1 → 0 <= ease_in_out_cubic t <= 1.
Proof.
  unfold ease_in_out_cubic. intros [H0 H1].
  destruct (Rlt_dec (t * 2) 1).
  - pose proof (cube_monotone 0 (t * 2)). pose proof (cube_monotone (t * 2) 1).
    lra.
  - pose proof (cube_monotone (-1) (t * 2 - 2)).
    pose proof (cube_monotone (t * 2 - 2) 0). lra.
Qed.

Lemma ease_in_out_cubic_monotone (t u : R) :
  0 <= t → t <= u → u <= 1 → ease_in_out_cubic t <= ease_in_out_cubic u.
Proof.
  unfold ease_in_out_cubic. intros H0 Htu H1.
  destruct (Rlt_dec (t * 2) 1), (Rlt_dec (u * 2) 1).
  - pose proof (cube_monotone (t * 2) (u * 2)). lra.
  - pose proof (cube_monotone (t * 2) 1).
    pose proof (cube_monotone (-1) (u * 2 - 2)). lra.
  - lra.
  - pose proof (cube_monotone (t * 2 - 2) (u * 2 - 2)). lra.
Qed.

(** ** Progress of the two animations *)

Lemma shine_progress_range cfg (i : Z) :
  (Shine.ANIM_START_FRAME cfg ≤ i < Shine.ANIM_END_FRAME cfg)%Z →
  0 <= Shine.progress cfg i < 1.
Proof.
  intros [Hlo Hhi]. unfold Shine.progress.
  set (n := (Shine.ANIM_END_FRAME cfg - Shine.ANIM_START_FRAME cfg)%Z).
  set (k := (i - Shine.ANIM_START_FRAME cfg)%Z).
  assert (0 < IZR n) by (apply IZR_lt; lia).
  assert (0 <= IZR k) by (apply IZR_le; lia).
  assert (IZR k < IZR n) by (apply IZR_lt; lia).
  split.
  - apply Rmult_le_pos; [done|]. left. by apply Rinv_0_lt_compat.
  - apply (Rmult_lt_reg_r (IZR n)); [done|]. field_simplify; lra.
Qed.

Lemma scroll_progress_range cfg (k : Z) :
  (0 ≤ k < Scroll.num_total_frames cfg)%Z → 0 <= Scroll.progress cfg k <= 1.
Proof.
  intros [Hlo Hhi]. unfold Scroll.progress.
  destruct (bool_decide _) eqn:E; [|lra].
  apply bool_decide_eq_true in E.
  set (n := (Scroll.num_total_frames cfg - 1)%Z).
  assert (0 < IZR n) by (apply IZR_lt; lia).
  assert (0 <= IZR k) by (apply IZR_le; lia).
  assert (IZR k <= IZR n) by (apply IZR_le; lia).
  split.
  - apply Rmult_le_pos; [done|]. left. by apply Rinv_0_lt_compat.
  - apply (Rmult_le_reg_r (IZR n)); [done|]. field_simplify; lra.
Qed.

Lemma scroll_progress_last cfg :
  Scroll.progress cfg (Scroll.num_total_frames cfg - 1) =
  if bool_decide (Scroll.num_total_frames cfg > 1)%Z then 1 else 0.
Proof.
  unfold Scroll.progress. destruct (bool_decide _) eqn:E; [|done].
  apply bool_decide_eq_true in E. field.
  apply not_0_IZR. lia.
Qed.

(** ** Shapes and slices *)

Lemma has_shape2_lookup {A} (h w : nat) (a : list (list A)) y row :
  Py.has_shape2 h w a → a !! y = Some row → length row = w.
Proof. intros [_ Hall] Hy. by apply (Forall_lookup_1 _ _ _ _ Hall Hy). Qed.

Lemma has_shape2_at2 {A} (h w : nat) (a : list (list A)) y x :
  Py.has_shape2 h w a → (y < h)%nat → (x < w)%nat → is_Some (Py.at2 a y x).
Proof.
  intros Hs Hy Hx. unfold Py.at2.
  destruct (lookup_lt_is_Some_2 a y) as [row Hrow]; [destruct Hs; lia|].
  rewrite Hrow. simpl. apply lookup_lt_is_Some_2.
  by rewrite (has_shape2_lookup _ _ _ _ _ Hs Hrow).
Qed.

Lemma has_shape3_shape2 {A} (h w c : nat) (a : list (list (list A))) :
  Py.has_shape3 h w c a ↔
  Py.has_shape2 h w a ∧ ∀ y x px, Py.at2 a y x = Some px → length px = c.
Proof.
  unfold Py.has_shape3, Py.has_shape2, Py.at2. split.
  - intros [Hlen Hall]. split; [split; [done|]|].
    + eapply Forall_impl; [exact Hall|]. by intros row [??].
    + intros y x px Hpx. destruct (a !! y) as [row|] eqn:Hy; [|done].
      destruct (Forall_lookup_1 _ _ _ _ Hall Hy) as [_ Hrow].
      by apply (Forall_lookup_1 _ _ _ _ Hrow Hpx).
  - intros [[Hlen Hall] Hpx]. split; [done|].
    apply Forall_lookup_2. intros y row Hy. split.
    + by apply (Forall_lookup_1 _ _ _ _ Hall Hy).
    + apply Forall_lookup_2. intros x px Hx. apply (Hpx y x). by rewrite Hy.
Qed.

Lemma at2_replicate {A} (h w : nat) (v : A) y x :
  (y < h)%nat → (x < w)%nat →
  Py.at2 (replicate h (replicate w v)) y x = Some v.
Proof.
  intros Hy Hx. unfold Py.at2. rewrite lookup_replicate_2 by done. simpl.
  by rewrite lookup_replicate_2.
Qed.

Lemma has_shape2_replicate {A} (h w : nat) (v : A) :
  Py.has_shape2 h w (replicate h (replicate w v)).
Proof.
  split; [by rewrite length_replicate|].
  apply Forall_lookup_2. intros y row Hy.
  apply lookup_replicate in Hy as [-> _]. by rewrite length_replicate.
Qed.

Lemma slice_bound_in_range (len : nat) (k : Z) :
  (0 ≤ k ≤ Z.of_nat len)%Z → Scroll.slice_bound len k = Z.to_nat k.
Proof.
  intros [Hlo Hhi]. unfold Scroll.slice_bound.
  destruct (k <? 0)%Z eqn:E; [apply Z.ltb_lt in E; lia|]. f_equal. lia.
Qed.

Lemma np_slice_in_range {A} (l : list A) (i j : Z) :
  (0 ≤ i ≤ j)%Z → (j ≤ Z.of_nat (length l))%Z →
  Scroll.np_slice l i j = take (Z.to_nat (j - i)) (drop (Z.to_nat i) l).
Proof.
  intros Hij Hj. unfold Scroll.np_slice.
  rewrite !slice_bound_in_range by lia. f_equal. lia.
Qed.

Lemma length_np_slice {A} (l : list A) (i j : Z) :
  (0 ≤ i ≤ j)%Z → (j ≤ Z.of_nat (length l))%Z →
  length (Scroll.np_slice l i j) = Z.to_nat (j - i).
Proof.
  intros Hij Hj. rewrite np_slice_in_range by done.
  rewrite length_take, length_drop. lia.
Qed.

Lemma lookup_np_slice {A} (l : list A) (i j : Z) (k : nat) :
  (0 ≤ i ≤ j)%Z → (j ≤ Z.of_nat (length l))%Z → (k < Z.to_nat (j - i))%nat →
  Scroll.np_slice l i j !! k = l !! (Z.to_nat i + k)%nat.
Proof.
  intros Hij Hj Hk. rewrite np_slice_in_range by done.
  by rewrite lookup_take_lt, lookup_drop.
Qed.

Lemma has_shape2_slice_2d {A} (h w : nat) (a : list (list A)) (y1 y2 x1 x2 : Z) :
  Py.has_shape2 h w a →
  (0 ≤ y1 ≤ y2)%Z → (y2 ≤ Z.of_nat h)%Z → (0 ≤ x1 ≤ x2)%Z → (x2 ≤ Z.of_nat w)%Z →
  Py.has_shape2 (Z.to_nat (y2 - y1)) (Z.to_nat (x2 - x1))
    (Scroll.slice_2d a y1 y2 x1 x2).
Proof.
  intros Hs Hy1 Hy2 Hx1 Hx2. pose proof Hs as [Hlen Hall].
  unfold Scroll.slice_2d. split.
  - rewrite length_fmap, length_np_slice; [done|lia..].
  - apply Forall_lookup_2. intros y row Hy.
    rewrite list_lookup_fmap in Hy.
    destruct (Scroll.np_slice a y1 y2 !! y) as [row0|] eqn:Hrow0; [|done].
    simpl in Hy. injection Hy as <-.
    assert (length row0 = w) as Hw.
    { rewrite np_slice_in_range in Hrow0 by lia.
      apply lookup_take_Some in Hrow0 as [Hrow0 _]. rewrite lookup_drop in Hrow0.
      by apply (has_shape2_lookup _ _ _ _ _ Hs Hrow0). }
    rewrite length_np_slice; [done|lia..].
Qed.

Lemma at2_slice_2d {A} (h w : nat) (a : list (list A)) (y1 y2 x1 x2 : Z) y x :
  Py.has_shape2 h w a →
  (0 ≤ y1 ≤ y2)%Z → (y2 ≤ Z.of_nat h)%Z → (0 ≤ x1 ≤ x2)%Z → (x2 ≤ Z.of_nat w)%Z →
  (y < Z.to_nat (y2 - y1))%nat → (x < Z.to_nat (x2 - x1))%nat →
  Py.at2 (Scroll.slice_2d a y1 y2 x1 x2) y x =
  Py.at2 a (Z.to_nat y1 + y) (Z.to_nat x1 + x).
Proof.
  intros Hs Hy1 Hy2 Hx1 Hx2 Hy Hx. pose proof Hs as [Hlen Hall].
  unfold Py.at2, Scroll.slice_2d. rewrite list_lookup_fmap.
  rewrite lookup_np_slice by lia.
  destruct (a !! (Z.to_nat y1 + y)%nat) as [row|] eqn:Hrow; [|done]. simpl.
  assert (length row = w) as Hw by apply (has_shape2_lookup _ _ _ _ _ Hs Hrow).
  by rewrite lookup_np_slice by lia.
Qed.

Lemma length_splice {A} (l mid : list A) (lo : nat) :
  (lo + length mid ≤ length l)%nat →
  length (take lo l ++ mid ++ drop (lo + length mid) l) = length l.
Proof. intros Hle. rewrite !length_app, length_take, length_drop. lia. Qed.

Lemma lookup_splice {A} (l mid : list A) (lo k : nat) :
  (lo + length mid ≤ length l)%nat →
  (take lo l ++ mid ++ drop (lo + length mid) l) !! k =
  if decide (lo ≤ k < lo + length mid)%nat then mid !! (k - lo)%nat else l !! k.
Proof.
  intros Hle. destruct (decide (k < lo)%nat) as [Hk|Hk].
  - rewrite lookup_app_l by (rewrite length_take; lia).
    rewrite lookup_take_lt by done. destruct (decide _); [lia|done].
  - rewrite lookup_app_r by (rewrite length_take; lia).
    rewrite length_take, Nat.min_l by lia.
    destruct (decide (lo ≤ k < lo + length mid)%nat) as [Hin|Hout].
    + by rewrite lookup_app_l by lia.
    + rewrite lookup_app_r by lia. rewrite lookup_drop. f_equal. lia.
Qed.

Lemma assign_2d_spec {A} (h w : nat) (a src : list (list A)) (y1 y2 x1 x2 : Z) :
  Py.has_shape2 h w a →
  (0 ≤ y1 ≤ y2)%Z → (y2 ≤ Z.of_nat h)%Z → (0 ≤ x1 ≤ x2)%Z → (x2 ≤ Z.of_nat w)%Z →
  Py.has_shape2 (Z.to_nat (y2 - y1)) (Z.to_nat (x2 - x1)) src →
  ∃ a',
    Scroll.assign_2d a y1 y2 x1 x2 src = Some a'
    ∧ Py.has_shape2 h w a'
    ∧ ∀ r c,
        Py.at2 a' r c =
        if bool_decide ((y1 ≤ Z.of_nat r < y2)%Z ∧ (x1 ≤ Z.of_nat c < x2)%Z)
        then Py.at2 src (r - Z.to_nat y1) (c - Z.to_nat x1)
        else Py.at2 a r c.
Proof.
  intros Ha Hy1 Hy2 Hx1 Hx2 Hsrc.
  pose proof Ha as [Hlen Hall]. pose proof Hsrc as [Hslen Hsall].
  set (region := Scroll.np_slice a y1 y2).
  assert (length region = Z.to_nat (y2 - y1)) as Hrlen
    by (apply length_np_slice; lia).
  assert (∀ i row, region !! i = Some row →
            a !! (Z.to_nat y1 + i)%nat = Some row ∧ length row = w) as Hregion.
  { intros i row Hi. pose proof (lookup_lt_Some _ _ _ Hi) as Hlt.
    unfold region in Hi. rewrite lookup_np_slice in Hi by lia.
    split; [done|]. by apply (has_shape2_lookup _ _ _ _ _ Ha Hi). }
  assert (Forall2 (λ row srow, length (Scroll.np_slice row x1 x2) = length srow)
            region src) as Hshape.
  { apply Forall2_same_length_lookup. split; [lia|].
    intros i row srow Hrow Hsrow. destruct (Hregion _ _ Hrow) as [_ Hw].
    rewrite length_np_slice by lia.
    symmetry. by apply (has_shape2_lookup _ _ _ _ _ Hsrc Hsrow). }
  unfold Scroll.assign_2d. fold region.
  rewrite bool_decide_eq_true_2 by done.
  rewrite slice_bound_in_range by lia.
  set (mid := zip_with (λ row srow, Scroll.assign_row row x1 srow) region src).
  assert (length mid = length region) as Hmid.
  { unfold mid. rewrite length_zip_with. lia. }
  rewrite <-Hmid.
  assert (Z.to_nat y1 + length mid ≤ length a)%nat as Hfit by lia.
  assert (∀ i row', mid !! i = Some row' →
            ∃ row srow, a !! (Z.to_nat y1 + i)%nat = Some row
              ∧ src !! i = Some srow ∧ length row = w
              ∧ length srow = Z.to_nat (x2 - x1)
              ∧ row' = take (Z.to_nat x1) row ++ srow
                       ++ drop (Z.to_nat x1 + length srow) row) as Hmid_lookup.
  { intros i row' Hi. unfold mid in Hi.
    apply lookup_zip_with_Some in Hi as (row & srow & -> & Hrow & Hsrow).
    destruct (Hregion _ _ Hrow) as [Harow Hw].
    exists row, srow. repeat (split; [done|]).
    split; [by apply (has_shape2_lookup _ _ _ _ _ Hsrc Hsrow)|].
    unfold Scroll.assign_row. by rewrite slice_bound_in_range by lia. }
  eexists. split; [done|]. split.
  - split; [by rewrite length_splice|].
    apply Forall_lookup_2. intros r row' Hr.
    rewrite lookup_splice in Hr by done. destruct (decide _) as [Hin|Hout].
    + apply Hmid_lookup in Hr as (row & srow & _ & _ & Hw & Hsw & ->).
      rewrite length_splice; [done|lia].
    + by apply (has_shape2_lookup _ _ _ _ _ Ha Hr).
  - intros r c. unfold Py.at2 at 1. rewrite lookup_splice by done.
    destruct (decide (Z.to_nat y1 ≤ r < Z.to_nat y1 + length mid)%nat)
      as [Hin|Hout].
    + destruct (mid !! (r - Z.to_nat y1)%nat) as [row'|] eqn:Hrow'.
      2:{ apply lookup_ge_None in Hrow'. lia. }
      destruct (Hmid_lookup _ _ Hrow') as (row & srow & Hrow & Hsrow & Hw & Hsw & ->).
      replace (Z.to_nat y1 + (r - Z.to_nat y1))%nat with r in Hrow by lia.
      simpl. rewrite lookup_splice by lia.
      unfold Py.at2. rewrite Hsrow, Hrow. simpl.
      destruct (decide (Z.to_nat x1 ≤ c < Z.to_nat x1 + length srow)%nat).
      * rewrite bool_decide_eq_true_2; [done|lia].
      * rewrite bool_decide_eq_false_2; [done|lia].
    + rewrite bool_decide_eq_false_2; [done|lia].
Qed.

(** ** Slice assignment of the text block *)

Lemma at3_size_3d {A} (a : list (list (list A))) y x c v :
  Py.at3 a y x c = Some v → (0 < Scroll.size_3d a)%nat.
Proof.
  unfold Py.at3. intros Hv. destruct (Py.at2 a y x) as [px|] eqn:Hpx; [|done].
  simpl in Hv.
  assert (px ∈ concat a) as Hin by (apply elem_of_concat_at2; eauto).
  assert (v ∈ concat (concat a)) as Hin'.
  { apply list_elem_of_In, in_concat. exists px.
    split; apply list_elem_of_In; [done|]. by apply list_elem_of_lookup_2 in Hv. }
  unfold Scroll.size_3d. destruct (concat (concat a)); simpl; [|lia].
  by apply elem_of_nil in Hin'.
Qed.

Lemma text_img_h_shape (text : list (list (list Z))) (th tw : nat) :
  Py.has_shape2 th tw text → Scroll.text_img_h text = Z.of_nat th.
Proof. intros [<- _]. done. Qed.

Lemma text_img_w_shape (text : list (list (list Z))) (th tw : nat) :
  Py.has_shape2 th tw text → (0 < th)%nat → Scroll.text_img_w text = Z.of_nat tw.
Proof.
  intros [Hlen Hall] Hth. unfold Scroll.text_img_w.
  destruct text as [|row rest]; simpl in *; [lia|].
  apply Forall_cons in Hall as [<- _]. done.
Qed.

Lemma text_img_w_nonneg (text : list (list (list Z))) :
  (0 ≤ Scroll.text_img_w text)%Z.
Proof. unfold Scroll.text_img_w. destruct text; lia. Qed.

Lemma paste_canvas_spec cfg (text : list (list (list Z)))
    (th tw : nat) (current_y_pil_top : Z) :
  Py.has_shape3 th tw 4 text →
  let p := Scroll.place cfg text current_y_pil_top in
  let dst_x_offset_canvas :=
    ((Scroll.FRAME_WIDTH cfg - Scroll.text_img_w text) `div` 2)%Z in
  ∃ canvas,
      Scroll.temp_scrolled_text_canvas_bgra cfg text current_y_pil_top = Some canvas
      ∧ Py.has_shape3 (Z.to_nat (Scroll.FRAME_HEIGHT cfg))
          (Z.to_nat (Scroll.FRAME_WIDTH cfg)) 4 canvas
      ∧ ∀ r c : nat,
          (r < Z.to_nat (Scroll.FRAME_HEIGHT cfg))%nat →
          (c < Z.to_nat (Scroll.FRAME_WIDTH cfg))%nat →
          Py.at2 canvas r c =
          if bool_decide ((Scroll.eff_dst_y1 p ≤ Z.of_nat r < Scroll.eff_dst_y2 p)%Z
                          ∧ (Scroll.eff_dst_x1 p ≤ Z.of_nat c < Scroll.eff_dst_x2 p)%Z)
          then Py.at2 text (Z.to_nat (Z.of_nat r - current_y_pil_top))
                 (Z.to_nat (Z.of_nat c - dst_x_offset_canvas))
          else Some [0; 0; 0; 0]%Z.
Proof.
  intros Htext p xoff.
  apply has_shape3_shape2 in Htext as [Htext Hpx].
  pose proof (text_img_h_shape _ _ _ Htext) as Hth.
  pose proof (text_img_w_nonneg text) as Htw0.
  set (FH := Scroll.FRAME_HEIGHT cfg). set (FW := Scroll.FRAME_WIDTH cfg).
  assert (Scroll.eff_dst_y1 p = Z.max 0 current_y_pil_top) as Hd1 by done.
  assert (Scroll.eff_dst_y2 p = Z.min FH (current_y_pil_top + Scroll.text_img_h text))
    as Hd2 by done.
  assert (Scroll.eff_dst_x1 p = Z.max 0 xoff) as Hdx1 by done.
  assert (Scroll.eff_dst_x2 p = Z.min FW (xoff + Scroll.text_img_w text))
    as Hdx2 by done.
  assert (Scroll.eff_src_y1_text_img p = Scroll.eff_dst_y1 p - current_y_pil_top)%Z
    as Hs1 by (simpl; lia).
  assert (Scroll.eff_src_y2_text_img p = Scroll.eff_dst_y2 p - current_y_pil_top)%Z
    as Hs2 by (simpl; lia).
  assert (Scroll.eff_src_x1_text_img p = Scroll.eff_dst_x1 p - xoff)%Z
    as Hsx1 by (simpl; fold xoff; lia).
  assert (Scroll.eff_src_x2_text_img p = Scroll.eff_dst_x2 p - xoff)%Z
    as Hsx2 by (simpl; fold xoff; lia).
  set (canvas0 := Scroll.zeros_bgra FH FW).
  assert (Py.has_shape2 (Z.to_nat FH) (Z.to_nat FW) canvas0) as Hc0
    by apply has_shape2_replicate.
  assert (∀ r c, (r < Z.to_nat FH)%nat → (c < Z.to_nat FW)%nat →
            Py.at2 canvas0 r c = Some [0; 0; 0; 0]%Z) as Hzero
    by (intros; by apply at2_replicate).
  unfold Scroll.temp_scrolled_text_canvas_bgra. fold p FH FW canvas0.
  destruct (Scroll.pastes p) eqn:Hpastes.
  2:{ exists canvas0. split; [done|]. split.
      - apply has_shape3_shape2. split; [done|]. intros r c px Hrc.
        unfold canvas0, Scroll.zeros_bgra, Py.at2 in Hrc.
        destruct (replicate _ _ !! r) as [row|] eqn:Hrow; [|done].
        apply lookup_replicate in Hrow as [-> _]. simpl in Hrc.
        by apply lookup_replicate in Hrc as [-> _].
      - intros r c Hr Hc. rewrite Hzero by done.
        rewrite bool_decide_eq_false_2; [done|].
        intros [Hy Hx]. unfold Scroll.pastes in Hpastes.
        rewrite !bool_decide_eq_true_2 in Hpastes; [done|lia..]. }
  unfold Scroll.pastes in Hpastes.
  apply andb_true_iff in Hpastes as [Hpastes G4].
  apply andb_true_iff in Hpastes as [Hpastes G3].
  apply andb_true_iff in Hpastes as [G1 G2].
  apply bool_decide_eq_true in G1, G2, G3, G4.
  assert (0 < th)%nat as Hth_pos by lia.
  pose proof (text_img_w_shape _ _ _ Htext Hth_pos) as Htw.
  set (src := Scroll.slice_2d text _ _ _ _).
  assert (Py.has_shape2
            (Z.to_nat (Scroll.eff_dst_y2 p - Scroll.eff_dst_y1 p))
            (Z.to_nat (Scroll.eff_dst_x2 p - Scroll.eff_dst_x1 p)) src) as Hsrc.
  { replace (Scroll.eff_dst_y2 p - Scroll.eff_dst_y1 p)%Z
      with (Scroll.eff_src_y2_text_img p - Scroll.eff_src_y1_text_img p)%Z by lia.
    replace (Scroll.eff_dst_x2 p - Scroll.eff_dst_x1 p)%Z
      with (Scroll.eff_src_x2_text_img p - Scroll.eff_src_x1_text_img p)%Z by lia.
    apply (has_shape2_slice_2d th tw); [done|lia..]. }
  assert (∀ i j,
            (i < Z.to_nat (Scroll.eff_dst_y2 p - Scroll.eff_dst_y1 p))%nat →
            (j < Z.to_nat (Scroll.eff_dst_x2 p - Scroll.eff_dst_x1 p))%nat →
            Py.at2 src i j =
            Py.at2 text (Z.to_nat (Scroll.eff_src_y1_text_img p) + i)
              (Z.to_nat (Scroll.eff_src_x1_text_img p) + j)) as Hsrc_at.
  { intros i j Hi Hj. apply (at2_slice_2d th tw); [done|lia..]. }
  assert (0 < Scroll.size_3d src)%nat as Hsize.
  { destruct (has_shape2_at2 _ _ _ 0 0 Hsrc) as [px Hpx0]; [lia..|].
    pose proof Hpx0 as Hpx1. rewrite Hsrc_at in Hpx1 by lia.
    apply Hpx in Hpx1.
    destruct (lookup_lt_is_Some_2 px 0) as [v Hv]; [lia|].
    apply (at3_size_3d src 0 0 0 v). unfold Py.at3. by rewrite Hpx0. }
  rewrite bool_decide_eq_true_2 by done.
  destruct (assign_2d_spec (Z.to_nat FH) (Z.to_nat FW) canvas0 src
              (Scroll.eff_dst_y1 p) (Scroll.eff_dst_y2 p)
              (Scroll.eff_dst_x1 p) (Scroll.eff_dst_x2 p))
    as (canvas & Hassign & Hshape & Hat); [done|lia..|done|].
  exists canvas. split; [done|].
  assert (∀ r c : nat,
            (r < Z.to_nat FH)%nat → (c < Z.to_nat FW)%nat →
            Py.at2 canvas r c =
            if bool_decide ((Scroll.eff_dst_y1 p ≤ Z.of_nat r < Scroll.eff_dst_y2 p)%Z
                            ∧ (Scroll.eff_dst_x1 p ≤ Z.of_nat c < Scroll.eff_dst_x2 p)%Z)
            then Py.at2 text (Z.to_nat (Z.of_nat r - current_y_pil_top))
                   (Z.to_nat (Z.of_nat c - xoff))
            else Some [0; 0; 0; 0]%Z) as Hcanvas.
  { intros r c Hr Hc. rewrite Hat. destruct (bool_decide _) eqn:Hin.
    - apply bool_decide_eq_true in Hin as [Hy Hx].
      rewrite Hsrc_at by lia. f_equal; lia.
    - by apply Hzero. }
  split; [|done].
  apply has_shape3_shape2. split; [done|]. intros r c px Hrc.
  assert (r < Z.to_nat FH ∧ c < Z.to_nat FW)%nat as [Hr Hc].
  { unfold Py.at2 in Hrc. destruct (canvas !! r) as [row|] eqn:Hrow; [|done].
    pose proof (lookup_lt_Some _ _ _ Hrow) as Hlt.
    pose proof (has_shape2_lookup _ _ _ _ _ Hshape Hrow) as Hw.
    simpl in Hrc. apply lookup_lt_Some in Hrc. destruct Hshape. lia. }
  rewrite Hcanvas in Hrc by done. destruct (bool_decide _).
  - by apply Hpx in Hrc.
  - by injection Hrc as <-.
Qed.

Lemma paste_is_Some cfg (text : list (list (list Z))) (th tw : nat) (y : Z) :
  Py.has_shape3 th tw 4 text →
  is_Some (Scroll.temp_scrolled_text_canvas_bgra cfg text y).
Proof.
  intros Htext.
  destruct (paste_canvas_spec cfg text th tw y Htext) as (canvas & -> & _). done.
Qed.

(** ** Maps over arrays *)

Lemma map_2d_ext_shape {A B} (f g : A → B) (P : A → Prop) (a : list (list A)) :
  Forall (Forall P) a → (∀ v, P v → f v = g v) → Py.map_2d f a = Py.map_2d g a.
Proof.
  intros Hall Hfg. unfold Py.map_2d.
  apply Forall_fmap_ext_1. eapply Forall_impl; [exact Hall|].
  intros row Hrow. simpl. apply Forall_fmap_ext_1.
  eapply Forall_impl; [exact Hrow|]. done.
Qed.

Lemma map_2d_compose {A B C} (f : A → B) (g : B → C) (a : list (list A)) :
  Py.map_2d g (Py.map_2d f a) = Py.map_2d (g ∘ f) a.
Proof.
  unfold Py.map_2d. rewrite <-list_fmap_compose. apply list_fmap_ext.
  intros _ row _. simpl. by rewrite <-list_fmap_compose.
Qed.

(** ** Arrays of one shape, and the blends *)

Lemma has_shape3_at3 {A} (h w c : nat) (a : list (list (list A))) y x k :
  Py.has_shape3 h w c a → (y < h)%nat → (x < w)%nat → (k < c)%nat →
  is_Some (Py.at3 a y x k).
Proof.
  intros Hs Hy Hx Hk. apply has_shape3_shape2 in Hs as [Hs Hpx].
  destruct (has_shape2_at2 _ _ _ y x Hs Hy Hx) as [px Hyx].
  unfold Py.at3. rewrite Hyx. simpl. apply lookup_lt_is_Some_2.
  by rewrite (Hpx _ _ _ Hyx).
Qed.

Lemma at2_lt {A} (h w : nat) (a : list (list A)) y x v :
  Py.has_shape2 h w a → Py.at2 a y x = Some v → (y < h)%nat ∧ (x < w)%nat.
Proof.
  intros Hs Hv. unfold Py.at2 in Hv.
  destruct (a !! y) as [row|] eqn:Hrow; [|done]. simpl in Hv.
  pose proof (has_shape2_lookup _ _ _ _ _ Hs Hrow).
  apply lookup_lt_Some in Hrow, Hv. destruct Hs. lia.
Qed.

Lemma array_2d_ext {A} (h w : nat) (a b : list (list A)) :
  Py.has_shape2 h w a → Py.has_shape2 h w b →
  (∀ y x, Py.at2 a y x = Py.at2 b y x) → a = b.
Proof.
  intros Ha Hb Hext. apply list_eq. intros y.
  destruct (a !! y) as [ra|] eqn:Hra, (b !! y) as [rb|] eqn:Hrb.
  - f_equal. apply list_eq. intros x. specialize (Hext y x).
    unfold Py.at2 in Hext. by rewrite Hra, Hrb in Hext.
  - apply lookup_lt_Some in Hra. apply lookup_ge_None in Hrb.
    destruct Ha, Hb. lia.
  - apply lookup_lt_Some in Hrb. apply lookup_ge_None in Hra.
    destruct Ha, Hb. lia.
  - done.
Qed.

Lemma array_3d_ext {A} (h w c : nat) (a b : list (list (list A))) :
  Py.has_shape3 h w c a → Py.has_shape3 h w c b →
  (∀ y x k, Py.at3 a y x k = Py.at3 b y x k) → a = b.
Proof.
  intros Ha Hb Hext.
  apply has_shape3_shape2 in Ha as [Ha Hpa].
  apply has_shape3_shape2 in Hb as [Hb Hpb].
  apply (array_2d_ext h w); [done..|]. intros y x.
  destruct (Py.at2 a y x) as [pa|] eqn:Hya, (Py.at2 b y x) as [pb|] eqn:Hyb.
  - f_equal. apply list_eq. intros k. specialize (Hext y x k).
    unfold Py.at3 in Hext. by rewrite Hya, Hyb in Hext.
  - destruct (at2_lt _ _ _ _ _ _ Ha Hya) as [Hy Hx].
    destruct (has_shape2_at2 _ _ _ y x Hb Hy Hx) as [? Hsome]. congruence.
  - destruct (at2_lt _ _ _ _ _ _ Hb Hyb) as [Hy Hx].
    destruct (has_shape2_at2 _ _ _ y x Ha Hy Hx) as [? Hsome]. congruence.
  - done.
Qed.

Lemma has_shape2_zip_2d {A B C} (f : A → B → C) (h w : nat) a b :
  Py.has_shape2 h w a → Py.has_shape2 h w b → Py.has_shape2 h w (Py.zip_2d f a b).
Proof.
  intros Ha Hb. pose proof Ha as [Hla _]. pose proof Hb as [Hlb _].
  unfold Py.zip_2d. split; [rewrite length_zip_with; lia|].
  apply Forall_lookup_2. intros y row Hrow.
  apply lookup_zip_with_Some in Hrow as (ra & rb & -> & Hra & Hrb).
  rewrite length_zip_with.
  rewrite (has_shape2_lookup _ _ _ _ _ Ha Hra), (has_shape2_lookup _ _ _ _ _ Hb Hrb).
  lia.
Qed.

Lemma has_shape2_map_2d {A B} (f : A → B) (h w : nat) a :
  Py.has_shape2 h w a → Py.has_shape2 h w (Py.map_2d f a).
Proof.
  intros Ha. pose proof Ha as [Hla _]. unfold Py.map_2d.
  split; [by rewrite length_fmap|].
  apply Forall_lookup_2. intros y row Hrow. rewrite list_lookup_fmap in Hrow.
  destruct (a !! y) as [ra|] eqn:Hra; [|done]. simpl in Hrow.
  injection Hrow as <-. rewrite length_fmap.
  by apply (has_shape2_lookup _ _ _ _ _ Ha Hra).
Qed.

Lemma has_shape3_zip_3d {A B C} (f : A → B → C) (h w c : nat) a b :
  Py.has_shape3 h w c a → Py.has_shape3 h w c b →
  Py.has_shape3 h w c (Py.zip_3d f a b).
Proof.
  intros Ha Hb.
  apply has_shape3_shape2 in Ha as [Ha Hpa].
  apply has_shape3_shape2 in Hb as [Hb Hpb].
  apply has_shape3_shape2. split.
  - by apply (has_shape2_zip_2d (zip_with f)).
  - intros y x px Hpx. change (Py.zip_3d f a b) with (Py.zip_2d (zip_with f) a b) in Hpx.
    rewrite at2_zip_2d in Hpx.
    destruct (Py.at2 a y x) as [pa|] eqn:Hya; [|done]. simpl in Hpx.
    destruct (Py.at2 b y x) as [pb|] eqn:Hyb; [|done]. simpl in Hpx.
    injection Hpx as <-. rewrite length_zip_with.
    rewrite (Hpa _ _ _ Hya), (Hpb _ _ _ Hyb). lia.
Qed.

Lemma has_shape3_map_3d {A B} (f : A → B) (h w c : nat) a :
  Py.has_shape3 h w c a → Py.has_shape3 h w c (Py.map_3d f a).
Proof.
  intros Ha. apply has_shape3_shape2 in Ha as [Ha Hpa].
  apply has_shape3_shape2. split.
  - by apply (has_shape2_map_2d (fmap f)).
  - intros y x px Hpx. change (Py.map_3d f a) with (Py.map_2d (fmap f) a) in Hpx.
    rewrite at2_map_2d in Hpx.
    destruct (Py.at2 a y x) as [pa|] eqn:Hya; [|done]. simpl in Hpx.
    injection Hpx as <-. rewrite length_fmap. by apply (Hpa _ _ _ Hya).
Qed.

Lemma has_shape3_full_3d {A} (h w c : nat) (v : A) :
  Py.has_shape3 h w c (Py.full_3d h w c v).
Proof.
  apply has_shape3_shape2. split; [apply has_shape2_replicate|].
  intros y x px Hpx. unfold Py.full_3d, Py.at2 in Hpx.
  destruct (replicate _ _ !! y) as [row|] eqn:Hrow; [|done].
  apply lookup_replicate in Hrow as [-> _]. simpl in Hpx.
  apply lookup_replicate in Hpx as [-> _]. by rewrite length_replicate.
Qed.

Lemma at3_full_3d {A} (h w c : nat) (v u : A) y x k :
  Py.at3 (Py.full_3d h w c v) y x k = Some u → u = v.
Proof.
  unfold Py.at3, Py.at2, Py.full_3d. intros Hu.
  destruct (replicate _ _ !! y) as [row|] eqn:Hrow; [|done].
  apply lookup_replicate in Hrow as [-> _]. simpl in Hu.
  destruct (replicate _ _ !! x) as [px|] eqn:Hpx; [|done].
  apply lookup_replicate in Hpx as [-> _]. simpl in Hu.
  by apply lookup_replicate in Hu as [-> _].
Qed.

Lemma shine_composite_constant (h w : nat) (shine base : list (list (list R)))
    (m : R) :
  Py.has_shape3 h w 3 shine → Py.has_shape3 h w 3 base →
  Py.has_shape3 h w 3 (Shine.composite shine (Py.full_3d h w 3 m) base)
  ∧ ∀ y x k,
      Py.at3 (Shine.composite shine (Py.full_3d h w 3 m) base) y x k =
      Py.at3 shine y x k ≫= λ s, Py.at3 base y x k ≫= λ b,
      Some (s * m + b * (1 - m)).
Proof.
  intros Hshine Hbase. pose proof (has_shape3_full_3d h w 3 m) as Hfull. split.
  - unfold Shine.composite.
    repeat (apply has_shape3_zip_3d || apply has_shape3_map_3d); done.
  - intros y x k. rewrite at3_composite.
    destruct (Py.at3 shine y x k) as [s|] eqn:Hs; [|done]. simpl.
    destruct (Py.at3 (Py.full_3d h w 3 m) y x k) as [a|] eqn:Ha.
    + apply at3_full_3d in Ha as ->. done.
    + apply has_shape3_shape2 in Hshine as [Hshine Hpx].
      unfold Py.at3 in Hs. destruct (Py.at2 shine y x) as [px|] eqn:Hyx; [|done].
      simpl in Hs. destruct (at2_lt _ _ _ _ _ _ Hshine Hyx) as [Hy Hx].
      apply lookup_lt_Some in Hs. rewrite (Hpx _ _ _ Hyx) in Hs.
      destruct (has_shape3_at3 _ _ _ _ y x k Hfull Hy Hx Hs). congruence.
Qed.

Lemma shine_composite_zero_mask (h w : nat) (shine base : list (list (list R))) :
  Py.has_shape3 h w 3 shine → Py.has_shape3 h w 3 base →
  Shine.composite shine (Py.full_3d h w 3 0) base = base.
Proof.
  intros Hshine Hbase.
  destruct (shine_composite_constant h w shine base 0) as [Hs Hat]; [done..|].
  apply (array_3d_ext h w 3); [done..|]. intros y x k. rewrite Hat.
  destruct (Py.at3 base y x k) as [b|] eqn:Hb.
  - unfold Py.at3 in Hb. destruct (Py.at2 base y x) as [px|] eqn:Hyx; [|done].
    simpl in Hb. apply has_shape3_shape2 in Hbase as [Hbase Hpx].
    destruct (at2_lt _ _ _ _ _ _ Hbase Hyx) as [Hy Hx].
    apply lookup_lt_Some in Hb. rewrite (Hpx _ _ _ Hyx) in Hb.
    destruct (has_shape3_at3 _ _ _ _ y x k Hshine Hy Hx Hb) as [s ->].
    simpl. f_equal. lra.
  - by destruct (Py.at3 shine y x k).
Qed.

Lemma shine_composite_one_mask (h w : nat) (shine base : list (list (list R))) :
  Py.has_shape3 h w 3 shine → Py.has_shape3 h w 3 base →
  Shine.composite shine (Py.full_3d h w 3 1) base = shine.
Proof.
  intros Hshine Hbase.
  destruct (shine_composite_constant h w shine base 1) as [Hs Hat]; [done..|].
  apply (array_3d_ext h w 3); [done..|]. intros y x k. rewrite Hat.
  destruct (Py.at3 shine y x k) as [s|] eqn:Hsh; [|done].
  unfold Py.at3 in Hsh. destruct (Py.at2 shine y x) as [px|] eqn:Hyx; [|done].
  simpl in Hsh. apply has_shape3_shape2 in Hshine as [Hshine Hpx].
  destruct (at2_lt _ _ _ _ _ _ Hshine Hyx) as [Hy Hx].
  apply lookup_lt_Some in Hsh. rewrite (Hpx _ _ _ Hyx) in Hsh.
  destruct (has_shape3_at3 _ _ _ _ y x k Hbase Hy Hx Hsh) as [b ->].
  simpl. f_equal. lra.
Qed.

Lemma astype_uint8_IZR (v : Z) : Py.is_uint8 v → Py.astype_uint8 (IZR v) = v.
Proof.
  intros Hv. unfold Py.astype_uint8. rewrite int_IZR. by apply Z.mod_small.
Qed.

Lemma at2_channel (k : nat) (a : list (list (list Z))) y x :
  Py.at2 (Scroll.channel k a) y x = (λ px, nth k px 0%Z) <$> Py.at2 a y x.
Proof. unfold Scroll.channel. by rewrite at2_map_2d. Qed.

Lemma at2_blend_channel (k : nat) (final_frame_bgr : list (list (list Z)))
    (scrolled : list (list Z)) (combined_alpha : list (list R)) y x :
  Py.at2 (Scroll.blend_channel k final_frame_bgr scrolled combined_alpha) y x =
  Py.at2 final_frame_bgr y x ≫= λ px,
  Py.at2 scrolled y x ≫= λ fg,
  Py.at2 combined_alpha y x ≫= λ a,
  Some (<[k := Py.astype_uint8 (IZR (nth k px 0%Z) * (1 - a) + IZR fg * a)]> px).
Proof.
  unfold Scroll.blend_channel, Scroll.set_channel.
  rewrite !at2_zip_2d, !at2_map_2d, at2_channel.
  destruct (Py.at2 final_frame_bgr y x), (Py.at2 scrolled y x),
    (Py.at2 combined_alpha y x); done.
Qed.

Lemma has_shape2_blend_channel (h w k : nat) final_frame_bgr scrolled combined_alpha :
  Py.has_shape2 h w final_frame_bgr → Py.has_shape2 h w scrolled →
  Py.has_shape2 h w combined_alpha →
  Py.has_shape2 h w (Scroll.blend_channel k final_frame_bgr scrolled combined_alpha).
Proof.
  intros Hf Hs Ha. unfold Scroll.blend_channel, Scroll.set_channel, Scroll.channel.
  repeat (apply has_shape2_zip_2d || apply has_shape2_map_2d); done.
Qed.

Lemma at2_full_2d {A} (h w : nat) (v u : A) y x :
  Py.at2 (Py.full_2d h w v) y x = Some u → u = v.
Proof.
  unfold Py.at2, Py.full_2d. intros Hu.
  destruct (replicate _ _ !! y) as [row|] eqn:Hrow; [|done].
  apply lookup_replicate in Hrow as [-> _]. simpl in Hu.
  by apply lookup_replicate in Hu as [-> _].
Qed.

Lemma all_uint8_at2 (a : list (list (list Z))) y x px :
  Py.all_uint8 a → Py.at2 a y x = Some px → Forall Py.is_uint8 px.
Proof.
  intros Hall Hpx. unfold Py.at2 in Hpx.
  destruct (a !! y) as [row|] eqn:Hrow; [|done]. simpl in Hpx.
  pose proof (Forall_lookup_1 _ _ _ _ Hall Hrow) as Hr.
  by apply (Forall_lookup_1 _ _ _ _ Hr Hpx).
Qed.

(** The pixel the scroll composite produces through a constant alpha. *)
Lemma scroll_composite_constant (h w : nat) (bg canvas : list (list (list Z)))
    (m : R) :
  Py.has_shape3 h w 3 bg → Py.has_shape3 h w 4 canvas →
  Py.has_shape2 h w (Scroll.composite bg canvas (Py.full_2d h w m))
  ∧ ∀ y x b g r cb cg cr ca,
      Py.at2 bg y x = Some [b; g; r] → Py.at2 canvas y x = Some [cb; cg; cr; ca] →
      Py.at2 (Scroll.composite bg canvas (Py.full_2d h w m)) y x =
      Some [Py.astype_uint8 (IZR b * (1 - m) + IZR cb * m);
            Py.astype_uint8 (IZR g * (1 - m) + IZR cg * m);
            Py.astype_uint8 (IZR r * (1 - m) + IZR cr * m)].
Proof.
  intros Hbg Hcanvas.
  apply has_shape3_shape2 in Hbg as [Hbg Hbpx].
  apply has_shape3_shape2 in Hcanvas as [Hcanvas Hcpx].
  pose proof (has_shape2_replicate h w m) as Hfull. split.
  - unfold Scroll.composite.
    repeat (apply has_shape2_blend_channel
            || (unfold Scroll.channel; apply has_shape2_map_2d)); done.
  - intros y x b g r cb cg cr ca Hb Hc.
    destruct (at2_lt _ _ _ _ _ _ Hbg Hb) as [Hy Hx].
    destruct (has_shape2_at2 _ _ _ y x Hfull Hy Hx) as [a Ha].
    pose proof Ha as Hm. apply at2_full_2d in Hm as ->.
    unfold Scroll.composite.
    rewrite !at2_blend_channel, !at2_channel, Hb, Hc.
    change (Py.at2 (Py.full_2d h w m) y x) with
      (Py.at2 (replicate h (replicate w m)) y x). rewrite Ha. done.
Qed.

Lemma at2_full_2d_lt {A} (h w : nat) (v : A) y x :
  (y < h)%nat → (x < w)%nat → Py.at2 (Py.full_2d h w v) y x = Some v.
Proof. intros. by apply at2_replicate. Qed.

Lemma has_shape2_full_2d {A} (h w : nat) (v : A) :
  Py.has_shape2 h w (Py.full_2d h w v).
Proof. apply has_shape2_replicate. Qed.

(** A Gaussian mask that is 0 everywhere gives a shine alpha that is 0
    everywhere (lines 136-137). *)
Lemma zero_gauss_mask_alpha (h w : nat) (icon_alpha : list (list R)) :
  Py.has_shape2 h w icon_alpha →
  Py.stack3 (Py.zip_2d Rmult (Py.full_2d h w 0) icon_alpha) = Py.full_3d h w 3 0.
Proof.
  intros Hia. pose proof (has_shape2_full_2d h w 0) as Hz.
  assert (Py.zip_2d Rmult (Py.full_2d h w 0) icon_alpha = Py.full_2d h w 0) as ->.
  { apply (array_2d_ext h w); [by apply has_shape2_zip_2d|done|].
    intros y x. rewrite at2_zip_2d.
    destruct (Py.at2 (Py.full_2d h w 0) y x) as [z|] eqn:Hzyx; [|done].
    pose proof Hzyx as Hzero. apply at2_full_2d in Hzero as ->.
    destruct (at2_lt _ _ _ _ _ _ Hz Hzyx) as [Hy Hx].
    destruct (has_shape2_at2 _ _ _ y x Hia Hy Hx) as [v ->]. simpl.
    f_equal. lra. }
  unfold Py.stack3, Py.full_2d, Py.full_3d, Py.map_2d.
  rewrite fmap_replicate. f_equal. by rewrite fmap_replicate.
Qed.

(** A feathered mask that is 0 everywhere gives a combined alpha that is 0
    everywhere (lines 250-252). *)
Lemma zero_feathered_mask_alpha (h w : nat) (canvas : list (list (list Z))) :
  Py.has_shape3 h w 4 canvas →
  Scroll.combined_alpha canvas (Py.full_3d h w 1 0) = Py.full_2d h w 0.
Proof.
  intros Hcanvas. apply has_shape3_shape2 in Hcanvas as [Hcanvas _].
  pose proof (has_shape2_full_2d h w 0) as Hz.
  assert (Py.map_2d (λ px : list R, nth 0 px 0) (Py.full_3d h w 1 0)
          = Py.full_2d h w 0) as Hmask.
  { unfold Py.full_2d, Py.full_3d, Py.map_2d.
    rewrite fmap_replicate. f_equal. by rewrite fmap_replicate. }
  unfold Scroll.combined_alpha. rewrite Hmask.
  apply (array_2d_ext h w); [|done|].
  { apply has_shape2_zip_2d; [|done]. unfold Scroll.channel.
    by repeat apply has_shape2_map_2d. }
  intros y x. rewrite at2_zip_2d, at2_map_2d, at2_channel.
  destruct (Py.at2 (Py.full_2d h w 0) y x) as [z|] eqn:Hzyx.
  - pose proof Hzyx as Hzero. apply at2_full_2d in Hzero as ->.
    destruct (at2_lt _ _ _ _ _ _ Hz Hzyx) as [Hy Hx].
    destruct (has_shape2_at2 _ _ _ y x Hcanvas Hy Hx) as [px ->]. simpl.
    f_equal. lra.
  - by destruct (Py.at2 canvas y x).
Qed.

(** ** The band of the mask and the frame loop *)

Lemma at2_rectangle (img : list (list Z)) (pt1 pt2 : Z * Z) (color : Z) r c :
  Py.at2 (Scroll.rectangle img pt1 pt2 color) r c =
  (λ v, if Scroll.in_rectangle pt1 pt2 r c then color else v) <$> Py.at2 img r c.
Proof.
  unfold Py.at2, Scroll.rectangle. rewrite list_lookup_imap.
  destruct (img !! r) as [row|]; simpl; [|done]. by rewrite list_lookup_imap.
Qed.

Lemma has_shape2_rectangle (h w : nat) (img : list (list Z)) pt1 pt2 color :
  Py.has_shape2 h w img → Py.has_shape2 h w (Scroll.rectangle img pt1 pt2 color).
Proof.
  intros Himg. pose proof Himg as [Hlen _]. unfold Scroll.rectangle.
  split; [by rewrite length_imap|].
  apply Forall_lookup_2. intros r row Hrow. rewrite list_lookup_imap in Hrow.
  destruct (img !! r) as [row0|] eqn:Hrow0; [|done]. simpl in Hrow.
  injection Hrow as <-. rewrite length_imap.
  by apply (has_shape2_lookup _ _ _ _ _ Himg Hrow0).
Qed.

Lemma strip_band_spec (frame_w frame_h strip_top strip_bottom : Z) :
  (strip_top ≤ strip_bottom)%Z →
  let band :=
    Scroll.rectangle (Scroll.zeros_2d frame_h frame_w)
      (0%Z, strip_top) (frame_w, strip_bottom) 255 in
  Py.has_shape2 (Z.to_nat frame_h) (Z.to_nat frame_w) band
  ∧ ∀ r c : nat,
      (r < Z.to_nat frame_h)%nat → (c < Z.to_nat frame_w)%nat →
      Py.at2 band r c =
      Some (if bool_decide (strip_top ≤ Z.of_nat r ≤ strip_bottom)%Z
            then 255%Z else 0%Z).
Proof.
  intros Hle band. split.
  - apply has_shape2_rectangle, has_shape2_replicate.
  - intros r c Hr Hc. unfold band. rewrite at2_rectangle.
    unfold Scroll.zeros_2d. rewrite at2_replicate by done. simpl.
    unfold Scroll.in_rectangle. simpl.
    rewrite (bool_decide_eq_true_2 (Z.min 0 frame_w ≤ _ ≤ _)%Z) by lia.
    rewrite andb_true_r. f_equal.
    destruct (bool_decide (strip_top ≤ Z.of_nat r ≤ strip_bottom)%Z) eqn:E.
    + apply bool_decide_eq_true in E. rewrite bool_decide_eq_true_2; [done|lia].
    + apply bool_decide_eq_false in E. rewrite bool_decide_eq_false_2; [done|lia].
Qed.

Lemma main_frames GaussianBlur cfg text s_actual_h text_block_rendered_height
    frames (k : nat) frame :
  Scroll.main GaussianBlur cfg text s_actual_h text_block_rendered_height
  = Some frames →
  frames !! k = Some frame →
  Scroll.render_frame cfg text s_actual_h text_block_rendered_height
    (Scroll.feathered_mask_normalized GaussianBlur cfg) (Z.of_nat k) = Some frame.
Proof.
  intros Hmain Hk. unfold Scroll.main in Hmain. apply mapM_Some_1 in Hmain.
  destruct (Forall2_lookup_r _ _ _ _ _ Hmain Hk) as (i & Hi & Hframe).
  apply lookup_range in Hi as [-> _]. simpl in Hframe.
  destruct (Scroll.render_frame _ _ _ _ _ _) as [frame'|]; [|done].
  simpl in Hframe. destruct (Scroll.report_due cfg _); [|done].
  simpl in Hframe. by injection Hframe as ->.
Qed.

(** ** The runs return their frames *)

Lemma has_shape2_sweep_map cfg (W H : nat) :
  Py.has_shape2 H W (Shine.sweep_map cfg W H).
Proof.
  unfold Shine.sweep_map. apply has_shape2_zip_2d; apply has_shape2_map_2d.
  - unfold Shine.meshgrid_xx. split; [by rewrite length_replicate|].
    apply Forall_lookup_2. intros y row Hrow.
    apply lookup_replicate in Hrow as [-> _].
    by rewrite length_fmap, length_seq.
  - unfold Shine.meshgrid_yy. split; [by rewrite length_fmap, length_seq|].
    apply Forall_lookup_2. intros y row Hrow. rewrite list_lookup_fmap in Hrow.
    destruct (seq 0 H !! y); [|done]. simpl in Hrow. injection Hrow as <-.
    by rewrite length_replicate.
Qed.

Lemma at2_sweep_map_inv cfg (W H y x : nat) (m : R) :
  Py.at2 (Shine.sweep_map cfg W H) y x = Some m →
  (y < H)%nat ∧ (x < W)%nat
  ∧ m = Spec.sweep_map_at (Shine.SHINE_ANGLE_DEG cfg) x y.
Proof.
  intros Hm.
  destruct (at2_lt _ _ _ _ _ _ (has_shape2_sweep_map cfg W H) Hm) as [Hy Hx].
  rewrite at2_sweep_map in Hm by done. injection Hm as <-. done.
Qed.

Lemma sweep_range_is_Some cfg (W H : nat) :
  (0 < W)%nat → (0 < H)%nat → is_Some (Shine.sweep_range cfg W H).
Proof.
  intros HW HH.
  pose proof (at2_sweep_map cfg W H 0 0 HH HW) as H00.
  destruct (np_min_max_is_Some _ _ _ _ H00) as [[map_min Hmin] [map_max Hmax]].
  unfold Shine.sweep_range. rewrite Hmin, Hmax. done.
Qed.

Lemma add_default_alpha_extent (channels : nat) (a : list (list (list Z))) :
  ∃ icon,
    Shine.add_default_alpha (Shine.Color3D channels a) = Some icon
    ∧ Shine.icon_H icon = Shine.icon_H a ∧ Shine.icon_W icon = Shine.icon_W a.
Proof.
  unfold Shine.add_default_alpha. simpl. destruct (decide (channels = 3%nat)).
  - eexists. split; [done|]. unfold Shine.cvtColor_BGR2BGRA, Py.map_2d.
    split.
    + unfold Shine.icon_H. by rewrite !length_fmap.
    + destruct a as [|row rest]; [done|]. simpl. by rewrite !length_fmap.
  - by exists a.
Qed.

Lemma sweep_range_is_None cfg (W H : nat) :
  W = 0%nat ∨ H = 0%nat → Shine.sweep_range cfg W H = None.
Proof.
  intros Hempty.
  destruct (Shine.sweep_range cfg W H) as [[s e]|] eqn:Hrange; [|done].
  unfold Shine.sweep_range in Hrange.
  destruct (Py.np_min (Shine.sweep_map cfg W H)) as [map_min|] eqn:Hmin; [|done].
  unfold Py.np_min in Hmin.
  destruct (concat (Shine.sweep_map cfg W H)) as [|v vs] eqn:Hflat; [done|].
  assert (v ∈ concat (Shine.sweep_map cfg W H)) as Hv
    by (rewrite Hflat; apply list_elem_of_here).
  apply elem_of_concat_at2 in Hv as (y & x & Hyx).
  apply at2_sweep_map_inv in Hyx as (Hy & Hx & _). lia.
Qed.

Lemma alpha_channel_present (channels : nat) (a : list (list (list Z))) :
  (3 ≤ channels)%nat →
  Shine.alpha_channel_missing (Shine.Color3D channels a) = false.
Proof.
  intros Hch. unfold Shine.alpha_channel_missing, Shine.icon_channels. simpl.
  destruct (decide (channels = 3%nat)); apply bool_decide_eq_false_2; lia.
Qed.

Lemma create_shine_animation_colour max_lightness cfg (channels : nat)
    (a icon : list (list (list Z))) :
  (3 ≤ channels)%nat →
  Shine.add_default_alpha (Shine.Color3D channels a) = Some icon →
  Shine.create_shine_animation max_lightness cfg (Shine.Color3D channels a) =
  Shine.sweep_range cfg (Shine.icon_W icon) (Shine.icon_H icon) ≫= λ '(s, e),
    Some ((λ i, Shine.final_frame_uint8 max_lightness cfg icon s e i)
            <$> Py.range (Shine.TOTAL_FRAMES cfg)).
Proof.
  intros Hch Hicon. unfold Shine.create_shine_animation. rewrite Hicon. simpl.
  rewrite alpha_channel_present by done.
  unfold Shine.cvtColor_BGR2HLS_raises. simpl. rewrite orb_false_r.
  destruct (bool_decide _) eqn:Hempty; [|done].
  apply bool_decide_eq_true in Hempty.
  rewrite sweep_range_is_None; [done|tauto].
Qed.

Lemma shine_frames max_lightness cfg (channels : nat) (a : list (list (list Z))) :
  (3 ≤ channels)%nat →
  (0 < Shine.icon_H a)%nat → (0 < Shine.icon_W a)%nat →
  ∃ frames,
    Shine.create_shine_animation max_lightness cfg (Shine.Color3D channels a)
    = Some frames
    ∧ length frames = Z.to_nat (Shine.TOTAL_FRAMES cfg).
Proof.
  intros Hch HH HW.
  destruct (add_default_alpha_extent channels a) as (icon & Hicon & HiH & HiW).
  destruct (sweep_range_is_Some cfg (Shine.icon_W icon) (Shine.icon_H icon))
    as [[s e] Hrange]; [lia..|].
  unfold Shine.create_shine_animation. rewrite Hicon. simpl.
  rewrite alpha_channel_present by done.
  unfold Shine.cvtColor_BGR2HLS_raises. simpl.
  rewrite bool_decide_eq_false_2 by lia. simpl.
  rewrite Hrange. simpl. eexists. split; [done|].
  by rewrite length_fmap, length_range.
Qed.

Lemma create_shine_animation_inv max_lightness cfg (img : Shine.imread_result)
    (icon : list (list (list Z))) (frames : list (list (list (list Z)))) :
  Shine.add_default_alpha img = Some icon →
  Shine.create_shine_animation max_lightness cfg img = Some frames →
  ∃ s e,
    Shine.sweep_range cfg (Shine.icon_W icon) (Shine.icon_H icon) = Some (s, e)
    ∧ frames = (λ i, Shine.final_frame_uint8 max_lightness cfg icon s e i)
               <$> Py.range (Shine.TOTAL_FRAMES cfg)
    ∧ Shine.alpha_channel_missing img = false
    ∧ Shine.is_uint8_image img = true.
Proof.
  intros Hicon Hrun. unfold Shine.create_shine_animation in Hrun.
  rewrite Hicon in Hrun. simpl in Hrun.
  destruct (Shine.alpha_channel_missing img); [done|].
  unfold Shine.cvtColor_BGR2HLS_raises in Hrun.
  destruct (bool_decide _); [done|]. simpl in Hrun.
  destruct (Shine.is_uint8_image img); [|done]. simpl in Hrun.
  destruct (Shine.sweep_range cfg _ _) as [[s e]|]; [|done].
  simpl in Hrun. injection Hrun as <-. by exists s, e.
Qed.

Lemma scroll_frames GaussianBlur cfg (text : list (list (list Z))) (th tw : nat)
    (s_actual_h text_block_rendered_height : Z) :
  Py.has_shape3 th tw 4 text →
  (Scroll.FPS cfg `div` 2 ≠ 0)%Z →
  ∃ frames,
    Scroll.main GaussianBlur cfg text s_actual_h text_block_rendered_height
    = Some frames
    ∧ length frames = Z.to_nat (Scroll.num_total_frames cfg).
Proof.
  intros Htext Hfps. unfold Scroll.main.
  match goal with |- ∃ frames, mapM ?f ?l = _ ∧ _ =>
    destruct (mapM_is_Some_2 f l) as [frames Hframes] end.
  { apply Forall_forall. intros i _. simpl. unfold Scroll.render_frame.
    destruct (paste_is_Some cfg text th tw
                (Scroll.current_y_pil_top cfg s_actual_h text_block_rendered_height
                   (ease_in_out_cubic (Scroll.progress cfg i))) Htext) as [canvas ->].
    simpl. unfold Scroll.report_due. by rewrite bool_decide_eq_false_2. }
  exists frames. split; [done|].
  apply length_mapM in Hframes. by rewrite <-Hframes, length_range.
Qed.

(** * The claims *)

(** ** The sweep pixel inside the window *)



(** ** Frames outside the window *)

(** C2: a frame of the sweep whose index is before [ANIM_START_FRAME] or
    at or after [ANIM_END_FRAME] is the static base composite, byte for
    byte; each of its channels is the icon's colour channel premultiplied
    by the icon's alpha, converted to 8 bits, with no term from the shine
    layer. *)
Theorem frames_outside_window_are_static (max_lightness : list Z → list Z) cfg
    (img : Shine.imread_result) (icon : list (list (list Z)))
    (frames : list (list (list (list Z)))) (k : nat)
    (frame : list (list (list Z))) :
  Shine.add_default_alpha img = Some icon →
  Shine.create_shine_animation max_lightness cfg img = Some frames →
  frames !! k = Some frame →
  (Z.of_nat k < Shine.ANIM_START_FRAME cfg
   ∨ Z.of_nat k >= Shine.ANIM_END_FRAME cfg)%Z →
  frame = Shine.static_base_frame icon
  ∧ ∀ y x c px,
      Py.at2 icon y x = Some px → length px = 4%nat → (c < 3)%nat →
      Py.at3 frame y x c =
      Some (Py.astype_uint8
              (Py.clip (IZR (nth c px 0%Z) / 255.0 * (IZR (nth 3 px 0%Z) / 255.0) * 255)
                 0 255)).
Proof.
  intros Hicon Hrun Hk Hout.
  assert (frame = Shine.static_base_frame icon) as ->.
  { destruct (create_shine_animation_inv _ _ _ _ _ Hicon Hrun)
      as (s & e & _ & -> & _).
    rewrite list_lookup_fmap in Hk.
    destruct (Py.range _ !! k) as [i|] eqn:Hi; [|done].
    apply lookup_range in Hi as [-> _]. simpl in Hk. injection Hk as <-.
    unfold Shine.final_frame_uint8, Shine.final_frame_float.
    by rewrite animating_false. }
  split; [done|]. intros y x c px Hpx Hlen Hc.
  unfold Shine.static_base_frame, Shine.to_uint8.
  rewrite at3_map_3d, (at3_base_image _ _ _ _ px) by (done || lia). done.
Qed.

Lemma frames_outside_window_are_static_witness :
  ∃ frames frame,
    Shine.create_shine_animation example_max_lightness Shine.source_config
      (Shine.Color3D 4 example_icon) = Some frames
    ∧ frames !! 0%nat = Some frame
    ∧ frame = Shine.static_base_frame example_icon.
Proof.
  destruct (shine_frames example_max_lightness Shine.source_config 4 example_icon)
    as (frames & Hrun & Hlen); [simpl; lia..|].
  rewrite shine_source_TOTAL_FRAMES in Hlen.
  destruct (lookup_lt_is_Some_2 frames 0) as [frame Hframe]; [lia|].
  exists frames, frame. split; [done|]. split; [done|].
  apply (frames_outside_window_are_static example_max_lightness
           Shine.source_config (Shine.Color3D 4 example_icon) example_icon
           frames 0 frame); [reflexivity|done|done|].
  left. rewrite shine_source_ANIM_START_FRAME. lia.
Defined.

(** ** Progress *)

(** C3, as the code has it: the progress handed to the easing function lies
    in [0, 1] in both animations.  In the scroll the last frame has
    progress exactly 1 when there is more than one frame and exactly 0
    otherwise.  In the sweep the window is half open: the progress is 0 on
    its first frame and [1 - 1/n], below 1, on the last of its [n]
    frames. *)
Theorem progress_range_and_endpoints (sweep : Shine.config) (scroll : Scroll.config)
    (i k : Z) :
  (Shine.ANIM_START_FRAME sweep ≤ i < Shine.ANIM_END_FRAME sweep)%Z →
  (0 ≤ k < Scroll.num_total_frames scroll)%Z →
  0 <= Shine.progress sweep i < 1
  ∧ Shine.progress sweep (Shine.ANIM_START_FRAME sweep) = 0
  ∧ Shine.progress sweep (Shine.ANIM_END_FRAME sweep - 1) =
    1 - 1 / IZR (Shine.ANIM_END_FRAME sweep - Shine.ANIM_START_FRAME sweep)
  ∧ 0 <= Scroll.progress scroll k <= 1
  ∧ Scroll.progress scroll (Scroll.num_total_frames scroll - 1) =
    (if bool_decide (Scroll.num_total_frames scroll > 1)%Z then 1 else 0).
Proof.
  intros Hi Hk. split; [by apply shine_progress_range|].
  split; [|split; [|split]].
  - unfold Shine.progress. rewrite Z.sub_diag. lra.
  - unfold Shine.progress.
    replace (Shine.ANIM_END_FRAME sweep - 1 - Shine.ANIM_START_FRAME sweep)%Z
      with (Shine.ANIM_END_FRAME sweep - Shine.ANIM_START_FRAME sweep - 1)%Z
      by lia.
    rewrite minus_IZR. field. apply not_0_IZR. lia.
  - by apply scroll_progress_range.
  - apply scroll_progress_last.
Qed.

Lemma progress_range_and_endpoints_witness :
  0 <= Shine.progress Shine.source_config 20 < 1
  ∧ 0 <= Scroll.progress Scroll.source_config 7 <= 1.
Proof.
  destruct (progress_range_and_endpoints Shine.source_config
              Scroll.source_config 20 7) as (H1 & _ & _ & H2 & _).
  - rewrite shine_source_ANIM_START_FRAME, shine_source_ANIM_END_FRAME. lia.
  - rewrite scroll_source_num_total_frames. lia.
  - by split.
Defined.

(** C3 fails as stated: with the constants of the source the sweep window
    has 30 frames, more than one, and the progress of its last frame, 44,
    is 29/30 and not 1. *)
Lemma sweep_last_progress_is_not_one :
  let cfg := Shine.source_config in
  ((Shine.ANIM_END_FRAME cfg - Shine.ANIM_START_FRAME cfg > 1)%Z
   ∧ (Shine.TOTAL_FRAMES cfg > 1)%Z)
  ∧ Shine.animating cfg (Shine.ANIM_END_FRAME cfg - 1) = true
  ∧ Shine.animating cfg (Shine.ANIM_END_FRAME cfg) = false
  ∧ Shine.progress cfg (Shine.ANIM_END_FRAME cfg - 1) = 29 / 30
  ∧ Shine.progress cfg (Shine.ANIM_END_FRAME cfg - 1) ≠ 1.
Proof.
  simpl.
  assert (Shine.progress Shine.source_config
            (Shine.ANIM_END_FRAME Shine.source_config - 1) = 29 / 30) as Hp.
  { unfold Shine.progress.
    rewrite shine_source_ANIM_START_FRAME, shine_source_ANIM_END_FRAME.
    rewrite !minus_IZR. lra. }
  split; [|split; [|split; [|split]]].
  - rewrite shine_source_ANIM_START_FRAME, shine_source_ANIM_END_FRAME,
      shine_source_TOTAL_FRAMES. lia.
  - apply animating_true.
    rewrite shine_source_ANIM_START_FRAME, shine_source_ANIM_END_FRAME. lia.
  - apply animating_false. lia.
  - done.
  - rewrite Hp. lra.
Qed.

(** ** The number of frames *)

(** C4, as the code has it: when the run completes, the number of frames
    generated is [int(total_duration * fps)], the binary64 product
    truncated toward zero, a function of the duration and the frame rate
    alone; it is 75 for 2.5 s at 30 frames per second and 60 for 2.0 s at
    30 frames per second.  The sweep completes for an 8-bit colour image
    of at least three channels with pixels; the scroll completes, for a
    frame with pixels, a background of three bytes and a feather that is
    not negative, when [FPS // 2], the divisor of its progress report, is
    not 0. *)
Theorem frame_count_is_truncated_product
    (max_lightness : list Z → list Z) (sweep : Shine.config)
    (channels : nat) (a : list (list (list Z)))
    (GaussianBlur : list (list Z) → Z * Z → R → list (list Z))
    (scroll : Scroll.config) (text : list (list (list Z))) (th tw : nat)
    (s_actual_h text_block_rendered_height : Z) (b g r : Z) :
  let sweep_product :=
    (Shine.TOTAL_DURATION sweep * Py.float_of_int (Shine.FPS sweep))%float in
  let scroll_product :=
    (Scroll.ANIMATION_DURATION_SECONDS scroll
     * Py.float_of_int (Scroll.FPS scroll))%float in
  (3 ≤ channels)%nat →
  Py.has_shape3 (Shine.icon_H a) (Shine.icon_W a) channels a → Py.all_uint8 a →
  (0 < Shine.icon_H a)%nat → (0 < Shine.icon_W a)%nat →
  (0 < Shine.FPS sweep)%Z → Shine.frame_numbers_defined sweep = true →
  (0 < Scroll.FPS scroll)%Z → Scroll.num_total_frames_defined scroll = true →
  (0 < Scroll.FRAME_HEIGHT scroll)%Z → (0 < Scroll.FRAME_WIDTH scroll)%Z →
  (0 ≤ Scroll.FEATHER_AMOUNT_PIXELS scroll)%Z →
  Scroll.BACKGROUND_COLOR_CV scroll = [b; g; r] → Forall Py.is_uint8 [b; g; r] →
  Py.has_shape3 th tw 4 text → Py.all_uint8 text →
  (Scroll.FPS scroll `div` 2 ≠ 0)%Z →
  ∃ sweep_frames scroll_frames,
    Shine.create_shine_animation max_lightness sweep (Shine.Color3D channels a)
    = Some sweep_frames
    ∧ length sweep_frames = Z.to_nat (Py.int (Py.float_value sweep_product))
    ∧ Scroll.main GaussianBlur scroll text s_actual_h text_block_rendered_height
      = Some scroll_frames
    ∧ length scroll_frames = Z.to_nat (Py.int (Py.float_value scroll_product))
    ∧ (Shine.TOTAL_DURATION sweep = 2.5%float → Shine.FPS sweep = 30%Z →
       length sweep_frames = 75%nat)
    ∧ (Scroll.ANIMATION_DURATION_SECONDS scroll = 2.0%float →
       Scroll.FPS scroll = 30%Z →
       length scroll_frames = 60%nat).
Proof.
  intros sweep_product scroll_product Hch _ _ HH HW _ _ _ _ _ _ _ _ _ Htext _
    Hfps.
  destruct (shine_frames max_lightness sweep channels a Hch HH HW)
    as (sweep_frames & Hsweep & Hsweep_len).
  destruct (scroll_frames GaussianBlur scroll text th tw s_actual_h
              text_block_rendered_height Htext Hfps)
    as (scroll_frames & Hscroll & Hscroll_len).
  exists sweep_frames, scroll_frames.
  split; [done|]. split; [by rewrite <-int_float_value|].
  split; [done|]. split; [by rewrite <-int_float_value|]. split.
  - intros Hd Hrate. rewrite Hsweep_len. unfold Shine.TOTAL_FRAMES.
    by rewrite Hd, Hrate.
  - intros Hd Hrate. rewrite Hscroll_len. unfold Scroll.num_total_frames.
    by rewrite Hd, Hrate.
Qed.

Lemma frame_count_is_truncated_product_witness :
  ∃ sweep_frames scroll_frames,
    Shine.create_shine_animation example_max_lightness Shine.source_config
      (Shine.Color3D 4 example_icon_2x3) = Some sweep_frames
    ∧ length sweep_frames = 75%nat
    ∧ Scroll.main no_blur Scroll.source_config example_text 1 2 = Some scroll_frames
    ∧ length scroll_frames = 60%nat.
Proof.
  destruct (frame_count_is_truncated_product example_max_lightness
              Shine.source_config 4 example_icon_2x3 no_blur Scroll.source_config
              example_text 2 2 1 2 0 0 0)
    as (sweep_frames & scroll_frames & Hsweep & _ & Hscroll & _ & H75 & H60).
  - lia.
  - split; [reflexivity|]. repeat constructor.
  - repeat constructor; done.
  - simpl. lia.
  - simpl. lia.
  - simpl. lia.
  - reflexivity.
  - simpl. lia.
  - reflexivity.
  - rewrite scroll_source_FRAME_HEIGHT. lia.
  - simpl. lia.
  - simpl. lia.
  - reflexivity.
  - repeat constructor; done.
  - split; [reflexivity|]. repeat constructor.
  - repeat constructor; done.
  - by vm_compute.
  - exists sweep_frames, scroll_frames.
    split; [done|]. split; [by apply H75|]. split; [done|]. by apply H60.
Defined.

(** C4 fails as stated: for a total duration of 2.625 s at 30 frames per
    second the product is 78.75, exactly so in binary64; 78 frames are
    generated, and the product rounded is 79. *)
Lemma frame_count_is_not_rounded :
  let product :=
    (Shine.TOTAL_DURATION longer_config
     * Py.float_of_int (Shine.FPS longer_config))%float in
  is_finite product = true
  ∧ Py.float_value product = 78.75
  ∧ Py.round (Py.float_value product) = 79%Z
  ∧ Shine.TOTAL_FRAMES longer_config = 78%Z
  ∧ ∃ frames,
      Shine.create_shine_animation example_max_lightness longer_config
        (Shine.Color3D 4 example_icon) = Some frames
      ∧ length frames = 78%nat
      ∧ length frames ≠ Z.to_nat (Py.round (Py.float_value product)).
Proof.
  intros product.
  assert (Py.float_value product = 78.75) as Hprod.
  { unfold Py.float_value.
    assert (FloatOps.Prim2SF product
            = SpecFloat.S754_finite false 5541538603991040 (-46)) as ->
      by reflexivity.
    change (-46)%Z with (Z.opp 46).
    rewrite powerRZ_neg', powerRZ_2_nonneg by lia.
    change (2 ^ 46)%Z with 70368744177664%Z. lra. }
  assert (Py.round (Py.float_value product) = 79%Z) as Hround.
  { rewrite Hprod. apply (round_eq_up 78). lra. }
  assert (Shine.TOTAL_FRAMES longer_config = 78%Z) as Hint by reflexivity.
  split; [reflexivity|]. split; [done|]. split; [done|]. split; [done|].
  destruct (shine_frames example_max_lightness longer_config 4 example_icon)
    as (frames & Hrun & Hlen); [lia|simpl; lia..|].
  exists frames. split; [done|]. rewrite Hlen, Hint, Hround. split; [done|lia].
Qed.

(** ** The easing contract *)

(** C5: on [0, 1] both easing functions take their values in [0, 1], are 0
    at 0 and 1 at 1, and are monotonic non-decreasing. *)
Theorem easing_contract (t u : R) :
  0 <= t → t <= u → u <= 1 →
  (0 <= ease_out_quad t <= 1 ∧ 0 <= ease_in_out_cubic t <= 1)
  ∧ (ease_out_quad 0 = 0 ∧ ease_out_quad 1 = 1
     ∧ ease_in_out_cubic 0 = 0 ∧ ease_in_out_cubic 1 = 1)
  ∧ (ease_out_quad t <= ease_out_quad u
     ∧ ease_in_out_cubic t <= ease_in_out_cubic u).
Proof.
  intros H0 Htu H1. split; [|split].
  - split; [apply ease_out_quad_range|apply ease_in_out_cubic_range]; lra.
  - unfold ease_out_quad, ease_in_out_cubic.
    destruct (Rlt_dec (0 * 2) 1), (Rlt_dec (1 * 2) 1); lra.
  - split; [by apply ease_out_quad_monotone|by apply ease_in_out_cubic_monotone].
Qed.

Lemma easing_contract_witness :
  (0 <= ease_out_quad 0.25 <= 1 ∧ 0 <= ease_in_out_cubic 0.25 <= 1)
  ∧ (ease_out_quad 0 = 0 ∧ ease_out_quad 1 = 1
     ∧ ease_in_out_cubic 0 = 0 ∧ ease_in_out_cubic 1 = 1)
  ∧ (ease_out_quad 0.25 <= ease_out_quad 0.75
     ∧ ease_in_out_cubic 0.25 <= ease_in_out_cubic 0.75).
Proof. apply (easing_contract 0.25 0.75); lra. Defined.

(** ** Compositing through a constant mask *)

(** C6: blending through a mask that is 0 everywhere returns the base
    layer, and blending through a mask (combined alpha) that is 1
    everywhere returns the colour channels of the foreground layer; in the
    sweep (lines 136-140) and in the scroll (lines 250-256), for layers of
    one shape.  The mask that is 0 is taken both as the alpha handed to the
    blend and as the Gaussian or feathered mask from which that alpha is
    computed. *)
Theorem compositing_through_constant_mask (h w : nat)
    (shine base : list (list (list R))) (icon_alpha : list (list R))
    (bg canvas : list (list (list Z))) :
  Py.has_shape3 h w 3 shine → Py.has_shape3 h w 3 base →
  Py.has_shape2 h w icon_alpha →
  Py.has_shape3 h w 3 bg → Py.has_shape3 h w 4 canvas →
  Py.all_uint8 bg → Py.all_uint8 canvas →
  (Shine.composite shine (Py.full_3d h w 3 0) base = base
   ∧ Shine.composite shine
       (Py.stack3 (Py.zip_2d Rmult (Py.full_2d h w 0) icon_alpha)) base = base
   ∧ Shine.composite shine (Py.full_3d h w 3 1) base = shine)
  ∧ (Scroll.composite bg canvas (Py.full_2d h w 0) = bg
     ∧ Scroll.composite bg canvas
         (Scroll.combined_alpha canvas (Py.full_3d h w 1 0)) = bg
     ∧ Scroll.composite bg canvas (Py.full_2d h w 1) = Py.map_2d (take 3) canvas).
Proof.
  intros Hshine Hbase Hia Hbg Hcanvas Hbg8 Hcanvas8.
  rewrite zero_gauss_mask_alpha, zero_feathered_mask_alpha by done.
  split.
  { split; [by apply shine_composite_zero_mask|].
    split; [by apply shine_composite_zero_mask|by apply shine_composite_one_mask]. }
  pose proof Hbg as Hbg'. pose proof Hcanvas as Hcanvas'.
  apply has_shape3_shape2 in Hbg' as [Hbg2 Hbpx].
  apply has_shape3_shape2 in Hcanvas' as [Hcanvas2 Hcpx].
  assert (∀ y x px, Py.at2 bg y x = Some px →
            ∃ b g r cb cg cr ca,
              px = [b; g; r] ∧ Py.at2 canvas y x = Some [cb; cg; cr; ca]
              ∧ Forall Py.is_uint8 [b; g; r]
              ∧ Forall Py.is_uint8 [cb; cg; cr; ca]) as Hpixels.
  { intros y x px Hpx. destruct (at2_lt _ _ _ _ _ _ Hbg2 Hpx) as [Hy Hx].
    destruct (has_shape2_at2 _ _ _ y x Hcanvas2 Hy Hx) as [cpx Hc].
    pose proof (Hbpx _ _ _ Hpx) as Hl3. pose proof (Hcpx _ _ _ Hc) as Hl4.
    pose proof (all_uint8_at2 _ _ _ _ Hbg8 Hpx) as H8.
    pose proof (all_uint8_at2 _ _ _ _ Hcanvas8 Hc) as Hc8.
    destruct px as [|b [|g [|r [|??]]]]; try done.
    destruct cpx as [|cb [|cg [|cr [|ca [|??]]]]]; try done.
    by exists b, g, r, cb, cg, cr, ca. }
  assert (Scroll.composite bg canvas (Py.full_2d h w 0) = bg) as Hzero.
  { destruct (scroll_composite_constant h w bg canvas 0) as [Hs Hat]; [done..|].
    apply (array_2d_ext h w); [done..|]. intros y x.
    destruct (Py.at2 bg y x) as [px|] eqn:Hpx.
    + destruct (Hpixels _ _ _ Hpx) as (b & g & r & cb & cg & cr & ca & -> & Hc & H8 & _).
      rewrite (Hat _ _ _ _ _ _ _ _ _ Hpx Hc).
      apply Forall_cons in H8 as [Hb8 H8]. apply Forall_cons in H8 as [Hg8 H8].
      apply Forall_cons in H8 as [Hr8 _].
      replace (IZR b * (1 - 0) + IZR cb * 0) with (IZR b) by lra.
      replace (IZR g * (1 - 0) + IZR cg * 0) with (IZR g) by lra.
      replace (IZR r * (1 - 0) + IZR cr * 0) with (IZR r) by lra.
      by rewrite !astype_uint8_IZR.
    + destruct (Py.at2 (Scroll.composite _ _ _) y x) as [px|] eqn:Hcomp; [|done].
      destruct (at2_lt _ _ _ _ _ _ Hs Hcomp) as [Hy Hx].
      destruct (has_shape2_at2 _ _ _ y x Hbg2 Hy Hx). congruence. }
  split; [done|]. split; [done|].
  - destruct (scroll_composite_constant h w bg canvas 1) as [Hs Hat]; [done..|].
    apply (array_2d_ext h w); [done|by apply has_shape2_map_2d|]. intros y x.
    rewrite at2_map_2d.
    destruct (Py.at2 bg y x) as [px|] eqn:Hpx.
    + destruct (Hpixels _ _ _ Hpx) as (b & g & r & cb & cg & cr & ca & -> & Hc & _ & H8).
      rewrite (Hat _ _ _ _ _ _ _ _ _ Hpx Hc), Hc. simpl.
      apply Forall_cons in H8 as [Hb8 H8]. apply Forall_cons in H8 as [Hg8 H8].
      apply Forall_cons in H8 as [Hr8 _].
      replace (IZR b * (1 - 1) + IZR cb * 1) with (IZR cb) by lra.
      replace (IZR g * (1 - 1) + IZR cg * 1) with (IZR cg) by lra.
      replace (IZR r * (1 - 1) + IZR cr * 1) with (IZR cr) by lra.
      by rewrite !astype_uint8_IZR.
    + destruct (Py.at2 (Scroll.composite _ _ _) y x) as [px|] eqn:Hcomp.
      * destruct (at2_lt _ _ _ _ _ _ Hs Hcomp) as [Hy Hx].
        destruct (has_shape2_at2 _ _ _ y x Hbg2 Hy Hx). congruence.
      * destruct (Py.at2 canvas y x) as [cpx|] eqn:Hc; [|done].
        destruct (at2_lt _ _ _ _ _ _ Hcanvas2 Hc) as [Hy Hx].
        destruct (has_shape2_at2 _ _ _ y x Hbg2 Hy Hx). congruence.
Qed.

Lemma compositing_through_constant_mask_witness :
  (Shine.composite [[[1; 1; 1]]] (Py.full_3d 1 1 3 0) [[[0.5; 0.25; 0]]]
   = [[[0.5; 0.25; 0]]]
   ∧ Shine.composite [[[1; 1; 1]]]
       (Py.stack3 (Py.zip_2d Rmult (Py.full_2d 1 1 0) [[1]])) [[[0.5; 0.25; 0]]]
     = [[[0.5; 0.25; 0]]]
   ∧ Shine.composite [[[1; 1; 1]]] (Py.full_3d 1 1 3 1) [[[0.5; 0.25; 0]]]
     = [[[1; 1; 1]]])
  ∧ (Scroll.composite [[[0; 0; 0]]]%Z example_icon (Py.full_2d 1 1 0)
     = [[[0; 0; 0]]]%Z
     ∧ Scroll.composite [[[0; 0; 0]]]%Z example_icon
         (Scroll.combined_alpha example_icon (Py.full_3d 1 1 1 0))
       = [[[0; 0; 0]]]%Z
     ∧ Scroll.composite [[[0; 0; 0]]]%Z example_icon (Py.full_2d 1 1 1)
       = Py.map_2d (take 3) example_icon).
Proof.
  apply (compositing_through_constant_mask 1 1 [[[1; 1; 1]]] [[[0.5; 0.25; 0]]]
           [[1]] [[[0; 0; 0]]]%Z example_icon).
  - split; [reflexivity|]. repeat constructor.
  - split; [reflexivity|]. repeat constructor.
  - split; [reflexivity|]. repeat constructor.
  - split; [reflexivity|]. repeat constructor.
  - split; [reflexivity|]. repeat constructor.
  - repeat constructor; done.
  - repeat constructor; done.
Defined.

(** ** The range of the sweep *)

(** C7: [shine_width = W * SHINE_WIDTH_FACTOR], [sweep_start] is the
    minimum of the sweep map minus [shine_width] and [sweep_end] its
    maximum plus [shine_width]; the band centre is [sweep_start] at eased
    progress 0 and [sweep_end] at eased progress 1, so at both it is at
    least [shine_width] away from every value of the sweep map, on the
    outside of their range. *)
Theorem sweep_starts_and_ends_off_frame cfg (W H : nat) :
  (0 < W)%nat → (0 < H)%nat →
  ∃ map_min map_max : R,
    Py.np_min (Shine.sweep_map cfg W H) = Some map_min
    ∧ Py.np_max (Shine.sweep_map cfg W H) = Some map_max
    ∧ (∃ y x, Py.at2 (Shine.sweep_map cfg W H) y x = Some map_min)
    ∧ (∃ y x, Py.at2 (Shine.sweep_map cfg W H) y x = Some map_max)
    ∧ let shine_width := INR W * Shine.SHINE_WIDTH_FACTOR cfg in
      let sweep_start := map_min - shine_width in
      let sweep_end := map_max + shine_width in
      Shine.shine_width_pixels cfg W = shine_width
      ∧ Shine.sweep_range cfg W H = Some (sweep_start, sweep_end)
      ∧ Shine.current_pos sweep_start sweep_end 0 = sweep_start
      ∧ Shine.current_pos sweep_start sweep_end 1 = sweep_end
      ∧ ∀ y x m,
          Py.at2 (Shine.sweep_map cfg W H) y x = Some m →
          map_min <= m <= map_max
          ∧ Shine.current_pos sweep_start sweep_end 0 <= m - shine_width
          ∧ m + shine_width <= Shine.current_pos sweep_start sweep_end 1.
Proof.
  intros HW HH.
  pose proof (at2_sweep_map cfg W H 0 0 HH HW) as H00.
  destruct (np_min_max_is_Some _ _ _ _ H00) as [[map_min Hmin] [map_max Hmax]].
  destruct (np_min_spec _ _ Hmin) as [Hlo Hlo_at].
  destruct (np_max_spec _ _ Hmax) as [Hhi Hhi_at].
  exists map_min, map_max. do 4 (split; [done|]). simpl.
  split; [done|]. split.
  { unfold Shine.sweep_range. rewrite Hmin, Hmax. done. }
  unfold Shine.current_pos. split; [lra|]. split; [lra|].
  intros y x m Hm. specialize (Hlo _ _ _ Hm). specialize (Hhi _ _ _ Hm). lra.
Qed.

Lemma sweep_starts_and_ends_off_frame_witness :
  ∃ map_min map_max : R,
    Py.np_min (Shine.sweep_map Shine.source_config 2 2) = Some map_min
    ∧ Py.np_max (Shine.sweep_map Shine.source_config 2 2) = Some map_max
    ∧ Shine.sweep_range Shine.source_config 2 2 =
      Some (map_min - INR 2 * 0.25, map_max + INR 2 * 0.25).
Proof.
  destruct (sweep_starts_and_ends_off_frame Shine.source_config 2 2)
    as (map_min & map_max & Hmin & Hmax & _ & _ & _ & Hrange & _); [lia..|].
  by exists map_min, map_max.
Defined.

(** ** The feathered mask *)




(** ** The default alpha channel *)

(** C9: an image of three channels gets a fourth channel that is 255 at
    every pixel, its colour channels unchanged; an image of four channels
    is kept; in both cases the icon from which the layers are prepared and
    the frames composited has four channels at every pixel. *)
Theorem default_alpha_gives_four_channels (max_lightness : list Z → list Z) cfg
    (channels : nat) (a : list (list (list Z))) :
  Forall (Forall (λ px, length px = channels)) a →
  channels = 3%nat ∨ channels = 4%nat →
  ∃ icon,
    Shine.add_default_alpha (Shine.Color3D channels a) = Some icon
    ∧ Forall (Forall (λ px, length px = 4%nat)) icon
    ∧ (channels = 3%nat → icon = Py.map_2d (λ px, px ++ [255%Z]) a)
    ∧ (channels = 4%nat → icon = a)
    ∧ Shine.create_shine_animation max_lightness cfg (Shine.Color3D channels a) =
      Shine.sweep_range cfg (Shine.icon_W icon) (Shine.icon_H icon) ≫= λ '(s, e),
        Some ((λ i, Shine.final_frame_uint8 max_lightness cfg icon s e i)
                <$> Py.range (Shine.TOTAL_FRAMES cfg)).
Proof.
  intros Hwf [->| ->].
  - exists (Py.map_2d (λ px, px ++ [255%Z]) a).
    assert (Shine.add_default_alpha (Shine.Color3D 3 a) =
            Some (Py.map_2d (λ px, px ++ [255%Z]) a)) as Hicon.
    { unfold Shine.add_default_alpha, Shine.cvtColor_BGR2BGRA. simpl.
      rewrite map_2d_compose. f_equal.
      apply (map_2d_ext_shape _ _ (λ px, length px = 3%nat)); [done|].
      intros px Hpx. simpl.
      destruct px as [|b [|g [|r [|? ?]]]]; simpl in Hpx; try lia. done. }
    split; [done|]. split.
    { unfold Py.map_2d. apply Forall_fmap. eapply Forall_impl; [exact Hwf|].
      intros row Hrow. simpl. apply Forall_fmap.
      eapply Forall_impl; [exact Hrow|]. intros px Hpx. simpl in *.
      rewrite length_app, Hpx. done. }
    split; [done|]. split; [done|].
    apply create_shine_animation_colour; [lia|done].
  - exists a. split; [done|]. split; [done|]. split; [done|]. split; [done|].
    apply create_shine_animation_colour; [lia|done].
Qed.

Lemma default_alpha_gives_four_channels_witness :
  Shine.add_default_alpha (Shine.Color3D 3 example_bgr) =
  Some [[[10; 20; 30; 255]; [40; 50; 60; 255]]]%Z.
Proof.
  destruct (default_alpha_gives_four_channels example_max_lightness
              Shine.source_config 3 example_bgr)
    as (icon & Hicon & _ & Hthree & _).
  - repeat constructor.
  - by left.
  - rewrite Hicon, Hthree; reflexivity.
Defined.

(** ** The paste of the text block *)

(** C10: for every integer vertical offset the clipped source and
    destination rectangles have the same height and the same width and lie
    inside the text image and the frame; the paste never raises and
    returns a canvas of the shape of the frame, whose pixels in the
    destination rectangle are those of the text block and whose every
    other pixel is [0, 0, 0, 0]. *)
Theorem scroll_paste_well_defined cfg (text : list (list (list Z)))
    (th tw : nat) (current_y_pil_top : Z) :
  (0 ≤ Scroll.FRAME_HEIGHT cfg)%Z → (0 ≤ Scroll.FRAME_WIDTH cfg)%Z →
  Py.has_shape3 th tw 4 text →
  let p := Scroll.place cfg text current_y_pil_top in
  let dst_x_offset_canvas :=
    ((Scroll.FRAME_WIDTH cfg - Scroll.text_img_w text) `div` 2)%Z in
  ((Scroll.eff_src_y2_text_img p - Scroll.eff_src_y1_text_img p =
    Scroll.eff_dst_y2 p - Scroll.eff_dst_y1 p)%Z
   ∧ (Scroll.eff_src_x2_text_img p - Scroll.eff_src_x1_text_img p =
      Scroll.eff_dst_x2 p - Scroll.eff_dst_x1 p)%Z)
  ∧ ((0 ≤ Scroll.eff_dst_y1 p)%Z ∧ (Scroll.eff_dst_y2 p ≤ Scroll.FRAME_HEIGHT cfg)%Z
     ∧ (0 ≤ Scroll.eff_dst_x1 p)%Z ∧ (Scroll.eff_dst_x2 p ≤ Scroll.FRAME_WIDTH cfg)%Z)
  ∧ ((0 ≤ Scroll.eff_src_y1_text_img p)%Z
     ∧ (Scroll.eff_src_y2_text_img p ≤ Scroll.text_img_h text)%Z
     ∧ (0 ≤ Scroll.eff_src_x1_text_img p)%Z
     ∧ (Scroll.eff_src_x2_text_img p ≤ Scroll.text_img_w text)%Z)
  ∧ ∃ canvas,
      Scroll.temp_scrolled_text_canvas_bgra cfg text current_y_pil_top = Some canvas
      ∧ Py.has_shape3 (Z.to_nat (Scroll.FRAME_HEIGHT cfg))
          (Z.to_nat (Scroll.FRAME_WIDTH cfg)) 4 canvas
      ∧ ∀ r c : nat,
          (r < Z.to_nat (Scroll.FRAME_HEIGHT cfg))%nat →
          (c < Z.to_nat (Scroll.FRAME_WIDTH cfg))%nat →
          Py.at2 canvas r c =
          if bool_decide ((Scroll.eff_dst_y1 p ≤ Z.of_nat r < Scroll.eff_dst_y2 p)%Z
                          ∧ (Scroll.eff_dst_x1 p ≤ Z.of_nat c < Scroll.eff_dst_x2 p)%Z)
          then Py.at2 text (Z.to_nat (Z.of_nat r - current_y_pil_top))
                 (Z.to_nat (Z.of_nat c - dst_x_offset_canvas))
          else Some [0; 0; 0; 0]%Z.
Proof.
  intros _ _ Htext p xoff.
  pose proof (text_img_w_nonneg text) as Htw0.
  assert (Scroll.eff_dst_y1 p = Z.max 0 current_y_pil_top) as Hd1 by done.
  assert (Scroll.eff_dst_y2 p =
          Z.min (Scroll.FRAME_HEIGHT cfg) (current_y_pil_top + Scroll.text_img_h text))
    as Hd2 by done.
  assert (Scroll.eff_dst_x1 p = Z.max 0 xoff) as Hdx1 by done.
  assert (Scroll.eff_dst_x2 p =
          Z.min (Scroll.FRAME_WIDTH cfg) (xoff + Scroll.text_img_w text))
    as Hdx2 by done.
  assert (Scroll.eff_src_y1_text_img p = Scroll.eff_dst_y1 p - current_y_pil_top)%Z
    as Hs1 by (simpl; lia).
  assert (Scroll.eff_src_y2_text_img p = Scroll.eff_dst_y2 p - current_y_pil_top)%Z
    as Hs2 by (simpl; lia).
  assert (Scroll.eff_src_x1_text_img p = Scroll.eff_dst_x1 p - xoff)%Z
    as Hsx1 by (simpl; fold xoff; lia).
  assert (Scroll.eff_src_x2_text_img p = Scroll.eff_dst_x2 p - xoff)%Z
    as Hsx2 by (simpl; fold xoff; lia).
  split; [lia|]. split; [lia|]. split; [lia|].
  by apply (paste_canvas_spec cfg text th tw).
Qed.

Lemma scroll_paste_well_defined_witness :
  ∃ canvas,
    Scroll.temp_scrolled_text_canvas_bgra Scroll.source_config example_text (-1)
    = Some canvas
    ∧ Py.has_shape3 (Z.to_nat (Scroll.FRAME_HEIGHT Scroll.source_config))
        (Z.to_nat (Scroll.FRAME_WIDTH Scroll.source_config)) 4 canvas.
Proof.
  destruct (scroll_paste_well_defined Scroll.source_config example_text 2 2 (-1))
    as (_ & _ & _ & canvas & Hcanvas & Hshape & _).
  - rewrite scroll_source_FRAME_HEIGHT. lia.
  - simpl. lia.
  - split; [reflexivity|]. repeat constructor.
  - by exists canvas.
Defined.

(** * Further properties of the two programs *)

(** ** Supporting lemmas *)

Lemma exp_le (x y : R) : x <= y → exp x <= exp y.
Proof.
  intros [Hlt| ->]; [|lra]. left. by apply exp_increasing.
Qed.

Lemma cube_strictly_monotone (a b : R) : a < b → a * a * a < b * b * b.
Proof.
  intros Hab.
  assert (0 < a * a + a * b + b * b) as Hpos.
  { pose proof (Rle_0_sqr (a + b)) as Hsq. unfold Rsqr in Hsq.
    pose proof (Rle_0_sqr a) as Ha. unfold Rsqr in Ha.
    pose proof (Rle_0_sqr b) as Hb. unfold Rsqr in Hb.
    assert (0 < a * a + b * b).
    { destruct (Req_dec a 0) as [->|Hne].
      - assert (0 < b * b) by (apply Rmult_lt_0_compat; lra). lra.
      - assert (0 < a * a) by (apply Rsqr_pos_lt in Hne; exact Hne). lra. }
    replace (a * a + a * b + b * b)
      with (((a + b) * (a + b) + (a * a + b * b)) / 2) by field.
    lra. }
  assert (0 < (b - a) * (a * a + a * b + b * b))
    by (apply Rmult_lt_0_compat; lra).
  lra.
Qed.

Lemma sweep_range_inv cfg (W H : nat) (s e : R) :
  Shine.sweep_range cfg W H = Some (s, e) →
  ∃ map_min map_max,
    Py.np_min (Shine.sweep_map cfg W H) = Some map_min
    ∧ Py.np_max (Shine.sweep_map cfg W H) = Some map_max
    ∧ s = map_min - INR W * Shine.SHINE_WIDTH_FACTOR cfg
    ∧ e = map_max + INR W * Shine.SHINE_WIDTH_FACTOR cfg
    ∧ map_min <= map_max ∧ (0 < W)%nat ∧ (0 < H)%nat.
Proof.
  unfold Shine.sweep_range. intros Hrange.
  destruct (Py.np_min _) as [map_min|] eqn:Hmin; [|done].
  destruct (Py.np_max _) as [map_max|] eqn:Hmax; [|done].
  simpl in Hrange. injection Hrange as <- <-.
  destruct (np_min_spec _ _ Hmin) as [_ (y & x & Hat)].
  destruct (np_max_spec _ _ Hmax) as [Hhi _].
  pose proof (Hhi _ _ _ Hat).
  destruct (at2_sweep_map_inv _ _ _ _ _ _ Hat) as (Hy & Hx & _).
  exists map_min, map_max. unfold Shine.shine_width_pixels.
  repeat (split; [done|]). split; lia.
Qed.

Lemma shine_progress_monotone cfg (i j : Z) :
  (Shine.ANIM_START_FRAME cfg ≤ i)%Z → (i ≤ j)%Z → (j < Shine.ANIM_END_FRAME cfg)%Z →
  Shine.progress cfg i <= Shine.progress cfg j
  ∧ ((i < j)%Z → Shine.progress cfg i < Shine.progress cfg j).
Proof.
  intros Hi Hij Hj. unfold Shine.progress.
  set (n := (Shine.ANIM_END_FRAME cfg - Shine.ANIM_START_FRAME cfg)%Z).
  assert (0 < / IZR n) by (apply Rinv_0_lt_compat, IZR_lt; lia).
  split.
  - apply Rmult_le_compat_r; [lra|]. apply IZR_le. lia.
  - intros Hlt. apply Rmult_lt_compat_r; [lra|]. apply IZR_lt. lia.
Qed.

(** ** The easing functions *)

(** X1: [ease_in_out_cubic] is point-symmetric about (1/2, 1/2): the
    second half of the curve mirrors the first, for every argument, and
    the two branches meet at 1/2 with the value 1/2. *)
Theorem ease_in_out_cubic_symmetry (t : R) :
  ease_in_out_cubic (1 - t) = 1 - ease_in_out_cubic t
  ∧ ease_in_out_cubic 0.5 = 0.5.
Proof.
  unfold ease_in_out_cubic. split.
  - destruct (Rlt_dec ((1 - t) * 2) 1), (Rlt_dec (t * 2) 1); try lra.
    assert (t = 0.5) as -> by lra. lra.
  - destruct (Rlt_dec (0.5 * 2) 1); lra.
Qed.

(** X2: on [0, 1] both easing functions are strictly increasing, so two
    frames of different progress never get the same eased progress;
    [ease_out_quad] runs ahead of linear progress, and [ease_in_out_cubic]
    lags behind it on the first half and runs ahead on the second. *)
Theorem easing_strictly_increasing (t u : R) :
  0 <= t → t < u → u <= 1 →
  (ease_out_quad t < ease_out_quad u
   ∧ ease_in_out_cubic t < ease_in_out_cubic u)
  ∧ (t <= ease_out_quad t ∧ u <= ease_out_quad u)
  ∧ (u <= 0.5 → ease_in_out_cubic u <= u)
  ∧ (0.5 <= t → t <= ease_in_out_cubic t).
Proof.
  intros H0 Htu H1. split; [split|split; [|split]].
  - unfold ease_out_quad. nra.
  - unfold ease_in_out_cubic.
    destruct (Rlt_dec (t * 2) 1), (Rlt_dec (u * 2) 1).
    + pose proof (cube_strictly_monotone (t * 2) (u * 2)). lra.
    + pose proof (cube_strictly_monotone (t * 2) 1).
      pose proof (cube_monotone (-1) (u * 2 - 2)). lra.
    + lra.
    + pose proof (cube_strictly_monotone (t * 2 - 2) (u * 2 - 2)). lra.
  - unfold ease_out_quad. split; nra.
  - intros Hu. unfold ease_in_out_cubic. destruct (Rlt_dec (u * 2) 1).
    + assert (0 <= u * u <= 0.25) by nra. nra.
    + assert (u = 0.5) as -> by lra. lra.
  - intros Ht. unfold ease_in_out_cubic. destruct (Rlt_dec (t * 2) 1); [lra|].
    assert (0 <= (1 - t) * (1 - t) <= 0.25) by nra. nra.
Qed.

Lemma easing_strictly_increasing_witness :
  ease_out_quad 0.25 < ease_out_quad 0.5
  ∧ ease_in_out_cubic 0.25 < ease_in_out_cubic 0.5.
Proof.
  destruct (easing_strictly_increasing 0.25 0.5) as [H _]; [lra..|]. exact H.
Defined.

(** ** The Gaussian band and the position of the bar *)

Lemma at2_gauss_mask cfg (W H : nat) (pos : R) y x :
  Py.at2 (Shine.gauss_mask cfg W H pos) y x =
  (λ m, exp (- ((m - pos) / (Shine.shine_width_pixels cfg W / 2.5)) ^ 2))
    <$> Py.at2 (Shine.sweep_map cfg W H) y x.
Proof.
  unfold Shine.gauss_mask. rewrite !at2_map_2d.
  by destruct (Py.at2 (Shine.sweep_map cfg W H) y x).
Qed.

Lemma band_exponent_monotone (d d' k : R) :
  Rabs d <= Rabs d' → (d / k) ^ 2 <= (d' / k) ^ 2.
Proof.
  intros Hd. apply Rsqr_le_abs_1 in Hd. unfold Rsqr in Hd.
  assert (0 <= / k * / k) as Hk.
  { pose proof (Rle_0_sqr (/ k)) as Hsq. by unfold Rsqr in Hsq. }
  unfold Rdiv. simpl. rewrite !Rmult_1_r.
  replace (d * / k * (d * / k)) with (d * d * (/ k * / k)) by ring.
  replace (d' * / k * (d' * / k)) with (d' * d' * (/ k * / k)) by ring.
  by apply Rmult_le_compat_r.
Qed.

(** X3: for a shine width that is not 0 the Gaussian mask of the sweep
    lies in [0, 1] at every pixel, it is exactly 1 where the sweep map
    equals the position of the bar, and a pixel whose sweep-map value is
    not farther from that position than another's has a mask that is not
    smaller: the band peaks on the centre line and fades on both sides. *)
Theorem gauss_mask_peaks_at_the_bar cfg (W H : nat) (pos : R)
    (y x y' x' : nat) (m m' : R) :
  Shine.SHINE_WIDTH_FACTOR cfg ≠ 0 →
  Py.at2 (Shine.sweep_map cfg W H) y x = Some m →
  Py.at2 (Shine.sweep_map cfg W H) y' x' = Some m' →
  ∃ g g',
    Py.at2 (Shine.gauss_mask cfg W H pos) y x = Some g
    ∧ Py.at2 (Shine.gauss_mask cfg W H pos) y' x' = Some g'
    ∧ 0 <= g <= 1
    ∧ (m = pos → g = 1)
    ∧ (Rabs (m - pos) <= Rabs (m' - pos) → g' <= g).
Proof.
  intros _ Hm Hm'. rewrite !at2_gauss_mask, Hm, Hm'.
  set (k := Shine.shine_width_pixels cfg W / 2.5).
  exists (exp (- ((m - pos) / k) ^ 2)), (exp (- ((m' - pos) / k) ^ 2)).
  split; [done|]. split; [done|].
  assert (0 <= ((m - pos) / k) ^ 2) as Hsq by apply pow2_ge_0.
  split; [split|split].
  - left. apply exp_pos.
  - rewrite <-exp_0. apply exp_le. lra.
  - intros ->. replace (- ((pos - pos) / k) ^ 2) with 0; [apply exp_0|].
    unfold Rdiv. replace (pos - pos) with 0 by ring. rewrite Rmult_0_l.
    simpl. ring.
  - intros Hd. apply exp_le. apply Ropp_le_contravar.
    by apply band_exponent_monotone.
Qed.

Lemma gauss_mask_peaks_at_the_bar_witness :
  ∃ g g',
    Py.at2 (Shine.gauss_mask Shine.source_config 2 2 0) 0 0 = Some g
    ∧ Py.at2 (Shine.gauss_mask Shine.source_config 2 2 0) 1 1 = Some g'
    ∧ 0 <= g <= 1.
Proof.
  destruct (gauss_mask_peaks_at_the_bar Shine.source_config 2 2 0 0 0 1 1
              (Spec.sweep_map_at (-60) 0 0) (Spec.sweep_map_at (-60) 1 1))
    as (g & g' & Hg & Hg' & Hrange & _).
  - simpl. lra.
  - apply at2_sweep_map; lia.
  - apply at2_sweep_map; lia.
  - by exists g, g'.
Defined.

(** X4: over the frames of the animation window the bar starts at
    [sweep_start_pos] and never moves backwards or past [sweep_end_pos];
    with a positive width factor it moves strictly forward from frame to
    frame and stays strictly before [sweep_end_pos]. *)
Theorem bar_moves_forward cfg (W H : nat) (sweep_start_pos sweep_end_pos : R)
    (i j : Z) :
  Shine.sweep_range cfg W H = Some (sweep_start_pos, sweep_end_pos) →
  0 <= Shine.SHINE_WIDTH_FACTOR cfg →
  (Shine.ANIM_START_FRAME cfg ≤ i)%Z → (i ≤ j)%Z → (j < Shine.ANIM_END_FRAME cfg)%Z →
  let pos := λ k,
    Shine.current_pos sweep_start_pos sweep_end_pos
      (ease_out_quad (Shine.progress cfg k)) in
  pos (Shine.ANIM_START_FRAME cfg) = sweep_start_pos
  ∧ sweep_start_pos <= pos i
  ∧ pos i <= pos j
  ∧ pos j <= sweep_end_pos
  ∧ (0 < Shine.SHINE_WIDTH_FACTOR cfg →
     pos j < sweep_end_pos ∧ ((i < j)%Z → pos i < pos j)).
Proof.
  intros Hrange Hf Hi Hij Hj pos.
  destruct (sweep_range_inv _ _ _ _ _ Hrange)
    as (map_min & map_max & _ & _ & -> & -> & Hmm & HW & _).
  assert (0 < INR W) as HWpos by (apply lt_0_INR; lia).
  set (sw := INR W * Shine.SHINE_WIDTH_FACTOR cfg).
  assert (0 <= sw) as Hsw by (apply Rmult_le_pos; lra).
  destruct (shine_progress_range cfg i) as [Hpi0 Hpi1]; [lia|].
  destruct (shine_progress_range cfg j) as [Hpj0 Hpj1]; [lia|].
  destruct (shine_progress_monotone cfg i j Hi Hij Hj) as [Hmono Hstrict].
  pose proof (ease_out_quad_range (Shine.progress cfg i)) as Hei.
  pose proof (ease_out_quad_range (Shine.progress cfg j)) as Hej.
  pose proof (ease_out_quad_monotone _ _ Hmono) as Heij.
  assert (ease_out_quad (Shine.progress cfg j) < 1) as Hej1.
  { unfold ease_out_quad. nra. }
  unfold pos, Shine.current_pos. fold sw.
  set (dist := map_max + sw - (map_min - sw)).
  assert (0 <= dist) as Hdist by (unfold dist; lra).
  split; [|split; [|split; [|split]]].
  - unfold Shine.progress. rewrite Z.sub_diag. unfold ease_out_quad, Rdiv.
    rewrite Rmult_0_l. lra.
  - assert (0 <= ease_out_quad (Shine.progress cfg i) * dist)
      by (apply Rmult_le_pos; lra). lra.
  - assert (ease_out_quad (Shine.progress cfg i) * dist
            <= ease_out_quad (Shine.progress cfg j) * dist)
      by (apply Rmult_le_compat_r; lra). lra.
  - assert (ease_out_quad (Shine.progress cfg j) * dist <= 1 * dist)
      by (apply Rmult_le_compat_r; lra). unfold dist in *. lra.
  - intros Hfpos.
    assert (0 < sw) as Hswpos by (apply Rmult_lt_0_compat; lra).
    assert (0 < dist) as Hdpos by (unfold dist; lra). split.
    + assert (ease_out_quad (Shine.progress cfg j) * dist < 1 * dist)
        by (apply Rmult_lt_compat_r; lra). unfold dist in *. lra.
    + intros Hlt. specialize (Hstrict Hlt).
      assert (ease_out_quad (Shine.progress cfg i)
              < ease_out_quad (Shine.progress cfg j))
        by (unfold ease_out_quad; nra).
      assert (ease_out_quad (Shine.progress cfg i) * dist
              < ease_out_quad (Shine.progress cfg j) * dist)
        by (apply Rmult_lt_compat_r; lra). lra.
Qed.

Lemma bar_moves_forward_witness :
  ∃ s e,
    Shine.sweep_range Shine.source_config 2 2 = Some (s, e)
    ∧ s <= Shine.current_pos s e
             (ease_out_quad (Shine.progress Shine.source_config 20))
    ∧ Shine.current_pos s e (ease_out_quad (Shine.progress Shine.source_config 20))
      <= Shine.current_pos s e
           (ease_out_quad (Shine.progress Shine.source_config 30)).
Proof.
  destruct (sweep_range_is_Some Shine.source_config 2 2) as [[s e] Hrange];
    [lia..|].
  exists s, e. split; [done|].
  destruct (bar_moves_forward Shine.source_config 2 2 s e 20 30)
    as (_ & H1 & H2 & _).
  - done.
  - simpl. lra.
  - rewrite shine_source_ANIM_START_FRAME. lia.
  - lia.
  - rewrite shine_source_ANIM_END_FRAME. lia.
  - by split.
Defined.

(** X5: the sweep map is linear in the pixel coordinates, so its minimum
    and its maximum are taken at corners of the icon: with [c = cos(theta)]
    and [s = sin(theta)] the minimum is [min(0, (W-1)*c) + min(0, (H-1)*s)]
    and the maximum is [max(0, (W-1)*c) + max(0, (H-1)*s)], which gives
    the start and the end of the sweep in closed form. *)
Theorem sweep_extremes_at_corners cfg (W H : nat) :
  (0 < W)%nat → (0 < H)%nat →
  let c := cos (Shine.sweep_angle_rad cfg) in
  let s := sin (Shine.sweep_angle_rad cfg) in
  let map_min := Rmin 0 (INR (W - 1) * c) + Rmin 0 (INR (H - 1) * s) in
  let map_max := Rmax 0 (INR (W - 1) * c) + Rmax 0 (INR (H - 1) * s) in
  Py.np_min (Shine.sweep_map cfg W H) = Some map_min
  ∧ Py.np_max (Shine.sweep_map cfg W H) = Some map_max
  ∧ Shine.sweep_range cfg W H =
    Some (map_min - INR W * Shine.SHINE_WIDTH_FACTOR cfg,
          map_max + INR W * Shine.SHINE_WIDTH_FACTOR cfg).
Proof.
  intros HW HH c s map_min map_max.
  assert (∀ y x, (y < H)%nat → (x < W)%nat →
            Py.at2 (Shine.sweep_map cfg W H) y x = Some (INR x * c + INR y * s))
    as Hat by (intros; by apply at2_sweep_map).
  assert (∀ (n k : nat) (v : R), (k < n)%nat →
            Rmin 0 (INR (n - 1) * v) <= INR k * v <= Rmax 0 (INR (n - 1) * v))
    as Hbound.
  { intros n k v Hk.
    assert (0 <= INR k) by apply pos_INR.
    assert (INR k <= INR (n - 1)) by (apply le_INR; lia).
    pose proof (Rmin_l 0 (INR (n - 1) * v)). pose proof (Rmin_r 0 (INR (n - 1) * v)).
    pose proof (Rmax_l 0 (INR (n - 1) * v)). pose proof (Rmax_r 0 (INR (n - 1) * v)).
    destruct (Rle_dec 0 v); split; nra. }
  assert (∀ (n : nat) (v : R), (0 < n)%nat →
            ∃ k, (k < n)%nat ∧ INR k * v = Rmin 0 (INR (n - 1) * v)) as Hlo.
  { intros n v Hn. unfold Rmin. destruct (Rle_dec 0 (INR (n - 1) * v)).
    - exists 0%nat. split; [lia|]. simpl. lra.
    - exists (n - 1)%nat. split; [lia|done]. }
  assert (∀ (n : nat) (v : R), (0 < n)%nat →
            ∃ k, (k < n)%nat ∧ INR k * v = Rmax 0 (INR (n - 1) * v)) as Hhi.
  { intros n v Hn. unfold Rmax. destruct (Rle_dec 0 (INR (n - 1) * v)).
    - exists (n - 1)%nat. split; [lia|done].
    - exists 0%nat. split; [lia|]. simpl. lra. }
  destruct (np_min_max_is_Some _ _ _ _ (Hat 0%nat 0%nat HH HW))
    as [[lo Hmin] [hi Hmax]].
  destruct (np_min_spec _ _ Hmin) as [Hlo_bound (y0 & x0 & Hlo_at)].
  destruct (np_max_spec _ _ Hmax) as [Hhi_bound (y1 & x1 & Hhi_at)].
  assert (lo = map_min) as ->.
  { destruct (at2_sweep_map_inv _ _ _ _ _ _ Hlo_at) as (Hy0 & Hx0 & _).
    rewrite Hat in Hlo_at by done. injection Hlo_at as Hlo_eq.
    destruct (Hlo W c HW) as (xc & Hxc & Hxc_eq).
    destruct (Hlo H s HH) as (yc & Hyc & Hyc_eq).
    pose proof (Hlo_bound _ _ _ (Hat yc xc Hyc Hxc)).
    pose proof (Hbound W x0 c Hx0). pose proof (Hbound H y0 s Hy0).
    unfold map_min. lra. }
  assert (hi = map_max) as ->.
  { destruct (at2_sweep_map_inv _ _ _ _ _ _ Hhi_at) as (Hy1 & Hx1 & _).
    rewrite Hat in Hhi_at by done. injection Hhi_at as Hhi_eq.
    destruct (Hhi W c HW) as (xc & Hxc & Hxc_eq).
    destruct (Hhi H s HH) as (yc & Hyc & Hyc_eq).
    pose proof (Hhi_bound _ _ _ (Hat yc xc Hyc Hxc)).
    pose proof (Hbound W x1 c Hx1). pose proof (Hbound H y1 s Hy1).
    unfold map_max. lra. }
  split; [done|]. split; [done|].
  unfold Shine.sweep_range. rewrite Hmin, Hmax. done.
Qed.

Lemma sweep_extremes_at_corners_witness :
  Py.np_min (Shine.sweep_map Shine.source_config 3 2) =
  Some (Rmin 0 (INR 2 * cos (Shine.sweep_angle_rad Shine.source_config))
        + Rmin 0 (INR 1 * sin (Shine.sweep_angle_rad Shine.source_config))).
Proof.
  destruct (sweep_extremes_at_corners Shine.source_config 3 2) as [Hmin _];
    [lia..|]. exact Hmin.
Defined.

(** ** The frames of the sweep *)

Lemma animated_pixel (max_lightness : list Z → list Z) cfg
    (icon : list (list (list Z))) (sweep_start sweep_end : R) (i : Z)
    (y x c : nat) (px : list Z) (shine_value : Z) :
  Shine.animating cfg i = true →
  Py.at2 icon y x = Some px →
  (x < Shine.icon_W icon)%nat →
  length px = 4%nat →
  (c < 3)%nat →
  max_lightness (take 3 px) !! c = Some shine_value →
  Py.at3 (Shine.final_frame_float max_lightness cfg icon sweep_start sweep_end i)
    y x c =
  Some (let g :=
          exp (- ((Spec.sweep_map_at (Shine.SHINE_ANGLE_DEG cfg) x y
                   - Shine.current_pos sweep_start sweep_end
                       (ease_out_quad (Shine.progress cfg i)))
                  / (Shine.shine_width_pixels cfg (Shine.icon_W icon) / 2.5)) ^ 2) in
        let icon_alpha := IZR (nth 3 px 0%Z) / 255.0 in
        IZR shine_value / 255.0 * (g * icon_alpha)
        + IZR (nth c px 0%Z) / 255.0 * icon_alpha * (1 - g * icon_alpha)).
Proof.
  intros Hi Hpx Hx Hlen Hc Hsv.
  assert (y < Shine.icon_H icon)%nat as Hy.
  { unfold Py.at2 in Hpx. destruct (icon !! y) eqn:E; [|done].
    by apply lookup_lt_Some in E. }
  unfold Shine.final_frame_float. rewrite Hi, at3_composite.
  rewrite (at3_shine_bgr_float _ _ _ _ _ px shine_value) by done.
  rewrite at3_stack3 by done.
  rewrite at2_zip_2d, at2_gauss_mask, at2_sweep_map by done.
  rewrite (at2_icon_alpha_float _ _ _ px) by done.
  rewrite (at3_base_image _ _ _ _ px) by (done || lia). done.
Qed.

Lemma static_pixel (max_lightness : list Z → list Z) cfg
    (icon : list (list (list Z))) (sweep_start sweep_end : R) (i : Z)
    (y x c : nat) (px : list Z) :
  Shine.animating cfg i = false →
  Py.at2 icon y x = Some px → length px = 4%nat → (c < 3)%nat →
  Py.at3 (Shine.final_frame_float max_lightness cfg icon sweep_start sweep_end i)
    y x c =
  Some (IZR (nth c px 0%Z) / 255.0 * (IZR (nth 3 px 0%Z) / 255.0)).
Proof.
  intros Hi Hpx Hlen Hc. unfold Shine.final_frame_float. rewrite Hi.
  apply at3_base_image; [done..|lia].
Qed.

Lemma at3_final_frame_uint8 max_lightness cfg icon s e i y x c :
  Py.at3 (Shine.final_frame_uint8 max_lightness cfg icon s e i) y x c =
  (λ v, Py.astype_uint8 (Py.clip (v * 255) 0 255))
    <$> Py.at3 (Shine.final_frame_float max_lightness cfg icon s e i) y x c.
Proof. unfold Shine.final_frame_uint8, Shine.to_uint8. apply at3_map_3d. Qed.

Lemma to_uint8_in_range (v : R) :
  0 <= v <= 1 →
  Py.astype_uint8 (Py.clip (v * 255) 0 255) = Zfloor (v * 255)
  ∧ (0 ≤ Zfloor (v * 255) ≤ 255)%Z.
Proof.
  intros [H0 H1].
  assert (Py.clip (v * 255) 0 255 = v * 255) as ->.
  { unfold Py.clip. rewrite Rmax_left by lra. apply Rmin_left. lra. }
  assert (0 ≤ Zfloor (v * 255))%Z as Hlo.
  { apply (Zfloor_lub 0). lra. }
  assert (Zfloor (v * 255) ≤ 255)%Z as Hhi.
  { pose proof (Zfloor_le (v * 255) (IZR 255)) as Hle.
    rewrite ZfloorZ in Hle. apply Hle. lra. }
  split; [|lia]. unfold Py.astype_uint8, Py.int.
  destruct (Rle_dec 0 (v * 255)); [|lra]. apply Z.mod_small. lia.
Qed.

Lemma exp_nonpos_range (x : R) : x <= 0 → 0 < exp x <= 1.
Proof.
  intros Hx. split; [apply exp_pos|].
  apply Rle_trans with (exp 0); [by apply exp_le|]. rewrite exp_0. lra.
Qed.

Lemma is_uint8_unit (v : Z) : Py.is_uint8 v → 0 <= IZR v / 255.0 <= 1.
Proof.
  intros [Hlo Hhi]. apply IZR_le in Hlo.
  assert (v ≤ 255)%Z as Hhi' by lia. apply IZR_le in Hhi'. lra.
Qed.

(** X6: a pixel of the icon that is fully transparent (alpha 0) is written
    as 0 in every colour channel of every frame, animated or not: the shine
    never shows outside the silhouette of the icon. *)
Theorem transparent_pixels_stay_black (max_lightness : list Z → list Z) cfg
    (icon : list (list (list Z))) (sweep_start sweep_end : R) (i : Z)
    (y x c : nat) (px : list Z) (shine_value : Z) :
  Py.at2 icon y x = Some px →
  (x < Shine.icon_W icon)%nat →
  length px = 4%nat →
  nth 3 px 0%Z = 0%Z →
  (c < 3)%nat →
  max_lightness (take 3 px) !! c = Some shine_value →
  Py.at3 (Shine.final_frame_float max_lightness cfg icon sweep_start sweep_end i)
    y x c = Some 0
  ∧ Py.at3 (Shine.final_frame_uint8 max_lightness cfg icon sweep_start sweep_end i)
      y x c = Some 0%Z.
Proof.
  intros Hpx Hx Hlen Halpha Hc Hsv.
  assert (Py.at3 (Shine.final_frame_float max_lightness cfg icon
                    sweep_start sweep_end i) y x c = Some 0) as Hfloat.
  { destruct (Shine.animating cfg i) eqn:Hi.
    - rewrite (animated_pixel _ _ _ _ _ _ _ _ _ px shine_value) by done.
      rewrite Halpha. f_equal. simpl. lra.
    - rewrite (static_pixel _ _ _ _ _ _ _ _ _ px) by done.
      rewrite Halpha. f_equal. lra. }
  split; [done|]. rewrite at3_final_frame_uint8, Hfloat. simpl. f_equal.
  destruct (to_uint8_in_range 0) as [-> _]; [lra|].
  rewrite Rmult_0_l. apply (ZfloorZ 0).
Qed.

Lemma transparent_pixels_stay_black_witness :
  Py.at3 (Shine.final_frame_uint8 example_max_lightness Shine.source_config
            [[[10; 20; 30; 0]]]%Z 0 1 20) 0 0 1 = Some 0%Z.
Proof.
  destruct (transparent_pixels_stay_black example_max_lightness
              Shine.source_config [[[10; 20; 30; 0]]]%Z 0 1 20 0 0 1
              [10; 20; 30; 0]%Z 255) as [_ H];
    [reflexivity|simpl; lia|reflexivity|reflexivity|lia|reflexivity|exact H].
Defined.

(** X7: for a shine width that is not 0 and 8-bit icon and shine values
    the blended pixel of every frame lies in [0, 1], between the
    premultiplied base and the shine value; so the clip to [0, 255] and the
    conversion to [uint8] change nothing: the byte written is the floor of
    255 times the blended value, within 0..255. *)
Theorem blended_pixel_needs_no_clipping (max_lightness : list Z → list Z) cfg
    (icon : list (list (list Z))) (sweep_start sweep_end : R) (i : Z)
    (y x c : nat) (px : list Z) (shine_value : Z) :
  Shine.SHINE_WIDTH_FACTOR cfg ≠ 0 →
  Py.at2 icon y x = Some px →
  (x < Shine.icon_W icon)%nat →
  length px = 4%nat →
  Forall Py.is_uint8 px →
  (c < 3)%nat →
  max_lightness (take 3 px) !! c = Some shine_value →
  Py.is_uint8 shine_value →
  let base := IZR (nth c px 0%Z) / 255.0 * (IZR (nth 3 px 0%Z) / 255.0) in
  let shine := IZR shine_value / 255.0 in
  ∃ v : R,
    Py.at3 (Shine.final_frame_float max_lightness cfg icon sweep_start sweep_end i)
      y x c = Some v
    ∧ 0 <= v <= 1
    ∧ Rmin base shine <= v <= Rmax base shine
    ∧ Py.at3 (Shine.final_frame_uint8 max_lightness cfg icon sweep_start sweep_end i)
        y x c = Some (Zfloor (v * 255))
    ∧ (0 ≤ Zfloor (v * 255) ≤ 255)%Z.
Proof.
  intros _ Hpx Hx Hlen H8 Hc Hsv Hs8 base shine.
  assert (0 <= IZR (nth c px 0%Z) / 255.0 <= 1) as Hcol.
  { apply is_uint8_unit. rewrite Forall_forall in H8. apply H8.
    apply list_elem_of_In, nth_In. lia. }
  assert (0 <= IZR (nth 3 px 0%Z) / 255.0 <= 1) as Ha.
  { apply is_uint8_unit. rewrite Forall_forall in H8. apply H8.
    apply list_elem_of_In, nth_In. lia. }
  pose proof (is_uint8_unit _ Hs8) as Hshine. fold shine in Hshine.
  assert (0 <= base <= 1) as Hbase by (unfold base; nra).
  pose proof (Rmin_l base shine). pose proof (Rmin_r base shine).
  pose proof (Rmax_l base shine). pose proof (Rmax_r base shine).
  assert (∃ v, Py.at3 (Shine.final_frame_float max_lightness cfg icon
                         sweep_start sweep_end i) y x c = Some v
               ∧ 0 <= v <= 1 ∧ Rmin base shine <= v <= Rmax base shine)
    as (v & Hv & Hv01 & Hvb).
  { destruct (Shine.animating cfg i) eqn:Hi.
    - rewrite (animated_pixel _ _ _ _ _ _ _ _ _ px shine_value) by done.
      eexists. split; [reflexivity|]. simpl.
      set (g := exp _).
      assert (0 < g <= 1) as Hg.
      { unfold g. apply exp_nonpos_range.
        match goal with |- - (?q * (?q * 1)) <= 0 =>
          pose proof (Rle_0_sqr q) as Hq; unfold Rsqr in Hq end. lra. }
      set (al := g * (IZR (nth 3 px 0%Z) / 255.0)).
      assert (0 <= al <= 1) as Hal by (unfold al; nra).
      fold shine. fold base.
      assert (shine * al + base * (1 - al) = base + al * (shine - base)) as ->
        by ring.
      split; split; nra.
    - rewrite (static_pixel _ _ _ _ _ _ _ _ _ px) by done.
      eexists. split; [reflexivity|]. fold base. split; [done|]. lra. }
  exists v. split; [done|]. split; [done|]. split; [done|].
  destruct (to_uint8_in_range v Hv01) as [Hbyte Hrange].
  split; [|done]. by rewrite at3_final_frame_uint8, Hv, <-Hbyte.
Qed.

Lemma blended_pixel_needs_no_clipping_witness :
  ∃ v : R,
    Py.at3 (Shine.final_frame_float example_max_lightness Shine.source_config
              example_icon_2x3 (-1) 3 30) 1 2 0 = Some v
    ∧ 0 <= v <= 1.
Proof.
  destruct (blended_pixel_needs_no_clipping example_max_lightness
              Shine.source_config example_icon_2x3 (-1) 3 30 1 2 0
              [130; 140; 150; 64]%Z 255) as (v & Hv & Hrange & _).
  - simpl. lra.
  - reflexivity.
  - simpl. lia.
  - reflexivity.
  - repeat constructor; done.
  - lia.
  - reflexivity.
  - by split.
  - by exists v.
Defined.

(** ** Size of the frames and inputs without frames *)

Lemma length_concat_shape2 {A} (h w : nat) (a : list (list A)) :
  Py.has_shape2 h w a → length (concat a) = (h * w)%nat.
Proof.
  intros [<- Hall]. induction Hall as [|row rest Hrow _ IH]; [done|].
  simpl. rewrite length_app, IH, Hrow. done.
Qed.

Lemma length_flat_shape3 {A} (h w c : nat) (a : list (list (list A))) :
  Py.has_shape3 h w c a → length (concat (concat a)) = (h * w * c)%nat.
Proof.
  intros Ha. apply has_shape3_shape2 in Ha as [Ha Hpx].
  apply (length_concat_shape2 (h * w) c). split.
  - by apply length_concat_shape2.
  - apply Forall_forall. intros px Hin.
    apply elem_of_concat_at2 in Hin as (y & x & Hyx). by apply (Hpx y x).
Qed.

Lemma has_shape3_map_2d_px {A B} (f : A → list B) (h w c : nat)
    (P : A → Prop) (a : list (list A)) :
  Py.has_shape2 h w a →
  (∀ y x v, Py.at2 a y x = Some v → P v) →
  (∀ v, P v → length (f v) = c) →
  Py.has_shape3 h w c (Py.map_2d f a).
Proof.
  intros Ha HP Hf. apply has_shape3_shape2. split.
  - by apply has_shape2_map_2d.
  - intros y x px Hpx. rewrite at2_map_2d in Hpx.
    destruct (Py.at2 a y x) as [v|] eqn:Hv; [|done]. simpl in Hpx.
    injection Hpx as <-. apply Hf, (HP y x). done.
Qed.

Lemma icon_W_shape {A} (h w : nat) (icon : list (list (list A))) :
  Py.has_shape2 h w icon → (0 < h)%nat →
  match icon with [] => 0%nat | row :: _ => length row end = w.
Proof.
  intros [Hlen Hall] Hh. destruct icon as [|row rest]; simpl in *; [lia|].
  by apply Forall_cons in Hall as [-> _].
Qed.

Lemma has_shape3_final_frame_float (max_lightness : list Z → list Z) cfg
    (icon : list (list (list Z))) (h w : nat) (s e : R) (i : Z) :
  Py.has_shape3 h w 4 icon → (0 < h)%nat →
  (∀ px, length px = 3%nat → length (max_lightness px) = 3%nat) →
  Py.has_shape3 h w 3 (Shine.final_frame_float max_lightness cfg icon s e i).
Proof.
  intros Hicon Hh Hml.
  apply has_shape3_shape2 in Hicon as [Hicon Hpx].
  assert (Shine.icon_H icon = h) as HH by (by destruct Hicon).
  assert (Shine.icon_W icon = w) as HW by (by apply (icon_W_shape h w)).
  assert (Py.has_shape3 h w 3 (Py.map_2d (take 3) icon)) as Hbgr.
  { apply (has_shape3_map_2d_px _ _ _ _ (λ px, length px = 4%nat)); [done..|].
    intros px Hlen. rewrite length_take. lia. }
  assert (Py.has_shape2 h w (Shine.icon_alpha_float icon)) as Halpha
    by (by apply has_shape2_map_2d).
  assert (∀ a : list (list R), Py.has_shape2 h w a →
            Py.has_shape3 h w 3 (Py.stack3 a)) as Hstack.
  { intros a Ha. by apply (has_shape3_map_2d_px _ _ _ _ (λ _, True)). }
  assert (Py.has_shape3 h w 3 (Shine.base_image icon)) as Hbase.
  { unfold Shine.base_image, Shine.icon_bgr_float, Shine.icon_alpha_3c.
    apply has_shape3_zip_3d; [by apply has_shape3_map_3d|by apply Hstack]. }
  unfold Shine.final_frame_float. destruct (Shine.animating cfg i); [|done].
  unfold Shine.composite.
  assert (Py.has_shape3 h w 3 (Shine.shine_bgr_float max_lightness icon)).
  { unfold Shine.shine_bgr_float, Shine.shine_bgr_uint8.
    apply has_shape3_map_3d. apply has_shape3_shape2 in Hbgr as [Hbgr2 Hbgr3].
    apply (has_shape3_map_2d_px _ _ _ _ (λ px, length px = 3%nat)); [done| |done].
    intros y x px. apply Hbgr3. }
  assert (Py.has_shape3 h w 3
            (Py.stack3
               (Py.zip_2d Rmult
                  (Shine.gauss_mask cfg (Shine.icon_W icon) (Shine.icon_H icon)
                     (Shine.current_pos s e (ease_out_quad (Shine.progress cfg i))))
                  (Shine.icon_alpha_float icon)))).
  { apply Hstack, has_shape2_zip_2d; [|done]. unfold Shine.gauss_mask.
    rewrite HH, HW. do 2 apply has_shape2_map_2d. apply has_shape2_sweep_map. }
  apply has_shape3_zip_3d; [by apply has_shape3_zip_3d|].
  apply has_shape3_zip_3d; [done|]. by apply has_shape3_map_3d.
Qed.

Lemma all_uint8_to_uint8 (frame : list (list (list R))) :
  Py.all_uint8 (Shine.to_uint8 frame).
Proof.
  unfold Py.all_uint8, Shine.to_uint8, Py.map_3d.
  apply Forall_fmap, Forall_true. intros row. simpl.
  apply Forall_fmap, Forall_true. intros px. simpl.
  apply Forall_fmap, Forall_true. intros v. simpl.
  unfold Py.is_uint8, Py.astype_uint8. apply Z.mod_pos_bound. lia.
Qed.

Lemma add_default_alpha_shape (channels h w : nat) (a : list (list (list Z))) :
  Py.has_shape3 h w channels a → channels = 3%nat ∨ channels = 4%nat →
  ∃ icon,
    Shine.add_default_alpha (Shine.Color3D channels a) = Some icon
    ∧ Py.has_shape3 h w 4 icon.
Proof.
  intros Ha [->| ->].
  - unfold Shine.add_default_alpha, Shine.cvtColor_BGR2BGRA. simpl.
    eexists. split; [reflexivity|]. rewrite map_2d_compose.
    apply has_shape3_shape2 in Ha as [Ha Hpx].
    apply (has_shape3_map_2d_px _ _ _ _ (λ px, length px = 3%nat)); [done..|].
    intros px Hlen. simpl. rewrite length_insert, length_app, Hlen. done.
  - by exists a.
Qed.

(** X8: every frame written for a three- or four-channel image of H rows
    and W columns is an (H, W, 3) array of values in 0..255, so each frame
    is exactly H*W*3 bytes, the frame size declared to the encoder; the
    colour transform is only asked to return three channels. *)
Theorem sweep_frames_have_the_declared_size (max_lightness : list Z → list Z) cfg
    (channels h w : nat) (a : list (list (list Z)))
    (frames : list (list (list (list Z)))) (k : nat)
    (frame : list (list (list Z))) :
  Py.has_shape3 h w channels a →
  channels = 3%nat ∨ channels = 4%nat →
  (∀ px, length px = 3%nat → length (max_lightness px) = 3%nat) →
  Shine.create_shine_animation max_lightness cfg (Shine.Color3D channels a)
  = Some frames →
  frames !! k = Some frame →
  Py.has_shape3 h w 3 frame
  ∧ Py.all_uint8 frame
  ∧ length (concat (concat frame)) = (h * w * 3)%nat.
Proof.
  intros Ha Hch Hml Hrun Hk.
  destruct (add_default_alpha_shape channels h w a Ha Hch) as (icon & Hicon & Hshape).
  destruct (create_shine_animation_inv _ _ _ _ _ Hicon Hrun)
    as (s & e & Hrange & -> & _).
  destruct (sweep_range_inv _ _ _ _ _ Hrange) as (_ & _ & _ & _ & _ & _ & _ & _ & HH).
  assert (0 < h)%nat as Hh.
  { apply has_shape3_shape2 in Hshape as [[Hlen _] _].
    unfold Shine.icon_H in HH. lia. }
  rewrite list_lookup_fmap in Hk.
  destruct (Py.range _ !! k) as [i|]; [|done]. simpl in Hk. injection Hk as <-.
  assert (Py.has_shape3 h w 3
            (Shine.final_frame_uint8 max_lightness cfg icon s e i)) as Hframe.
  { unfold Shine.final_frame_uint8, Shine.to_uint8.
    by apply has_shape3_map_3d, has_shape3_final_frame_float. }
  split; [done|]. split; [apply all_uint8_to_uint8|].
  by apply length_flat_shape3.
Qed.

Lemma sweep_frames_have_the_declared_size_witness :
  ∃ frames frame,
    Shine.create_shine_animation example_max_lightness Shine.source_config
      (Shine.Color3D 3 example_bgr) = Some frames
    ∧ frames !! 20%nat = Some frame
    ∧ length (concat (concat frame)) = 6%nat.
Proof.
  destruct (shine_frames example_max_lightness Shine.source_config 3 example_bgr)
    as (frames & Hrun & Hlen); [lia|simpl; lia..|].
  rewrite shine_source_TOTAL_FRAMES in Hlen.
  destruct (lookup_lt_is_Some_2 frames 20) as [frame Hframe]; [lia|].
  exists frames, frame. split; [done|]. split; [done|].
  destruct (sweep_frames_have_the_declared_size example_max_lightness
              Shine.source_config 3 1 2 example_bgr frames 20 frame)
    as (_ & _ & Hsize).
  - split; [reflexivity|]. repeat constructor.
  - by left.
  - done.
  - done.
  - done.
  - exact Hsize.
Defined.

(** X9: when the frame numbers are defined, the run produces frames
    exactly for an 8-bit colour image of at least three channels with at
    least one row and one column.  A grayscale image, read as a 2-D array,
    fails at [icon.shape[2]]; a colour array of fewer than three channels
    fails at [icon[:, :, 3]]; a 16-bit image and an image without pixels
    fail at [cv2.cvtColor]; in each of these cases no frame is written. *)
Theorem frames_only_for_nonempty_colour_image (max_lightness : list Z → list Z)
    cfg (img : Shine.imread_result) :
  Shine.frame_numbers_defined cfg = true →
  is_Some (Shine.create_shine_animation max_lightness cfg img)
  ↔ ∃ channels a,
      img = Shine.Color3D channels a
      ∧ (3 ≤ channels)%nat
      ∧ (0 < Shine.icon_H a)%nat ∧ (0 < Shine.icon_W a)%nat.
Proof.
  intros _. split.
  - intros [frames Hrun].
    destruct (Shine.add_default_alpha img) as [icon|] eqn:Hicon;
      [|by unfold Shine.create_shine_animation in Hrun; rewrite Hicon in Hrun].
    destruct (create_shine_animation_inv _ _ _ _ _ Hicon Hrun)
      as (s & e & Hrange & _ & Hch & Hdepth).
    destruct img as [g|channels a|channels a]; [done| |done].
    exists channels, a. split; [done|].
    destruct (add_default_alpha_extent channels a) as (icon' & Hicon' & HH & HW).
    rewrite Hicon in Hicon'. injection Hicon' as <-.
    destruct (sweep_range_inv _ _ _ _ _ Hrange)
      as (_ & _ & _ & _ & _ & _ & _ & HWpos & HHpos).
    split; [|lia].
    unfold Shine.alpha_channel_missing, Shine.icon_channels in Hch. simpl in Hch.
    destruct (decide (channels = 3%nat)); [lia|].
    apply bool_decide_eq_false in Hch. lia.
  - intros (channels & a & -> & Hch & HH & HW).
    destruct (shine_frames max_lightness cfg channels a Hch HH HW)
      as (frames & -> & _).
    done.
Qed.

Lemma frames_only_for_nonempty_colour_image_witness :
  ¬ is_Some (Shine.create_shine_animation example_max_lightness
               Shine.source_config
               (Shine.Color3D_uint16 4 [[[1000; 2000; 3000; 65535]]]%Z))
  ∧ ¬ is_Some (Shine.create_shine_animation example_max_lightness
                 Shine.source_config (Shine.Color3D 2 [[[10; 255]]]%Z)).
Proof.
  split; intros Hrun;
    apply (frames_only_for_nonempty_colour_image example_max_lightness
             Shine.source_config) in Hrun as (channels & a & Himg & Hch & _);
    try reflexivity.
  - discriminate Himg.
  - injection Himg as <- _. lia.
Defined.

(** ** The frames of the scroll *)

Lemma at2_scroll_composite (bg canvas : list (list (list Z)))
    (alpha : list (list R)) y x b g r cb cg cr ca a :
  Py.at2 bg y x = Some [b; g; r] →
  Py.at2 canvas y x = Some [cb; cg; cr; ca] →
  Py.at2 alpha y x = Some a →
  Py.at2 (Scroll.composite bg canvas alpha) y x =
  Some [Py.astype_uint8 (IZR b * (1 - a) + IZR cb * a);
        Py.astype_uint8 (IZR g * (1 - a) + IZR cg * a);
        Py.astype_uint8 (IZR r * (1 - a) + IZR cr * a)].
Proof.
  intros Hb Hc Ha. unfold Scroll.composite.
  rewrite !at2_blend_channel, !at2_channel, Hb, Hc, Ha. done.
Qed.

Lemma at2_combined_alpha (canvas : list (list (list Z)))
    (mask : list (list (list R))) y x cpx mpx :
  Py.at2 canvas y x = Some cpx → Py.at2 mask y x = Some mpx →
  Py.at2 (Scroll.combined_alpha canvas mask) y x =
  Some (IZR (nth 3 cpx 0%Z) / 255.0 * nth 0 mpx 0).
Proof.
  intros Hc Hm. unfold Scroll.combined_alpha.
  by rewrite at2_zip_2d, !at2_map_2d, at2_channel, Hc, Hm.
Qed.

Lemma render_frame_pixels cfg (text : list (list (list Z))) (th tw : nat)
    (s_actual_h text_block_rendered_height : Z)
    (mask : list (list (list R))) (frame_idx : Z) (b g r : Z) :
  Py.has_shape3 th tw 4 text →
  Py.has_shape3 (Z.to_nat (Scroll.FRAME_HEIGHT cfg))
    (Z.to_nat (Scroll.FRAME_WIDTH cfg)) 1 mask →
  Scroll.BACKGROUND_COLOR_CV cfg = [b; g; r] →
  let y :=
    Scroll.current_y_pil_top cfg s_actual_h text_block_rendered_height
      (ease_in_out_cubic (Scroll.progress cfg frame_idx)) in
  ∃ canvas frame,
    Scroll.temp_scrolled_text_canvas_bgra cfg text y = Some canvas
    ∧ Scroll.render_frame cfg text s_actual_h text_block_rendered_height mask
        frame_idx = Some frame
    ∧ Py.has_shape2 (Z.to_nat (Scroll.FRAME_HEIGHT cfg))
        (Z.to_nat (Scroll.FRAME_WIDTH cfg)) frame
    ∧ ∀ row col : nat,
        (row < Z.to_nat (Scroll.FRAME_HEIGHT cfg))%nat →
        (col < Z.to_nat (Scroll.FRAME_WIDTH cfg))%nat →
        ∃ cb cg cr ca m,
          Py.at2 canvas row col = Some [cb; cg; cr; ca]
          ∧ Py.at2 mask row col = Some [m]
          ∧ Py.at2 frame row col =
            Some (let a := IZR ca / 255.0 * m in
                  [Py.astype_uint8 (IZR b * (1 - a) + IZR cb * a);
                   Py.astype_uint8 (IZR g * (1 - a) + IZR cg * a);
                   Py.astype_uint8 (IZR r * (1 - a) + IZR cr * a)]).
Proof.
  intros Htext Hmask Hbg y.
  destruct (paste_canvas_spec cfg text th tw y Htext) as (canvas & Hcanvas & Hcs & _).
  set (FH := Z.to_nat (Scroll.FRAME_HEIGHT cfg)) in *.
  set (FW := Z.to_nat (Scroll.FRAME_WIDTH cfg)) in *.
  pose proof Hcs as Hcs'. apply has_shape3_shape2 in Hcs' as [Hc2 Hcpx].
  pose proof Hmask as Hmask'. apply has_shape3_shape2 in Hmask' as [Hm2 Hmpx].
  set (bg := Scroll.full_bgr (Scroll.FRAME_HEIGHT cfg) (Scroll.FRAME_WIDTH cfg)
               (Scroll.BACKGROUND_COLOR_CV cfg)).
  assert (Py.has_shape2 FH FW bg) as Hbg2 by apply has_shape2_replicate.
  assert (Py.has_shape2 FH FW (Scroll.combined_alpha canvas mask)) as Hca2.
  { unfold Scroll.combined_alpha, Scroll.channel.
    apply has_shape2_zip_2d; by repeat apply has_shape2_map_2d. }
  exists canvas, (Scroll.composite bg canvas (Scroll.combined_alpha canvas mask)).
  split; [done|]. split.
  { unfold Scroll.render_frame. fold y. rewrite Hcanvas. done. }
  split.
  { unfold Scroll.composite.
    repeat (apply has_shape2_blend_channel
            || (unfold Scroll.channel; apply has_shape2_map_2d)); done. }
  intros row col Hrow Hcol.
  destruct (has_shape2_at2 _ _ _ row col Hc2 Hrow Hcol) as [cpx Hcpx_at].
  destruct (has_shape2_at2 _ _ _ row col Hm2 Hrow Hcol) as [mpx Hmpx_at].
  pose proof (Hcpx _ _ _ Hcpx_at) as Hl4. pose proof (Hmpx _ _ _ Hmpx_at) as Hl1.
  destruct cpx as [|cb [|cg [|cr [|ca [|??]]]]]; try done.
  destruct mpx as [|m [|??]]; try done.
  exists cb, cg, cr, ca, m. split; [done|]. split; [done|].
  eapply at2_scroll_composite; [|exact Hcpx_at|].
  - unfold bg, Scroll.full_bgr. rewrite at2_replicate by done. by rewrite Hbg.
  - by rewrite (at2_combined_alpha _ _ _ _ _ _ Hcpx_at Hmpx_at).
Qed.

Lemma has_shape3_feathered_mask
    (GaussianBlur : list (list Z) → Z * Z → R → list (list Z)) cfg :
  (∀ src ksize sigma h w,
     Py.has_shape2 h w src → Py.has_shape2 h w (GaussianBlur src ksize sigma)) →
  Py.has_shape3 (Z.to_nat (Scroll.FRAME_HEIGHT cfg))
    (Z.to_nat (Scroll.FRAME_WIDTH cfg)) 1
    (Scroll.feathered_mask_normalized GaussianBlur cfg).
Proof.
  intros Hblur.
  unfold Scroll.feathered_mask_normalized, Scroll.feathered_mask_cv,
    Scroll.create_feathered_mask.
  apply has_shape3_shape2. split.
  - do 2 apply has_shape2_map_2d. apply Hblur, has_shape2_rectangle.
    apply has_shape2_replicate.
  - intros row col px Hpx. rewrite at2_map_2d in Hpx.
    destruct (Py.at2 _ row col); [|done]. simpl in Hpx. by injection Hpx as <-.
Qed.

(** X10: every frame the scroll hands to the video writer has the height
    and the width the writer was opened with and three channels of values
    in 0..255, so it is [FRAME_HEIGHT * FRAME_WIDTH * 3] bytes: no frame is
    of a size the writer would drop.  The blur is only asked to keep the
    shape of the mask. *)
Theorem scroll_frames_have_the_writer_size
    (GaussianBlur : list (list Z) → Z * Z → R → list (list Z)) cfg
    (text : list (list (list Z))) (th tw : nat)
    (s_actual_h text_block_rendered_height : Z) (b g r : Z)
    (frames : list (list (list (list Z)))) (k : nat)
    (frame : list (list (list Z))) :
  (∀ src ksize sigma h w,
     Py.has_shape2 h w src → Py.has_shape2 h w (GaussianBlur src ksize sigma)) →
  Py.has_shape3 th tw 4 text →
  Scroll.BACKGROUND_COLOR_CV cfg = [b; g; r] →
  Scroll.main GaussianBlur cfg text s_actual_h text_block_rendered_height
  = Some frames →
  frames !! k = Some frame →
  let FH := Z.to_nat (Scroll.FRAME_HEIGHT cfg) in
  let FW := Z.to_nat (Scroll.FRAME_WIDTH cfg) in
  Py.has_shape3 FH FW 3 frame
  ∧ Py.all_uint8 frame
  ∧ length (concat (concat frame)) = (FH * FW * 3)%nat.
Proof.
  intros Hblur Htext Hbg Hmain Hk FH FW.
  pose proof (main_frames GaussianBlur _ _ _ _ frames k frame Hmain Hk) as Hrender.
  destruct (render_frame_pixels cfg text th tw s_actual_h
              text_block_rendered_height
              (Scroll.feathered_mask_normalized GaussianBlur cfg) (Z.of_nat k)
              b g r Htext (has_shape3_feathered_mask GaussianBlur cfg Hblur) Hbg)
    as (canvas & frame' & _ & Hframe & Hshape & Hpix).
  rewrite Hrender in Hframe. injection Hframe as <-.
  assert (∀ row col px, Py.at2 frame row col = Some px →
            length px = 3%nat ∧ Forall Py.is_uint8 px) as Hpx3.
  { intros row col px Hpx. destruct (at2_lt _ _ _ _ _ _ Hshape Hpx) as [Hrow Hcol].
    destruct (Hpix row col Hrow Hcol) as (cb & cg & cr & ca & m & _ & _ & Hf).
    rewrite Hf in Hpx. injection Hpx as <-. split; [done|].
    repeat constructor; unfold Py.is_uint8, Py.astype_uint8;
      apply Z.mod_pos_bound; lia. }
  assert (Py.has_shape3 FH FW 3 frame) as Hshape3.
  { apply has_shape3_shape2. split; [done|]. intros row col px Hpx.
    by apply (Hpx3 row col). }
  split; [done|]. split; [|by apply length_flat_shape3].
  apply Forall_lookup_2. intros row frow Hfrow.
  apply Forall_lookup_2. intros col px Hpx. apply (Hpx3 row col).
  unfold Py.at2. by rewrite Hfrow.
Qed.

Lemma scroll_frames_have_the_writer_size_witness :
  ∃ frames frame,
    Scroll.main no_blur Scroll.source_config example_text 1 2 = Some frames
    ∧ frames !! 7%nat = Some frame
    ∧ Py.has_shape3 (Z.to_nat (Scroll.FRAME_HEIGHT Scroll.source_config))
        (Z.to_nat (Scroll.FRAME_WIDTH Scroll.source_config)) 3 frame.
Proof.
  destruct (scroll_frames no_blur Scroll.source_config example_text 2 2 1 2)
    as (frames & Hmain & Hlen).
  { split; [reflexivity|]. repeat constructor. }
  { by vm_compute. }
  rewrite scroll_source_num_total_frames in Hlen.
  destruct (lookup_lt_is_Some_2 frames 7) as [frame Hframe]; [lia|].
  exists frames, frame. split; [done|]. split; [done|].
  destruct (scroll_frames_have_the_writer_size no_blur Scroll.source_config
              example_text 2 2 1 2 0 0 0 frames 7 frame) as (Hshape & _).
  - intros src ksize sigma h w Hsrc. exact Hsrc.
  - split; [reflexivity|]. repeat constructor.
  - reflexivity.
  - exact Hmain.
  - exact Hframe.
  - exact Hshape.
Defined.

(** X20: for a text block of four channels, a frame with pixels, a
    background of three bytes and a feather that is not negative, the
    scroll completes exactly when [FPS // 2] is not 0 or there is no frame
    to write.  At a frame rate of 1 with at least one frame, the first
    frame is composited and the progress report that follows it raises
    [ZeroDivisionError]. *)
Theorem scroll_needs_two_frames_per_second
    (GaussianBlur : list (list Z) → Z * Z → R → list (list Z)) cfg
    (text : list (list (list Z))) (th tw : nat)
    (s_actual_h text_block_rendered_height : Z) (b g r : Z) :
  Py.has_shape3 th tw 4 text → Py.all_uint8 text →
  (0 < Scroll.FRAME_HEIGHT cfg)%Z → (0 < Scroll.FRAME_WIDTH cfg)%Z →
  (0 ≤ Scroll.FEATHER_AMOUNT_PIXELS cfg)%Z →
  Scroll.BACKGROUND_COLOR_CV cfg = [b; g; r] → Forall Py.is_uint8 [b; g; r] →
  (0 < Scroll.FPS cfg)%Z → Scroll.num_total_frames_defined cfg = true →
  (is_Some (Scroll.main GaussianBlur cfg text s_actual_h
              text_block_rendered_height)
   ↔ (Scroll.FPS cfg `div` 2 ≠ 0 ∨ Scroll.num_total_frames cfg ≤ 0)%Z)
  ∧ ((Scroll.FPS cfg `div` 2 = 0)%Z → (0 < Scroll.num_total_frames cfg)%Z →
     is_Some (Scroll.render_frame cfg text s_actual_h text_block_rendered_height
                (Scroll.feathered_mask_normalized GaussianBlur cfg) 0)
     ∧ Scroll.report_due cfg 0 = None).
Proof.
  intros Htext _ _ _ _ _ _ _ _. split; [split|].
  - intros [frames Hmain].
    destruct (decide (Scroll.FPS cfg `div` 2 = 0)%Z) as [Hfps|Hfps]; [|by left].
    right. destruct (Z_le_gt_dec (Scroll.num_total_frames cfg) 0) as [|Hn]; [done|].
    unfold Scroll.main in Hmain. apply mapM_Some_1 in Hmain.
    assert (Py.range (Scroll.num_total_frames cfg) !! 0%nat = Some 0%Z) as H0.
    { unfold Py.range. rewrite list_lookup_fmap, lookup_seq_lt by lia. done. }
    destruct (Forall2_lookup_l _ _ _ _ _ Hmain H0) as (frame & _ & Hframe).
    simpl in Hframe.
    destruct (Scroll.render_frame _ _ _ _ _ _); [|done]. simpl in Hframe.
    unfold Scroll.report_due in Hframe.
    by rewrite bool_decide_eq_true_2 in Hframe.
  - intros [Hfps|Hn].
    + destruct (scroll_frames GaussianBlur cfg text th tw s_actual_h
                  text_block_rendered_height Htext Hfps) as (frames & -> & _).
      done.
    + unfold Scroll.main, Py.range.
      replace (Z.to_nat (Scroll.num_total_frames cfg)) with 0%nat by lia. done.
  - intros Hfps Hn. split.
    + unfold Scroll.render_frame.
      destruct (paste_is_Some cfg text th tw
                  (Scroll.current_y_pil_top cfg s_actual_h
                     text_block_rendered_height
                     (ease_in_out_cubic (Scroll.progress cfg 0))) Htext)
        as [canvas ->].
      done.
    + unfold Scroll.report_due. by rewrite bool_decide_eq_true_2.
Qed.

Lemma scroll_needs_two_frames_per_second_witness :
  Scroll.num_total_frames one_fps_config = 2%Z
  ∧ ¬ is_Some (Scroll.main no_blur one_fps_config example_text 1 2).
Proof.
  split; [reflexivity|]. intros Hmain.
  destruct (scroll_needs_two_frames_per_second no_blur one_fps_config
              example_text 2 2 1 2 0 0 0) as [Hiff _].
  - split; [reflexivity|]. repeat constructor.
  - repeat constructor; done.
  - unfold Scroll.FRAME_HEIGHT. simpl. rewrite (int_eq_floor 720); [lia|lra..].
  - simpl. lia.
  - simpl. lia.
  - reflexivity.
  - repeat constructor; done.
  - simpl. lia.
  - reflexivity.
  - apply Hiff in Hmain as [Hfps|Hn].
    + by apply Hfps.
    + by vm_compute in Hn.
Defined.

(** X11: a pixel of a scroll frame that lies outside the rectangle where
    the text block is pasted, or where the mask is 0, shows the background
    colour exactly, whatever the text and the rest of the mask are. *)
Theorem scroll_frame_shows_background cfg (text : list (list (list Z)))
    (th tw : nat) (s_actual_h text_block_rendered_height : Z)
    (mask : list (list (list R))) (frame_idx : Z) (b g r : Z) (row col : nat) :
  Py.has_shape3 th tw 4 text →
  Py.has_shape3 (Z.to_nat (Scroll.FRAME_HEIGHT cfg))
    (Z.to_nat (Scroll.FRAME_WIDTH cfg)) 1 mask →
  Scroll.BACKGROUND_COLOR_CV cfg = [b; g; r] →
  Forall Py.is_uint8 [b; g; r] →
  (row < Z.to_nat (Scroll.FRAME_HEIGHT cfg))%nat →
  (col < Z.to_nat (Scroll.FRAME_WIDTH cfg))%nat →
  let p :=
    Scroll.place cfg text
      (Scroll.current_y_pil_top cfg s_actual_h text_block_rendered_height
         (ease_in_out_cubic (Scroll.progress cfg frame_idx))) in
  ¬ ((Scroll.eff_dst_y1 p ≤ Z.of_nat row < Scroll.eff_dst_y2 p)%Z
     ∧ (Scroll.eff_dst_x1 p ≤ Z.of_nat col < Scroll.eff_dst_x2 p)%Z)
  ∨ Py.at2 mask row col = Some [0] →
  ∃ frame,
    Scroll.render_frame cfg text s_actual_h text_block_rendered_height mask
      frame_idx = Some frame
    ∧ Py.at2 frame row col = Some [b; g; r].
Proof.
  intros Htext Hmask Hbg Hbg8 Hrow Hcol p Hcase.
  destruct (render_frame_pixels cfg text th tw s_actual_h
              text_block_rendered_height mask frame_idx b g r Htext Hmask Hbg)
    as (canvas & frame & Hcanvas & Hframe & _ & Hpix).
  exists frame. split; [done|].
  destruct (Hpix row col Hrow Hcol) as (cb & cg & cr & ca & m & Hc & Hm & Hf).
  apply Forall_cons in Hbg8 as [Hb8 Hbg8]. apply Forall_cons in Hbg8 as [Hg8 Hbg8].
  apply Forall_cons in Hbg8 as [Hr8 _].
  assert (IZR ca / 255.0 * m = 0) as Hzero.
  { destruct Hcase as [Hout|Hm0].
    - destruct (paste_canvas_spec cfg text th tw
                  (Scroll.current_y_pil_top cfg s_actual_h
                     text_block_rendered_height
                     (ease_in_out_cubic (Scroll.progress cfg frame_idx))) Htext)
        as (canvas' & Hc' & _ & Hat).
      rewrite Hcanvas in Hc'. injection Hc' as <-.
      rewrite Hat in Hc by done. fold p in Hc.
      rewrite bool_decide_eq_false_2 in Hc by done.
      injection Hc as <- <- <- <-. lra.
    - rewrite Hm in Hm0. injection Hm0 as ->. lra. }
  rewrite Hf. simpl. rewrite Hzero. f_equal.
  replace (IZR b * (1 - 0) + IZR cb * 0) with (IZR b) by lra.
  replace (IZR g * (1 - 0) + IZR cg * 0) with (IZR g) by lra.
  replace (IZR r * (1 - 0) + IZR cr * 0) with (IZR r) by lra.
  by rewrite !astype_uint8_IZR.
Qed.

Lemma scroll_frame_shows_background_witness :
  ∃ frame,
    Scroll.render_frame Scroll.source_config example_text 1 2
      (Py.full_3d 720 1280 1 0) 7 = Some frame
    ∧ Py.at2 frame 3 5 = Some [0; 0; 0]%Z.
Proof.
  apply (scroll_frame_shows_background Scroll.source_config example_text 2 2 1 2
           (Py.full_3d 720 1280 1 0) 7 0 0 0 3 5).
  - split; [reflexivity|]. repeat constructor.
  - rewrite scroll_source_FRAME_HEIGHT. apply has_shape3_full_3d.
  - reflexivity.
  - repeat constructor; done.
  - rewrite scroll_source_FRAME_HEIGHT. lia.
  - simpl. lia.
  - right. reflexivity.
Defined.

(** ** The scroll offset *)

Lemma round_cases (x : R) :
  (Py.round x = Zfloor x ∧ x - IZR (Zfloor x) <= 0.5)
  ∨ (Py.round x = (Zfloor x + 1)%Z ∧ 0.5 <= x - IZR (Zfloor x)).
Proof.
  unfold Py.round.
  destruct (Rlt_dec (x - IZR (Zfloor x)) 0.5); [left; split; [done|lra]|].
  destruct (Rlt_dec 0.5 (x - IZR (Zfloor x))); [right; split; [done|lra]|].
  destruct (Z.even (Zfloor x)); [left|right]; (split; [done|lra]).
Qed.

Lemma round_monotone (x y : R) : x <= y → (Py.round x ≤ Py.round y)%Z.
Proof.
  intros Hxy. pose proof (Zfloor_le _ _ Hxy) as Hfl.
  destruct (Z.eq_dec (Zfloor x) (Zfloor y)) as [Heq|Hne].
  - unfold Py.round. rewrite <-Heq.
    set (f := Zfloor x).
    assert (x - IZR f <= y - IZR f) as Hd by lra.
    destruct (Rlt_dec (x - IZR f) 0.5), (Rlt_dec (y - IZR f) 0.5); try lia; try lra.
    + destruct (Rlt_dec 0.5 (y - IZR f)); [lia|]. destruct (Z.even f); lia.
    + destruct (Rlt_dec 0.5 (x - IZR f)), (Rlt_dec 0.5 (y - IZR f));
        try lia; try lra. destruct (Z.even f); lia.
  - destruct (round_cases x) as [[-> _]|[-> _]], (round_cases y) as [[-> _]|[-> _]];
      lia.
Qed.

Lemma scroll_progress_monotone cfg (i j : Z) :
  (0 ≤ i)%Z → (i ≤ j)%Z → Scroll.progress cfg i <= Scroll.progress cfg j.
Proof.
  intros Hi Hij. unfold Scroll.progress.
  destruct (bool_decide _) eqn:E; [|lra]. apply bool_decide_eq_true in E.
  apply Rmult_le_compat_r.
  - left. apply Rinv_0_lt_compat, IZR_lt. lia.
  - apply IZR_le. lia.
Qed.

(** X12: when the text block is at least as tall as one line, the scroll
    offset never increases from one frame to the next: the block only moves
    upwards.  The first frame is at the rounded start offset, every frame
    stays between the rounded end offset and the rounded start offset, and
    with more than one frame the last frame is exactly at the rounded end
    offset. *)
Theorem scroll_offset_only_moves_up cfg (s_actual_h text_block_rendered_height : Z)
    (i j : Z) :
  (s_actual_h ≤ text_block_rendered_height)%Z →
  (0 ≤ i)%Z → (i ≤ j)%Z → (j < Scroll.num_total_frames cfg)%Z →
  let offset := λ k,
    Scroll.current_y_pil_top cfg s_actual_h text_block_rendered_height
      (ease_in_out_cubic (Scroll.progress cfg k)) in
  let first :=
    Py.round (Scroll.start_scroll_y_offset_pil_top cfg s_actual_h) in
  let last :=
    Py.round (Scroll.end_scroll_y_offset_pil_top cfg s_actual_h
                text_block_rendered_height) in
  offset 0%Z = first
  ∧ (last ≤ offset j ≤ offset i)%Z
  ∧ (offset i ≤ first)%Z
  ∧ ((Scroll.num_total_frames cfg > 1)%Z →
     offset (Scroll.num_total_frames cfg - 1)%Z = last).
Proof.
  intros Hh Hi Hij Hj offset first last.
  set (s := Scroll.start_scroll_y_offset_pil_top cfg s_actual_h).
  set (e := Scroll.end_scroll_y_offset_pil_top cfg s_actual_h
              text_block_rendered_height).
  assert (e <= s) as Hes.
  { unfold e, s, Scroll.end_scroll_y_offset_pil_top,
      Scroll.start_scroll_y_offset_pil_top.
    apply IZR_le in Hh. lra. }
  assert (∀ k, (0 ≤ k < Scroll.num_total_frames cfg)%Z →
            0 <= ease_in_out_cubic (Scroll.progress cfg k) <= 1) as Hrange.
  { intros k Hk. apply ease_in_out_cubic_range. by apply scroll_progress_range. }
  assert (∀ t, offset t = Py.round (s + (e - s) * ease_in_out_cubic
                                                  (Scroll.progress cfg t)))
    as Hoff by done.
  assert (ease_in_out_cubic 0 = 0) as He0.
  { unfold ease_in_out_cubic. destruct (Rlt_dec (0 * 2) 1); lra. }
  assert (ease_in_out_cubic 1 = 1) as He1.
  { unfold ease_in_out_cubic. destruct (Rlt_dec (1 * 2) 1); lra. }
  assert (Scroll.progress cfg 0 = 0) as Hp0.
  { unfold Scroll.progress. destruct (bool_decide _); lra. }
  destruct (Hrange i) as [Hi0 Hi1]; [lia|].
  destruct (Hrange j) as [Hj0 Hj1]; [lia|].
  assert (ease_in_out_cubic (Scroll.progress cfg i)
          <= ease_in_out_cubic (Scroll.progress cfg j)) as Hmono.
  { apply ease_in_out_cubic_monotone.
    - apply scroll_progress_range. lia.
    - by apply scroll_progress_monotone.
    - apply scroll_progress_range. lia. }
  split; [|split; [split|split]].
  - rewrite Hoff, Hp0, He0. unfold first. fold s. f_equal. lra.
  - rewrite Hoff. apply round_monotone. fold e. nra.
  - rewrite !Hoff. apply round_monotone. nra.
  - rewrite Hoff. apply round_monotone. fold s. nra.
  - intros Hn. rewrite Hoff, scroll_progress_last.
    rewrite bool_decide_eq_true_2 by done. rewrite He1. unfold last. fold e.
    f_equal. lra.
Qed.

Lemma scroll_offset_only_moves_up_witness :
  (Scroll.current_y_pil_top Scroll.source_config 100 1300
     (ease_in_out_cubic (Scroll.progress Scroll.source_config 40))
   ≤ Scroll.current_y_pil_top Scroll.source_config 100 1300
       (ease_in_out_cubic (Scroll.progress Scroll.source_config 10)))%Z.
Proof.
  destruct (scroll_offset_only_moves_up Scroll.source_config 100 1300 10 40)
    as (_ & [_ H] & _); [lia|lia|lia| |exact H].
  rewrite scroll_source_num_total_frames. lia.
Defined.

(** ** Clipping of the text block *)

(** X13: the cases of the clipping.  A block that lies within the frame
    vertically is pasted with all its rows, at its offset; a block that
    starts above the frame loses exactly its first [-y] rows; a block
    entirely above or below the frame is not pasted and the canvas stays
    all zero.  Horizontally the block is centred, its left and right
    margins differing by at most one pixel, and a block no wider than the
    frame keeps all its columns. *)
Theorem text_clipping_cases cfg (text : list (list (list Z))) (th tw : nat)
    (y : Z) :
  Py.has_shape3 th tw 4 text → (0 < th)%nat →
  let p := Scroll.place cfg text y in
  let FH := Scroll.FRAME_HEIGHT cfg in
  let FW := Scroll.FRAME_WIDTH cfg in
  let dst_x_offset_canvas := ((FW - Z.of_nat tw) `div` 2)%Z in
  ((0 ≤ y)%Z → (y + Z.of_nat th ≤ FH)%Z →
   Scroll.eff_src_y1_text_img p = 0%Z
   ∧ Scroll.eff_src_y2_text_img p = Z.of_nat th
   ∧ Scroll.eff_dst_y1 p = y ∧ Scroll.eff_dst_y2 p = (y + Z.of_nat th)%Z)
  ∧ ((y < 0)%Z → (0 < y + Z.of_nat th ≤ FH)%Z →
     Scroll.eff_src_y1_text_img p = (- y)%Z
     ∧ Scroll.eff_src_y2_text_img p = Z.of_nat th
     ∧ Scroll.eff_dst_y1 p = 0%Z ∧ Scroll.eff_dst_y2 p = (y + Z.of_nat th)%Z)
  ∧ ((y + Z.of_nat th ≤ 0)%Z ∨ (FH ≤ y)%Z →
     Scroll.pastes p = false
     ∧ Scroll.temp_scrolled_text_canvas_bgra cfg text y
       = Some (Scroll.zeros_bgra FH FW))
  ∧ (0 ≤ (FW - (dst_x_offset_canvas + Z.of_nat tw)) - dst_x_offset_canvas ≤ 1)%Z
  ∧ ((Z.of_nat tw ≤ FW)%Z →
     Scroll.eff_src_x1_text_img p = 0%Z
     ∧ Scroll.eff_src_x2_text_img p = Z.of_nat tw
     ∧ Scroll.eff_dst_x1 p = dst_x_offset_canvas
     ∧ Scroll.eff_dst_x2 p = (dst_x_offset_canvas + Z.of_nat tw)%Z).
Proof.
  intros Htext Hth p FH FW xoff.
  apply has_shape3_shape2 in Htext as [Htext _].
  pose proof (text_img_h_shape _ _ _ Htext) as Hh.
  pose proof (text_img_w_shape _ _ _ Htext Hth) as Hw.
  assert (Scroll.eff_dst_y1 p = Z.max 0 y) as Hd1 by done.
  assert (Scroll.eff_dst_y2 p = Z.min FH (y + Z.of_nat th)) as Hd2
    by (unfold p, Scroll.place; simpl; by rewrite Hh).
  assert (Scroll.eff_src_y1_text_img p = Z.max 0 y - y)%Z as Hs1
    by (simpl; lia).
  assert (Scroll.eff_src_y2_text_img p = Z.min FH (y + Z.of_nat th) - y)%Z as Hs2
    by (unfold p, Scroll.place, FH; simpl; rewrite Hh; lia).
  assert (Scroll.eff_dst_x1 p = Z.max 0 xoff) as Hdx1
    by (unfold p, Scroll.place, xoff; simpl; by rewrite Hw).
  assert (Scroll.eff_dst_x2 p = Z.min FW (xoff + Z.of_nat tw)) as Hdx2
    by (unfold p, Scroll.place, xoff; simpl; by rewrite Hw).
  assert (Scroll.eff_src_x1_text_img p = Z.max 0 xoff - xoff)%Z as Hsx1
    by (unfold p, Scroll.place, xoff, FW; simpl; rewrite Hw; lia).
  assert (Scroll.eff_src_x2_text_img p = Z.min FW (xoff + Z.of_nat tw) - xoff)%Z
    as Hsx2 by (unfold p, Scroll.place, xoff, FW; simpl; rewrite Hw; lia).
  assert (2 * xoff ≤ FW - Z.of_nat tw < 2 * xoff + 2)%Z as Hxoff.
  { unfold xoff. pose proof (Z.div_mod (FW - Z.of_nat tw) 2).
    pose proof (Z.mod_pos_bound (FW - Z.of_nat tw) 2). lia. }
  split; [intros; lia|]. split; [intros; lia|]. split; [|split; [lia|intros; lia]].
  intros Hoff.
  assert (Scroll.pastes p = false) as Hp.
  { unfold Scroll.pastes.
    rewrite (bool_decide_eq_false_2 (Scroll.eff_dst_y2 p > Scroll.eff_dst_y1 p)%Z)
      by lia. done. }
  split; [done|]. unfold Scroll.temp_scrolled_text_canvas_bgra. fold p.
  by rewrite Hp.
Qed.

Lemma text_clipping_cases_witness :
  Scroll.pastes (Scroll.place Scroll.source_config example_text (-2)) = false
  ∧ Scroll.temp_scrolled_text_canvas_bgra Scroll.source_config example_text (-2)
    = Some (Scroll.zeros_bgra (Scroll.FRAME_HEIGHT Scroll.source_config) 1280).
Proof.
  destruct (text_clipping_cases Scroll.source_config example_text 2 2 (-2))
    as (_ & _ & H & _).
  - split; [reflexivity|]. repeat constructor.
  - lia.
  - apply H. left. lia.
Defined.

(** ** The band of the feathered mask at its limits *)

(** X14: in a frame of at least one row the band before the blur is never
    empty: the centre row [frame_h // 2] is 255 over the whole width even
    for a visible height of 0 or 1.  For a visible height of at least the
    frame's height every pixel of the band is 255, so nothing is masked
    beyond the blur.  The band is symmetric about the centre row. *)
Theorem band_is_never_empty
    (GaussianBlur : list (list Z) → Z * Z → R → list (list Z))
    (frame_w frame_h visible_strip_h feather_px : Z) :
  (0 < frame_h)%Z → (0 ≤ visible_strip_h)%Z →
  ∃ band : list (list Z),
    Scroll.create_feathered_mask GaussianBlur frame_w frame_h visible_strip_h
      feather_px =
    GaussianBlur band (feather_px * 2 + 1, feather_px * 2 + 1)%Z 0
    ∧ (∀ c : nat, (c < Z.to_nat frame_w)%nat →
         Py.at2 band (Z.to_nat (frame_h `div` 2)) c = Some 255%Z)
    ∧ ((frame_h ≤ visible_strip_h)%Z →
       ∀ r c : nat, (r < Z.to_nat frame_h)%nat → (c < Z.to_nat frame_w)%nat →
         Py.at2 band r c = Some 255%Z)
    ∧ (∀ d r r' c : nat,
         Z.of_nat r = (frame_h `div` 2 - Z.of_nat d)%Z →
         Z.of_nat r' = (frame_h `div` 2 + Z.of_nat d)%Z →
         (r' < Z.to_nat frame_h)%nat → (c < Z.to_nat frame_w)%nat →
         Py.at2 band r c = Py.at2 band r' c).
Proof.
  intros Hh Hv.
  set (half := (visible_strip_h `div` 2)%Z).
  assert (0 ≤ half)%Z as Hhalf by (apply Z.div_pos; lia).
  assert (0 ≤ frame_h `div` 2 < frame_h)%Z as Hcentre.
  { split; [apply Z.div_pos; lia|]. apply Z.div_lt_upper_bound; lia. }
  destruct (strip_band_spec frame_w frame_h (frame_h `div` 2 - half)
              (frame_h `div` 2 + half)) as [_ Hat]; [lia|].
  eexists. split; [reflexivity|]. split; [|split].
  - intros c Hc. rewrite Hat by lia. rewrite bool_decide_eq_true_2; [done|lia].
  - intros Hfull r c Hr Hc. rewrite Hat by done.
    assert (frame_h `div` 2 ≤ half)%Z by (by apply Z.div_le_mono).
    assert (frame_h ≤ 2 * (frame_h `div` 2) + 1)%Z.
    { pose proof (Z.div_mod frame_h 2). pose proof (Z.mod_pos_bound frame_h 2). lia. }
    rewrite bool_decide_eq_true_2; [done|lia].
  - intros d r r' c Hr Hr' Hlt Hc. rewrite !Hat by lia. f_equal.
    destruct (bool_decide (_ ≤ Z.of_nat r ≤ _)%Z) eqn:E.
    + apply bool_decide_eq_true in E. rewrite bool_decide_eq_true_2; [done|lia].
    + apply bool_decide_eq_false in E. rewrite bool_decide_eq_false_2; [done|lia].
Qed.

Lemma band_is_never_empty_witness :
  ∃ band : list (list Z),
    Scroll.create_feathered_mask no_blur 3 5 0 2 = no_blur band (5, 5)%Z 0
    ∧ Py.at2 band 2 1 = Some 255%Z.
Proof.
  destruct (band_is_never_empty no_blur 3 5 0 2) as (band & Hmask & Hcentre & _);
    [lia..|].
  exists band. split; [done|]. apply (Hcentre 1%nat). lia.
Defined.

(** ** The years asked from the user *)

Lemma length_py_range (a b : Z) : length (py_range a b) = Z.to_nat (b - a).
Proof. unfold py_range. by rewrite length_fmap, length_seq. Qed.

Lemma lookup_py_range (a b : Z) (k : nat) :
  (k < Z.to_nat (b - a))%nat → py_range a b !! k = Some (a + Z.of_nat k)%Z.
Proof.
  intros Hk. unfold py_range. by rewrite list_lookup_fmap, lookup_seq_lt.
Qed.

Lemma get_user_years_spec int_of_str (n : nat) :
  ∀ stdin start_year end_year rest,
    (length stdin ≤ n)%nat →
    Years.get_user_years int_of_str stdin = Some (start_year, end_year, rest) →
    (start_year < end_year)%Z
    ∧ ∃ consumed,
        stdin = consumed ++ rest
        ∧ Nat.Even (length consumed) ∧ (2 ≤ length consumed)%nat.
Proof.
  induction n as [|n IH]; intros stdin s e rest Hlen Hrun.
  - destruct stdin; [done|simpl in Hlen; lia].
  - destruct stdin as [|a [|b tl]]; [done..|]. simpl in Hrun.
    destruct (bool_decide _) eqn:E.
    + destruct (IH tl s e rest) as (Hlt & consumed & -> & Heven & Hge).
      { simpl in Hlen. lia. }
      { done. }
      split; [done|]. exists (a :: b :: consumed). split; [done|].
      simpl. split; [|lia]. destruct Heven as [m Hm]. exists (S m). lia.
    + apply bool_decide_eq_false in E. injection Hrun as <- <- <-.
      split; [lia|]. exists [a; b]. split; [done|]. split; [by exists 1%nat|done].
Qed.

(** X15: whatever the user types, a pair of years that [get_user_years]
    returns has its start strictly before its end, after an even number of
    lines read; so the list of years built from it runs from the start to
    the end year in steps of one and has at least two entries, and
    [years_list[0]] exists. *)
Theorem user_years_are_increasing (int_of_str : String.string → option Z)
    (stdin : list String.string) (start_year end_year : Z)
    (rest : list String.string) :
  Years.get_user_years int_of_str stdin = Some (start_year, end_year, rest) →
  (start_year < end_year)%Z
  ∧ (∃ consumed,
       stdin = consumed ++ rest
       ∧ Nat.Even (length consumed) ∧ (2 ≤ length consumed)%nat)
  ∧ length (Years.years start_year end_year)
    = Z.to_nat (end_year - start_year + 1)
  ∧ (2 ≤ length (Years.years start_year end_year))%nat
  ∧ head (Years.years start_year end_year) = Some start_year
  ∧ last (Years.years start_year end_year) = Some end_year
  ∧ ∀ k : nat,
      (k < length (Years.years start_year end_year))%nat →
      Years.years start_year end_year !! k = Some (start_year + Z.of_nat k)%Z.
Proof.
  intros Hrun.
  destruct (get_user_years_spec int_of_str (length stdin) stdin start_year
              end_year rest) as [Hlt Hconsumed]; [done..|].
  assert (length (Years.years start_year end_year)
          = Z.to_nat (end_year - start_year + 1)) as Hlen.
  { unfold Years.years. rewrite length_py_range. f_equal. lia. }
  assert (∀ k : nat,
            (k < length (Years.years start_year end_year))%nat →
            Years.years start_year end_year !! k
            = Some (start_year + Z.of_nat k)%Z) as Hlookup.
  { intros k Hk. unfold Years.years in *. apply lookup_py_range.
    by rewrite length_py_range in Hk. }
  split; [done|]. split; [done|]. split; [done|]. split; [lia|].
  split; [|split; [|done]].
  - rewrite head_lookup, Hlookup by lia. f_equal. lia.
  - rewrite last_lookup, Hlookup by lia. f_equal. lia.
Qed.

Lemma user_years_are_increasing_witness :
  (Years.DEFAULT_START_YEAR < Years.DEFAULT_END_YEAR)%Z
  ∧ length (Years.years Years.DEFAULT_START_YEAR Years.DEFAULT_END_YEAR) = 11%nat.
Proof.
  destruct (user_years_are_increasing example_int_of_str
              [String.EmptyString; String.EmptyString]
              Years.DEFAULT_START_YEAR Years.DEFAULT_END_YEAR [])
    as (Hlt & _ & Hlen & _); [reflexivity|].
  split; [exact Hlt|]. rewrite Hlen. reflexivity.
Defined.

(** X16: a line that is empty or that [int] cannot read stands for the
    default of its field, so two such lines give the years 2000 and 2010
    without asking again; a pair whose start is not before its end is
    dropped and the next two lines are read; with fewer than two lines
    left the function ends in the [EOFError] of [input()]. *)
Theorem user_years_defaults_retry_and_eof (int_of_str : String.string → option Z)
    (start_year_str end_year_str : String.string) (rest : list String.string) :
  let unreadable := λ s,
    s = String.EmptyString ∨ int_of_str s = None in
  (unreadable start_year_str → unreadable end_year_str →
   Years.get_user_years int_of_str (start_year_str :: end_year_str :: rest)
   = Some (2000%Z, 2010%Z, rest))
  ∧ ((Years.read_year int_of_str Years.DEFAULT_START_YEAR start_year_str
      >= Years.read_year int_of_str Years.DEFAULT_END_YEAR end_year_str)%Z →
     Years.get_user_years int_of_str (start_year_str :: end_year_str :: rest)
     = Years.get_user_years int_of_str rest)
  ∧ Years.get_user_years int_of_str [] = None
  ∧ Years.get_user_years int_of_str [start_year_str] = None.
Proof.
  intros unreadable.
  assert (∀ d s, unreadable s → Years.read_year int_of_str d s = d) as Hdef.
  { intros d s [->|Hnone]; [done|]. unfold Years.read_year.
    destruct s; [done|]. by rewrite Hnone. }
  split; [|split; [|done]].
  - intros Ha Hb. simpl. rewrite !Hdef by done.
    rewrite bool_decide_eq_false_2; [done|].
    unfold Years.DEFAULT_START_YEAR, Years.DEFAULT_END_YEAR. lia.
  - intros Hge. simpl. by rewrite bool_decide_eq_true_2.
Qed.

Lemma user_years_defaults_retry_and_eof_witness :
  Years.get_user_years example_int_of_str
    [example_unreadable; String.EmptyString]
  = Some (2000%Z, 2010%Z, []).
Proof.
  destruct (user_years_defaults_retry_and_eof example_int_of_str
              example_unreadable String.EmptyString [])
    as [H _].
  apply H; [by right|by left].
Defined.

(** ** The box of the text block *)

Lemma foldl_min_from_inf (vs : list Z) (a : Z) :
  ∃ m, foldl TextBlock.min_from_inf (Some a) vs = Some m
       ∧ (m ≤ a)%Z ∧ Forall (λ v, (m ≤ v)%Z) vs ∧ m ∈ a :: vs.
Proof.
  revert a. induction vs as [|v vs IH]; intros a; simpl.
  - exists a. split; [done|]. split; [lia|]. split; [done|]. apply list_elem_of_here.
  - destruct (IH (Z.min a v)) as (m & Hm & Hle & Hall & Hin).
    exists m. split; [exact Hm|]. split; [lia|]. split.
    + constructor; [lia|done].
    + apply elem_of_cons in Hin as [->|Hin].
      * destruct (Z.min_spec a v) as [[_ ->]|[_ ->]].
        -- apply list_elem_of_here.
        -- apply list_elem_of_further, list_elem_of_here.
      * by do 2 apply list_elem_of_further.
Qed.

Lemma foldl_max_from_neg_inf (vs : list Z) (a : Z) :
  ∃ m, foldl TextBlock.max_from_neg_inf (Some a) vs = Some m
       ∧ (a ≤ m)%Z ∧ Forall (λ v, (v ≤ m)%Z) vs ∧ m ∈ a :: vs.
Proof.
  revert a. induction vs as [|v vs IH]; intros a; simpl.
  - exists a. split; [done|]. split; [lia|]. split; [done|]. apply list_elem_of_here.
  - destruct (IH (Z.max a v)) as (m & Hm & Hle & Hall & Hin).
    exists m. split; [exact Hm|]. split; [lia|]. split.
    + constructor; [lia|done].
    + apply elem_of_cons in Hin as [->|Hin].
      * destruct (Z.max_spec a v) as [[_ ->]|[_ ->]].
        -- apply list_elem_of_further, list_elem_of_here.
        -- apply list_elem_of_here.
      * by do 2 apply list_elem_of_further.
Qed.

Lemma min_from_inf_bound (vs : list Z) :
  vs ≠ [] →
  ∃ m, foldl TextBlock.min_from_inf None vs = Some m
       ∧ Forall (λ v, (m ≤ v)%Z) vs ∧ m ∈ vs.
Proof.
  destruct vs as [|v vs]; [done|]. intros _. simpl.
  destruct (foldl_min_from_inf vs v) as (m & Hm & Hle & Hall & Hin).
  exists m. split; [exact Hm|]. split; [by constructor|done].
Qed.

Lemma max_from_neg_inf_bound (vs : list Z) :
  vs ≠ [] →
  ∃ m, foldl TextBlock.max_from_neg_inf None vs = Some m
       ∧ Forall (λ v, (v ≤ m)%Z) vs ∧ m ∈ vs.
Proof.
  destruct vs as [|v vs]; [done|]. intros _. simpl.
  destruct (foldl_max_from_neg_inf vs v) as (m & Hm & Hle & Hall & Hin).
  exists m. split; [exact Hm|]. split; [by constructor|done].
Qed.

(** The boxes the loop measures: line [i] at the height [i * render]. *)
Lemma manual_scan_components (textbbox : Z * Z → Z → TextBlock.bbox)
    (N : nat) (render actual : Z) (l : list Z) :
  (length l ≤ N)%nat →
  let boxes :=
    imap (λ (i : nat) year, textbbox (0%Z, (Z.of_nat i * render)%Z) year) l in
  let st :=
    foldl (TextBlock.scan_line textbbox N render actual)
      {| TextBlock.min_bx := None; TextBlock.min_by := None;
         TextBlock.max_br := None; TextBlock.max_bb := None;
         TextBlock.temp_y := 0 |}
      (imap (λ i year, (i, year)) l) in
  ((length l < N)%nat → TextBlock.temp_y st = (Z.of_nat (length l) * render)%Z)
  ∧ TextBlock.min_bx st = foldl TextBlock.min_from_inf None (TextBlock.left <$> boxes)
  ∧ TextBlock.min_by st = foldl TextBlock.min_from_inf None (TextBlock.top <$> boxes)
  ∧ TextBlock.max_br st
    = foldl TextBlock.max_from_neg_inf None (TextBlock.right <$> boxes)
  ∧ TextBlock.max_bb st
    = foldl TextBlock.max_from_neg_inf None (TextBlock.bottom <$> boxes).
Proof.
  induction l as [|year l IH] using rev_ind; intros Hlen; [by simpl|].
  rewrite length_app in Hlen. simpl in Hlen.
  destruct IH as (Hy & Hl & Ht & Hr & Hb); [lia|].
  simpl. rewrite !imap_app, !fmap_app, !foldl_app. simpl.
  rewrite Nat.add_0_r. rewrite <-Hl, <-Ht, <-Hr, <-Hb, Hy by lia.
  split; [|done]. intros Hlt. rewrite length_app in Hlt |- *. simpl in Hlt |- *.
  rewrite bool_decide_eq_true_2 by lia. lia.
Qed.

(** X17: on a non-empty list of years, without [multiline_textbbox], the
    box computed line by line encloses the box of every line, measured at
    [i * single_line_render_height] for line [i], and each of its four
    sides is the side of some line.  For a spacing factor of at least 1 the
    render height of a line is at least its measured height, so the
    spacing is never negative.  With or without [multiline_textbbox] the
    image is the box plus 20 pixels on every side and the text is drawn so
    that the box starts at (20, 20), the padding [main] assumes; an empty
    list of years raises. *)
Theorem text_block_box_and_padding (textbbox : Z * Z → Z → TextBlock.bbox)
    (line_spacing_factor : R) (years_list : list Z) (first_year : Z) :
  head years_list = Some first_year →
  1 <= line_spacing_factor →
  (TextBlock.top (textbbox (0, 0)%Z first_year)
   ≤ TextBlock.bottom (textbbox (0, 0)%Z first_year))%Z →
  let actual :=
    (TextBlock.bottom (textbbox (0, 0)%Z first_year)
     - TextBlock.top (textbbox (0, 0)%Z first_year))%Z in
  let render := Py.int (IZR actual * line_spacing_factor) in
  let line_box := λ (i : nat) (year : Z),
    textbbox (0%Z, (Z.of_nat i * render)%Z) year in
  (actual ≤ render)%Z
  ∧ (∃ img l t r b,
       TextBlock.create_multi_year_text_image textbbox None line_spacing_factor
         years_list = Some img
       ∧ (∀ i year, years_list !! i = Some year →
            (l ≤ TextBlock.left (line_box i year))%Z
            ∧ (t ≤ TextBlock.top (line_box i year))%Z
            ∧ (TextBlock.right (line_box i year) ≤ r)%Z
            ∧ (TextBlock.bottom (line_box i year) ≤ b)%Z)
       ∧ (∃ i year, years_list !! i = Some year
                    ∧ TextBlock.left (line_box i year) = l)
       ∧ (∃ i year, years_list !! i = Some year
                    ∧ TextBlock.top (line_box i year) = t)
       ∧ (∃ i year, years_list !! i = Some year
                    ∧ TextBlock.right (line_box i year) = r)
       ∧ (∃ i year, years_list !! i = Some year
                    ∧ TextBlock.bottom (line_box i year) = b)
       ∧ TextBlock.img_width img = (r - l + 40)%Z
       ∧ TextBlock.img_height img = (b - t + 40)%Z
       ∧ (TextBlock.draw_x img + l = Scroll.padding)%Z
       ∧ (TextBlock.draw_y img + t = Scroll.padding)%Z
       ∧ TextBlock.text_block_height img = (b - t)%Z
       ∧ TextBlock.single_line_render_height img = render)
  ∧ (∀ measure : list Z → Z → TextBlock.bbox,
       ∃ img,
         TextBlock.create_multi_year_text_image textbbox (Some measure)
           line_spacing_factor years_list = Some img
         ∧ let box := measure years_list (render - actual)%Z in
           TextBlock.img_width img
           = (TextBlock.right box - TextBlock.left box + 40)%Z
           ∧ TextBlock.img_height img
             = (TextBlock.bottom box - TextBlock.top box + 40)%Z
           ∧ (TextBlock.draw_x img + TextBlock.left box = Scroll.padding)%Z
           ∧ (TextBlock.draw_y img + TextBlock.top box = Scroll.padding)%Z)
  ∧ (∀ bbox_of_block,
       TextBlock.create_multi_year_text_image textbbox bbox_of_block
         line_spacing_factor [] = None).
Proof.
  intros Hhead Hfactor Hbox actual render line_box.
  assert (0 ≤ actual)%Z as Hactual by (unfold actual; lia).
  assert (actual ≤ render)%Z as Hrender.
  { unfold render, Py.int. apply IZR_le in Hactual.
    assert (IZR actual <= IZR actual * line_spacing_factor) by nra.
    destruct (Rle_dec 0 (IZR actual * line_spacing_factor)); [|lra].
    by apply Zfloor_lub. }
  split; [done|]. split; [|split].
  - set (boxes := imap line_box years_list).
    assert (years_list ≠ []) as Hne by (by destruct years_list).
    assert (∀ f : TextBlock.bbox → Z, f <$> boxes ≠ []) as Hboxes.
    { intros f Hnil. apply fmap_nil_inv in Hnil. unfold boxes in Hnil.
      apply (f_equal length) in Hnil. rewrite length_imap in Hnil.
      by destruct years_list. }
    destruct (manual_scan_components textbbox (length years_list) render actual
                years_list) as (_ & Hl & Ht & Hr & Hb); [done|].
    fold line_box in Hl, Ht, Hr, Hb. fold boxes in Hl, Ht, Hr, Hb.
    destruct (min_from_inf_bound _ (Hboxes TextBlock.left)) as (l & Hlv & Hlall & Hlin).
    destruct (min_from_inf_bound _ (Hboxes TextBlock.top)) as (t & Htv & Htall & Htin).
    destruct (max_from_neg_inf_bound _ (Hboxes TextBlock.right))
      as (r & Hrv & Hrall & Hrin).
    destruct (max_from_neg_inf_bound _ (Hboxes TextBlock.bottom))
      as (b & Hbv & Hball & Hbin).
    assert (∀ (f : TextBlock.bbox → Z) i year,
              years_list !! i = Some year → f (line_box i year) ∈ f <$> boxes)
      as Hmem.
    { intros f i year Hi. apply list_elem_of_fmap. exists (line_box i year).
      split; [done|]. apply list_elem_of_lookup. exists i.
      unfold boxes. by rewrite list_lookup_imap, Hi. }
    assert (∀ (f : TextBlock.bbox → Z) v, v ∈ f <$> boxes →
              ∃ i year, years_list !! i = Some year ∧ f (line_box i year) = v)
      as Hattained.
    { intros f v Hin. apply list_elem_of_fmap in Hin as (bb & -> & Hbb).
      apply list_elem_of_lookup in Hbb as [i Hi]. unfold boxes in Hi.
      rewrite list_lookup_imap in Hi.
      destruct (years_list !! i) as [year|] eqn:Hyear; [|done].
      simpl in Hi. injection Hi as <-. by exists i, year. }
    eexists _, l, t, r, b. split.
    { unfold TextBlock.create_multi_year_text_image. rewrite Hhead. simpl.
      fold actual. fold render. unfold TextBlock.manual_scan.
      rewrite Hl, Ht, Hr, Hb, Hlv, Htv, Hrv, Hbv. simpl. reflexivity. }
    split.
    { intros i year Hi. rewrite Forall_forall in Hlall, Htall, Hrall, Hball.
      split; [by apply Hlall, Hmem|]. split; [by apply Htall, Hmem|].
      split; [by apply Hrall, Hmem|by apply Hball, Hmem]. }
    split; [by apply Hattained|]. split; [by apply Hattained|].
    split; [by apply Hattained|]. split; [by apply Hattained|].
    simpl. unfold TextBlock.right, TextBlock.left, TextBlock.top,
      TextBlock.bottom, Scroll.padding. simpl. repeat split; lia.
  - intros measure. eexists. split.
    { unfold TextBlock.create_multi_year_text_image. rewrite Hhead. simpl.
      reflexivity. }
    simpl. fold actual. fold render. unfold Scroll.padding.
    repeat split; lia.
  - intros bbox_of_block. done.
Qed.

Lemma text_block_box_and_padding_witness :
  ∃ img,
    TextBlock.create_multi_year_text_image example_textbbox None 1.2
      [2000; 2001; 2002]%Z = Some img
    ∧ TextBlock.single_line_render_height img = Py.int (IZR (33 - 3) * 1.2).
Proof.
  destruct (text_block_box_and_padding example_textbbox 1.2
              [2000; 2001; 2002]%Z 2000)
    as (_ & (img & l & t & r & b & Himg & H) & _).
  - reflexivity.
  - lra.
  - unfold example_textbbox, TextBlock.top, TextBlock.bottom. simpl. lia.
  - exists img. split; [exact Himg|].
    by destruct H as (_ & _ & _ & _ & _ & _ & _ & _ & _ & _ & ->).
Defined.

(** ** Brightening only, and text at full strength *)

(** X18: for a shine width that is not 0, where the shine layer is at least
    as bright as the icon's own colour, no frame of the sweep writes a byte
    below that of the static frame: the sweep only brightens. *)
Theorem sweep_only_brightens (max_lightness : list Z → list Z) cfg
    (icon : list (list (list Z))) (sweep_start sweep_end : R) (i : Z)
    (y x c : nat) (px : list Z) (shine_value : Z) :
  Shine.SHINE_WIDTH_FACTOR cfg ≠ 0 →
  Py.at2 icon y x = Some px →
  (x < Shine.icon_W icon)%nat →
  length px = 4%nat →
  Forall Py.is_uint8 px →
  (c < 3)%nat →
  max_lightness (take 3 px) !! c = Some shine_value →
  Py.is_uint8 shine_value →
  (nth c px 0 ≤ shine_value)%Z →
  ∃ static_byte byte,
    Py.at3 (Shine.static_base_frame icon) y x c = Some static_byte
    ∧ Py.at3 (Shine.final_frame_uint8 max_lightness cfg icon sweep_start
                sweep_end i) y x c = Some byte
    ∧ (static_byte ≤ byte)%Z.
Proof.
  intros _ Hpx Hx Hlen H8 Hc Hsv Hs8 Hbright.
  set (base := IZR (nth c px 0%Z) / 255.0 * (IZR (nth 3 px 0%Z) / 255.0)).
  assert (0 <= IZR (nth c px 0%Z) / 255.0 <= 1) as Hcol.
  { apply is_uint8_unit. rewrite Forall_forall in H8. apply H8.
    apply list_elem_of_In, nth_In. lia. }
  assert (0 <= IZR (nth 3 px 0%Z) / 255.0 <= 1) as Ha.
  { apply is_uint8_unit. rewrite Forall_forall in H8. apply H8.
    apply list_elem_of_In, nth_In. lia. }
  pose proof (is_uint8_unit _ Hs8) as Hshine.
  assert (0 <= base <= 1) as Hbase by (unfold base; nra).
  assert (base <= IZR shine_value / 255.0) as Hle.
  { apply IZR_le in Hbright. unfold base. nra. }
  assert (∃ v, Py.at3 (Shine.final_frame_float max_lightness cfg icon
                         sweep_start sweep_end i) y x c = Some v
               ∧ base <= v <= 1) as (v & Hv & Hvb).
  { destruct (Shine.animating cfg i) eqn:Hi.
    - rewrite (animated_pixel _ _ _ _ _ _ _ _ _ px shine_value) by done.
      eexists. split; [reflexivity|]. simpl. set (g := exp _).
      assert (0 < g <= 1) as Hg.
      { unfold g. apply exp_nonpos_range.
        match goal with |- - (?q * (?q * 1)) <= 0 =>
          pose proof (Rle_0_sqr q) as Hq; unfold Rsqr in Hq end. lra. }
      set (al := g * (IZR (nth 3 px 0%Z) / 255.0)).
      assert (0 <= al <= 1) as Hal by (unfold al; nra).
      fold base.
      assert (IZR shine_value / 255.0 * al + base * (1 - al)
              = base + al * (IZR shine_value / 255.0 - base)) as -> by ring.
      split; nra.
    - rewrite (static_pixel _ _ _ _ _ _ _ _ _ px) by done.
      eexists. split; [reflexivity|]. fold base. lra. }
  destruct (to_uint8_in_range base Hbase) as [Hb _].
  destruct (to_uint8_in_range v) as [Hbv _]; [lra|].
  exists (Zfloor (base * 255)), (Zfloor (v * 255)). split; [|split].
  - unfold Shine.static_base_frame, Shine.to_uint8.
    rewrite at3_map_3d, (at3_base_image _ _ _ _ px) by (done || lia).
    simpl. fold base. by rewrite Hb.
  - by rewrite at3_final_frame_uint8, Hv, <-Hbv.
  - apply Zfloor_le. nra.
Qed.

Lemma sweep_only_brightens_witness :
  ∃ static_byte byte,
    Py.at3 (Shine.static_base_frame example_icon_2x3) 1 2 2 = Some static_byte
    ∧ Py.at3 (Shine.final_frame_uint8 example_max_lightness Shine.source_config
                example_icon_2x3 (-1) 3 30) 1 2 2 = Some byte
    ∧ (static_byte ≤ byte)%Z.
Proof.
  apply (sweep_only_brightens example_max_lightness Shine.source_config
           example_icon_2x3 (-1) 3 30 1 2 2 [130; 140; 150; 64]%Z 255).
  - simpl. lra.
  - reflexivity.
  - simpl. lia.
  - reflexivity.
  - repeat constructor; done.
  - lia.
  - reflexivity.
  - by split.
  - simpl. lia.
Defined.

(** X19: a pixel of a scroll frame inside the pasted rectangle, where the
    text is fully opaque (alpha 255) and the mask is 1, shows the colour of
    the text exactly. *)
Theorem scroll_frame_shows_opaque_text cfg (text : list (list (list Z)))
    (th tw : nat) (s_actual_h text_block_rendered_height : Z)
    (mask : list (list (list R))) (frame_idx : Z) (b g r : Z) (row col : nat)
    (tb tg tr : Z) :
  Py.has_shape3 th tw 4 text → Py.all_uint8 text →
  Py.has_shape3 (Z.to_nat (Scroll.FRAME_HEIGHT cfg))
    (Z.to_nat (Scroll.FRAME_WIDTH cfg)) 1 mask →
  Scroll.BACKGROUND_COLOR_CV cfg = [b; g; r] →
  (row < Z.to_nat (Scroll.FRAME_HEIGHT cfg))%nat →
  (col < Z.to_nat (Scroll.FRAME_WIDTH cfg))%nat →
  let y :=
    Scroll.current_y_pil_top cfg s_actual_h text_block_rendered_height
      (ease_in_out_cubic (Scroll.progress cfg frame_idx)) in
  let p := Scroll.place cfg text y in
  let dst_x_offset_canvas :=
    ((Scroll.FRAME_WIDTH cfg - Scroll.text_img_w text) `div` 2)%Z in
  (Scroll.eff_dst_y1 p ≤ Z.of_nat row < Scroll.eff_dst_y2 p)%Z →
  (Scroll.eff_dst_x1 p ≤ Z.of_nat col < Scroll.eff_dst_x2 p)%Z →
  Py.at2 text (Z.to_nat (Z.of_nat row - y))
    (Z.to_nat (Z.of_nat col - dst_x_offset_canvas)) = Some [tb; tg; tr; 255%Z] →
  Py.at2 mask row col = Some [1] →
  ∃ frame,
    Scroll.render_frame cfg text s_actual_h text_block_rendered_height mask
      frame_idx = Some frame
    ∧ Py.at2 frame row col = Some [tb; tg; tr].
Proof.
  intros Htext H8 Hmask Hbg Hrow Hcol y p xoff Hy Hx Htpx Hm1.
  destruct (render_frame_pixels cfg text th tw s_actual_h
              text_block_rendered_height mask frame_idx b g r Htext Hmask Hbg)
    as (canvas & frame & Hcanvas & Hframe & _ & Hpix).
  exists frame. split; [done|].
  destruct (Hpix row col Hrow Hcol) as (cb & cg & cr & ca & m & Hc & Hm & Hf).
  destruct (paste_canvas_spec cfg text th tw y Htext) as (canvas' & Hc' & _ & Hat).
  fold y in Hcanvas. rewrite Hcanvas in Hc'. injection Hc' as <-.
  rewrite Hat in Hc by done. fold p in Hc.
  rewrite bool_decide_eq_true_2 in Hc by done. fold xoff in Hc.
  rewrite Htpx in Hc. injection Hc as <- <- <- <-.
  rewrite Hm in Hm1. injection Hm1 as ->.
  pose proof (all_uint8_at2 _ _ _ _ H8 Htpx) as Ht8.
  apply Forall_cons in Ht8 as [Hb8 Ht8]. apply Forall_cons in Ht8 as [Hg8 Ht8].
  apply Forall_cons in Ht8 as [Hr8 _].
  rewrite Hf. simpl. f_equal.
  assert (255 / 255.0 * 1 = 1) as -> by lra.
  replace (IZR b * (1 - 1) + IZR tb * 1) with (IZR tb) by lra.
  replace (IZR g * (1 - 1) + IZR tg * 1) with (IZR tg) by lra.
  replace (IZR r * (1 - 1) + IZR tr * 1) with (IZR tr) by lra.
  by rewrite !astype_uint8_IZR.
Qed.

Lemma round_IZR (z : Z) : Py.round (IZR z) = z.
Proof.
  unfold Py.round. rewrite ZfloorZ.
  destruct (Rlt_dec (IZR z - IZR z) 0.5); [done|lra].
Qed.

(** The offset of the first frame of the source's timeline, for lines of
    height 2: the first line is centred on row 360. *)
Lemma scroll_source_first_offset (text_block_rendered_height : Z) :
  Scroll.current_y_pil_top Scroll.source_config 2 text_block_rendered_height
    (ease_in_out_cubic (Scroll.progress Scroll.source_config 0)) = 339%Z.
Proof.
  unfold Scroll.progress. rewrite scroll_source_num_total_frames.
  rewrite bool_decide_eq_true_2 by lia.
  assert (ease_in_out_cubic (0 / IZR (60 - 1)) = 0) as ->.
  { unfold ease_in_out_cubic. simpl.
    destruct (Rlt_dec _ _); lra. }
  unfold Scroll.current_y_pil_top, Scroll.start_scroll_y_offset_pil_top,
    Scroll.video_center_y, Scroll.padding.
  rewrite scroll_source_FRAME_HEIGHT, Rmult_0_r, Rplus_0_r.
  replace (720 / 2 - (20 + 2 / 2)) with (IZR 339) by lra.
  apply round_IZR.
Qed.

Lemma scroll_frame_shows_opaque_text_witness :
  ∃ frame,
    Scroll.render_frame Scroll.source_config example_text 2 2
      (Py.full_3d 720 1280 1 1) 0 = Some frame
    ∧ Py.at2 frame 339 639 = Some [230; 230; 230]%Z.
Proof.
  apply (scroll_frame_shows_opaque_text Scroll.source_config example_text 2 2
           2 2 (Py.full_3d 720 1280 1 1) 0 0 0 0 339 639 230 230 230).
  - split; [reflexivity|]. repeat constructor.
  - repeat constructor; done.
  - rewrite scroll_source_FRAME_HEIGHT. apply has_shape3_full_3d.
  - reflexivity.
  - rewrite scroll_source_FRAME_HEIGHT. lia.
  - simpl. lia.
  - rewrite scroll_source_first_offset.
    unfold Scroll.place, Scroll.text_img_h, Scroll.text_img_w.
    rewrite scroll_source_FRAME_HEIGHT. vm_compute. by split.
  - rewrite scroll_source_first_offset.
    unfold Scroll.place, Scroll.text_img_h, Scroll.text_img_w.
    rewrite scroll_source_FRAME_HEIGHT. vm_compute. by split.
  - rewrite scroll_source_first_offset. reflexivity.
  - unfold Py.full_3d. rewrite at2_replicate by lia. reflexivity.
Defined.
